(** * serveStatic: a shallow embedding of [src/server/http/serveStatic.ts]

    The handler returned by [serveStatic] maps a request to a response by
    resolving the request path under a root directory, probing the file
    system, negotiating a precompressed sibling and answering with the whole
    file, a byte range of it, or the not-found collaborator.

    Conventions of the embedding.
    - A JavaScript string is a [string]: a sequence of 8-bit code units.
      Header values are byte strings already; path strings hold the UTF-8
      bytes of their characters, which leaves every ASCII test of the source
      (separators, dots, percent signs) unchanged.
    - A JavaScript number that the handler computes with is a [Z].  The
      source's doubles are exact on integers up to 2^53.  File sizes are
      taken to be below 2^52, so the only larger numbers are those a Range
      header names, and these are either replaced by [size - 1] or rejected
      by the read-stream constructor (see [NodeFs.createReadStream]), in
      the exact computation as in the source's.
    - Paths are POSIX paths: [join] is [path.posix.join].
    - A call that may throw returns a [result]; [try]/[catch] is a match.
      This includes the two calls into code the handler is given: the
      rewrite function and the not-found collaborator.
    - The file system, the MIME table of [./mime] and the global scope are
      fields of a [Host] record that the handler receives explicitly.
    - [handler] and [serveStatic] are the returned function from line 79
      on; [loggedHandler] puts the [console.log(env)] of line 78 in front,
      for the statements that say when nothing is thrown.
    - A header list stores a value as it is given, which is what [Headers]
      does with a value that has no white space at its ends and no
      forbidden byte ([Fetch.storedAsGiven]); a statement about the text
      of a content type, which comes from the MIME table, assumes as much.
    - A response body is read through the model of a [ReadableStream] in
      [Fetch]: a queue of chunks, reads that wait, [close] and [error]. *)

From Stdlib Require Import ZArith String Ascii List Bool Lia.
From Stdlib Require Import Numbers.DecimalString.
From stdpp Require Import strings gmap.
Import ListNotations.

Local Open Scope Z_scope.

(** ** Outcomes of calls that may throw *)

Inductive Error :=
| ReferenceError (name : string)
| RangeError (argument : string)
| URIError
| OtherError (message : string).

Inductive result (A : Type) :=
| Ok (a : A)
| Throw (e : Error).

Arguments Ok {A} a.
Arguments Throw {A} e.

#[global] Instance result_ret : MRet result := fun A a => Ok a.

#[global] Instance result_bind : MBind result := fun A B k m =>
  match m with
  | Ok a => k a
  | Throw e => Throw e
  end.

(** ** ECMAScript built-ins used by the handler *)

Module JS.

Definition code (c : ascii) : Z := Z.of_N (N_of_ascii c).

(** WhiteSpace and LineTerminator code units below 256: TAB, LF, VT, FF,
    CR, SP and NBSP.  Used by [parseInt], [String.prototype.trim] and the
    regular-expression class [\s]. *)
Definition isWhiteSpace (c : ascii) : bool :=
  let n := code c in
  ((9 <=? n) && (n <=? 13)) || (n =? 32) || (n =? 160).

(** Truthiness of a possibly-undefined string: [undefined] and the empty
    string are falsy. *)
Definition truthy (o : option string) : bool :=
  match o with
  | Some s => negb (String.eqb s "")
  | None => false
  end.

Fixpoint drop (n : nat) (s : string) : string :=
  match n, s with
  | O, _ => s
  | S n', String _ s' => drop n' s'
  | S _, EmptyString => EmptyString
  end.

(** [s.replace(/pat/, rep)] for a pattern that is a literal: the first
    occurrence only. *)
Fixpoint replace (pat rep s : string) : string :=
  if String.prefix pat s then rep +:+ drop (String.length pat) s
  else match s with
       | EmptyString => EmptyString
       | String c s' => String c (replace pat rep s')
       end.

(** [s.split(sep)] for a one-character separator. *)
Fixpoint split (sep : ascii) (s : string) : list string :=
  match s with
  | EmptyString => [EmptyString]
  | String c s' =>
      if Ascii.eqb c sep then EmptyString :: split sep s'
      else match split sep s' with
           | h :: t => String c h :: t
           | [] => [String c EmptyString]
           end
  end.

(** [s.split(sep, limit)]: the first [limit] pieces of the full split. *)
Definition split_limit (sep : ascii) (limit : nat) (s : string) : list string :=
  firstn limit (split sep s).

Fixpoint trimStart (s : string) : string :=
  match s with
  | String c s' => if isWhiteSpace c then trimStart s' else s
  | EmptyString => EmptyString
  end.

Fixpoint trimEnd (s : string) : string :=
  match s with
  | EmptyString => EmptyString
  | String c s' =>
      let t := trimEnd s' in
      if isWhiteSpace c && String.eqb t "" then EmptyString else String c t
  end.

Definition trim (s : string) : string := trimEnd (trimStart s).

Definition toLowerAscii (c : ascii) : ascii :=
  let n := code c in
  if (65 <=? n) && (n <=? 90) then ascii_of_N (Z.to_N (n + 32)) else c.

Fixpoint toLowerCase (s : string) : string :=
  match s with
  | EmptyString => EmptyString
  | String c s' => String (toLowerAscii c) (toLowerCase s')
  end.

(** *** parseInt(string, 10) *)

Definition digit (c : ascii) : option Z :=
  let n := code c in
  if (48 <=? n) && (n <=? 57) then Some (n - 48) else None.

(** Value of the longest prefix of decimal digits, most significant first. *)
Fixpoint digits (acc : Z) (s : string) : Z :=
  match s with
  | String c s' =>
      match digit c with
      | Some d => digits (10 * acc + d) s'
      | None => acc
      end
  | EmptyString => acc
  end.

(** The digits after the optional sign: NaN ([None]) unless the first
    character is a digit; whatever follows the digits is ignored. *)
Definition readNumber (sign : Z) (s : string) : option Z :=
  match s with
  | String c _ =>
      match digit c with
      | Some _ => Some (sign * digits 0 s)
      | None => None
      end
  | EmptyString => None
  end.

(** Leading white space is skipped, one sign is accepted, then the
    longest run of digits is read.  The result is the integer the digits
    spell; the source gets the nearest double, which is that integer up to
    2^53 and at least 2^53 beyond it.  Every number above 2^53 - 1 that
    reaches the read-stream constructor is refused there, and a comparison
    with a file size below 2^52 comes out the same for both, so the two
    lead to the same window or to a refusal alike; which of [start] and
    [end] the refusal names is left open wherever it is stated. *)
Definition parseInt (s : string) : option Z :=
  match trimStart s with
  | String c r =>
      if Ascii.eqb c "-" then readNumber (-1) r
      else if Ascii.eqb c "+" then readNumber 1 r
      else readNumber 1 (String c r)
  | EmptyString => None
  end.

(** [parseInt(parts[i], 10)] where [parts[i]] may be [undefined]:
    ToString(undefined) is the text "undefined", which has no digits. *)
Definition parseInt_arg (o : option string) : option Z :=
  parseInt (match o with Some s => s | None => "undefined"%string end).

(** [n || d] on numbers: NaN and 0 are falsy. *)
Definition or_number (n : option Z) (d : Z) : Z :=
  match n with
  | Some z => if z =? 0 then d else z
  | None => d
  end.

(** Number.prototype.toString on an integer: decimal, with a minus sign. *)
Definition toString (z : Z) : string := NilZero.string_of_int (Z.to_int z).

(** *** decodeURIComponent

    The Decode operation with an empty reserved set.  Outside an escape a
    code unit is copied.  An escape [%XX] below 0x80 yields that byte; a
    lead byte announces one to three further escapes, and the octets must
    form a well-formed UTF-8 sequence.  Every failure is a URIError. *)

Definition hexDigit (c : ascii) : option Z :=
  let n := code c in
  if (48 <=? n) && (n <=? 57) then Some (n - 48)
  else if (65 <=? n) && (n <=? 70) then Some (n - 55)
  else if (97 <=? n) && (n <=? 102) then Some (n - 87)
  else None.

Definition hexPair (h1 h2 : ascii) : option Z :=
  match hexDigit h1, hexDigit h2 with
  | Some a, Some b => Some (16 * a + b)
  | _, _ => None
  end.

Definition byte (b : Z) : ascii := ascii_of_N (Z.to_N b).

Fixpoint bytes (l : list Z) : string :=
  match l with
  | [] => EmptyString
  | b :: l' => String (byte b) (bytes l')
  end.

(** Number of escapes that must follow the lead byte [b]; [None] when [b]
    cannot start a sequence (a continuation byte, or more than four
    leading one bits). *)
Definition followers (b : Z) : option nat :=
  if b <? 128 then Some 0%nat
  else if b <? 192 then None
  else if b <? 224 then Some 1%nat
  else if b <? 240 then Some 2%nat
  else if b <? 248 then Some 3%nat
  else None.

Definition between (lo hi b : Z) : bool := (lo <=? b) && (b <=? hi).

(** Well-formed UTF-8 byte sequences of length two to four: no overlong
    form, no surrogate, nothing above U+10FFFF. *)
Definition wellFormedUTF8 (octets : list Z) : bool :=
  match octets with
  | [b0; b1] => between 194 223 b0 && between 128 191 b1
  | [b0; b1; b2] =>
      ((b0 =? 224) && between 160 191 b1
       || between 225 236 b0 && between 128 191 b1
       || (b0 =? 237) && between 128 159 b1
       || between 238 239 b0 && between 128 191 b1)
      && between 128 191 b2
  | [b0; b1; b2; b3] =>
      ((b0 =? 240) && between 144 191 b1
       || between 241 243 b0 && between 128 191 b1
       || (b0 =? 244) && between 128 143 b1)
      && between 128 191 b2 && between 128 191 b3
  | _ => false
  end.

(** [decode pending need s]: [need] escapes are still owed to the
    sequence whose octets so far are [pending]. *)
Fixpoint decode (pending : list Z) (need : nat) (s : string) : result string :=
  match need with
  | O =>
      match s with
      | EmptyString => Ok EmptyString
      | String "%"%char (String h1 (String h2 r)) =>
          match hexPair h1 h2 with
          | Some b =>
              match followers b with
              | Some O => rest ← decode [] 0%nat r; Ok (String (byte b) rest)
              | Some n => decode [b] n r
              | None => Throw URIError
              end
          | None => Throw URIError
          end
      | String "%"%char _ => Throw URIError
      | String c s' => rest ← decode [] 0%nat s'; Ok (String c rest)
      end
  | S need' =>
      match s with
      | String "%"%char (String h1 (String h2 r)) =>
          match hexPair h1 h2 with
          | Some b =>
              if between 128 191 b then
                match need' with
                | O =>
                    if wellFormedUTF8 (pending ++ [b])
                    then rest ← decode [] 0%nat r;
                         Ok (bytes (pending ++ [b]) +:+ rest)
                    else Throw URIError
                | S _ => decode (pending ++ [b]) need' r
                end
              else Throw URIError
          | None => Throw URIError
          end
      | _ => Throw URIError
      end
  end.

Definition decodeURIComponent (s : string) : result string :=
  decode [] 0%nat s.

(** *** Date.prototype.toUTCString

    A Date is its time value, milliseconds since the epoch. *)

Definition Date := Z.

Definition msPerDay : Z := 86400000.

Definition weekDayName (d : Z) : string :=
  nth (Z.to_nat d) ["Sun"; "Mon"; "Tue"; "Wed"; "Thu"; "Fri"; "Sat"]%string ""%string.

Definition monthName (m : Z) : string :=
  nth (Z.to_nat (m - 1))
    ["Jan"; "Feb"; "Mar"; "Apr"; "May"; "Jun";
     "Jul"; "Aug"; "Sep"; "Oct"; "Nov"; "Dec"]%string ""%string.

(** Proleptic Gregorian (year, month, day) of a day number counted from
    1970-01-01. *)
Definition civilFromDays (days : Z) : Z * Z * Z :=
  let z := days + 719468 in
  let era := z / 146097 in
  let doe := z - era * 146097 in
  let yoe := (doe - doe / 1460 + doe / 36524 - doe / 146096) / 365 in
  let doy := doe - (365 * yoe + yoe / 4 - yoe / 100) in
  let mp := (5 * doy + 2) / 153 in
  let d := doy - (153 * mp + 2) / 5 + 1 in
  let m := if mp <? 10 then mp + 3 else mp - 9 in
  let y := yoe + era * 400 + (if m <=? 2 then 1 else 0) in
  (y, m, d).

Fixpoint zeros (n : nat) : string :=
  match n with
  | O => EmptyString
  | S n' => String "0" (zeros n')
  end.

(** [s.padStart(width, "0")] *)
Definition padStart (width : nat) (s : string) : string :=
  zeros (width - String.length s) +:+ s.

Definition toUTCString (t : Date) : string :=
  let day := t / msPerDay in
  let inDay := t mod msPerDay in
  let '(y, m, d) := civilFromDays day in
  let two z := padStart 2 (toString z) in
  let year := (if y <? 0 then "-" else "") +:+ padStart 4 (toString (Z.abs y)) in
  weekDayName ((day + 4) mod 7) +:+ ", " +:+ two d +:+ " " +:+ monthName m
    +:+ " " +:+ year +:+ " " +:+ two (inDay / 3600000) +:+ ":"
    +:+ two (inDay / 60000 mod 60) +:+ ":" +:+ two (inDay / 1000 mod 60)
    +:+ " GMT".

End JS.

(** ** Regular expressions

    The two patterns of the source use literals, classes, alternation,
    repetition and the anchors [^] and [$]; [RegExp.prototype.test] only
    asks whether some match exists, so a matcher that enumerates the
    positions a pattern can reach decides it.  A position is the rest of the
    subject together with a flag telling whether it is the very start. *)

Module Regex.

Inductive re :=
| Eps
| Chr (p : ascii -> bool)
| Seq (r1 r2 : re)
| Alt (r1 r2 : re)
| Star (r : re)
| Bol
| Eol.

Definition position : Type := bool * string.

(** Iterate [step] from a position; an iteration that consumes nothing is
    dropped, which does not change the set of reachable positions. *)
Fixpoint iterate (step : bool -> string -> list position) (fuel : nat)
    (bol : bool) (s : string) : list position :=
  (bol, s) ::
  match fuel with
  | O => []
  | S fuel' =>
      flat_map
        (fun p : position =>
           if (String.length (snd p) <? String.length s)%nat
           then iterate step fuel' (fst p) (snd p)
           else [])
        (step bol s)
  end.

Fixpoint run (r : re) (bol : bool) (s : string) : list position :=
  match r with
  | Eps => [(bol, s)]
  | Chr p =>
      match s with
      | String c s' => if p c then [(false, s')] else []
      | EmptyString => []
      end
  | Seq r1 r2 => flat_map (fun p : position => run r2 (fst p) (snd p)) (run r1 bol s)
  | Alt r1 r2 => run r1 bol s ++ run r2 bol s
  | Star r1 => iterate (run r1) (String.length s) bol s
  | Bol => if bol then [(bol, s)] else []
  | Eol => match s with EmptyString => [(bol, s)] | _ => [] end
  end.

Definition matchesAt (r : re) (bol : bool) (s : string) : bool :=
  match run r bol s with
  | [] => false
  | _ :: _ => true
  end.

Fixpoint search (r : re) (bol : bool) (s : string) : bool :=
  matchesAt r bol s
  || match s with
     | String _ s' => search r false s'
     | EmptyString => false
     end.

(** [pattern.test(s)] for a pattern without the global or sticky flag. *)
Definition test (r : re) (s : string) : bool := search r true s.

Definition Plus (r : re) : re := Seq r (Star r).

Definition char (c : ascii) : re := Chr (Ascii.eqb c).

(** A literal character under the [i] flag: ASCII letters match in either
    case. *)
Definition char_i (c : ascii) : re :=
  Chr (fun x => Ascii.eqb (JS.toLowerAscii x) (JS.toLowerAscii c)).

Fixpoint lit (s : string) : re :=
  match s with
  | EmptyString => Eps
  | String c s' => Seq (char c) (lit s')
  end.

Fixpoint lit_i (s : string) : re :=
  match s with
  | EmptyString => Eps
  | String c s' => Seq (char_i c) (lit_i s')
  end.

(** [(?:a|b|...)] over a non-empty list of alternatives. *)
Fixpoint anyOf (rs : list re) : re :=
  match rs with
  | [] => Chr (fun _ => false)
  | [r] => r
  | r :: rs' => Alt r (anyOf rs')
  end.

(** What it means for a pattern to lead from one position to another:
    the usual reading of regular expressions, with the two anchors. *)
Inductive matches : re -> position -> position -> Prop :=
| m_eps p : matches Eps p p
| m_chr f b c s : f c = true -> matches (Chr f) (b, String c s) (false, s)
| m_seq r1 r2 p q u :
    matches r1 p q -> matches r2 q u -> matches (Seq r1 r2) p u
| m_alt_l r1 r2 p q : matches r1 p q -> matches (Alt r1 r2) p q
| m_alt_r r1 r2 p q : matches r2 p q -> matches (Alt r1 r2) p q
| m_star_nil r p : matches (Star r) p p
| m_star_step r p q u :
    matches r p q -> matches (Star r) q u -> matches (Star r) p u
| m_bol s : matches Bol (true, s) (true, s)
| m_eol b : matches Eol (b, EmptyString) (b, EmptyString).

End Regex.

(** ** node:path (POSIX flavour) *)

Module NodePath.

Definition isDot (seg : string) : bool := String.eqb seg ".".
Definition isDotDot (seg : string) : bool := String.eqb seg "..".

(** One segment of [normalizeString]; [stack] holds the segments kept so
    far, the most recent first.  Empty and [.] segments vanish; [..]
    removes the previous segment unless there is none or it is itself
    [..], in which case it is kept only when going above the start is
    allowed. *)
Definition step (allowAboveRoot : bool) (stack : list string) (seg : string)
    : list string :=
  if String.eqb seg "" || isDot seg then stack
  else if isDotDot seg then
    match stack with
    | top :: below =>
        if isDotDot top
        then (if allowAboveRoot then seg :: stack else stack)
        else below
    | [] => if allowAboveRoot then [seg] else []
    end
  else seg :: stack.

Definition normalizeString (path : string) (allowAboveRoot : bool) : string :=
  String.concat "/"
    (rev (fold_left (step allowAboveRoot) (JS.split "/" path) [])).

Fixpoint endsWithSlash (s : string) : bool :=
  match s with
  | EmptyString => false
  | String c EmptyString => Ascii.eqb c "/"
  | String _ s' => endsWithSlash s'
  end.

Definition normalize (path : string) : string :=
  match path with
  | EmptyString => "."
  | String c0 _ =>
      let isAbsolute := Ascii.eqb c0 "/" in
      let trailingSeparator := endsWithSlash path in
      let p := normalizeString path (negb isAbsolute) in
      if String.eqb p "" then
        (if isAbsolute then "/" else if trailingSeparator then "./" else ".")
      else
        let p := if trailingSeparator then p +:+ "/" else p in
        if isAbsolute then "/" +:+ p else p
  end.

(** [join(...args)]: the non-empty arguments, joined by a slash, then
    normalised. *)
Definition join (args : list string) : string :=
  match List.filter (fun a => negb (String.eqb a "")) args with
  | [] => "."
  | parts => normalize (String.concat "/" parts)
  end.

End NodePath.

(** ** node:fs *)

Module NodeFs.

Record Stats := {
  isDirectory : bool;
  size : Z;
  birthtime : JS.Date
}.

(** What [lstat] finds at a path; [None] for any failure of the system
    call (no entry, no permission, name too long). *)
Definition FileSystem := string -> option Stats.

Fixpoint hasNul (s : string) : bool :=
  match s with
  | EmptyString => false
  | String c s' => (JS.code c =? 0) || hasNul s'
  end.

(** Both entry points below refuse a path with a NUL character before they
    touch the file system. *)
Definition validatePath (path : string) : result unit :=
  if hasNul path then Throw (OtherError "ERR_INVALID_ARG_VALUE") else Ok tt.

Definition lstatSync (fs : FileSystem) (path : string) : result Stats :=
  _ ← validatePath path;
  match fs path with
  | Some st => Ok st
  | None => Throw (OtherError "lstat")
  end.

Definition MAX_SAFE_INTEGER : Z := 2 ^ 53 - 1.

(** [validateInteger(value, name, 0)] of the stream constructor. *)
Definition validateInteger (value : Z) (name : string) : result unit :=
  if (0 <=? value) && (value <=? MAX_SAFE_INTEGER) then Ok tt
  else Throw (RangeError name).

Record ReadStream := {
  rs_path : string;
  rs_window : option (Z * Z)
}.

(** [createReadStream(path)] and [createReadStream(path, { start, end })].
    The [ReadStream] constructor checks its window before anything is
    opened: [validateInteger(start, 'start', 0)], then
    [validateInteger(end, 'end', 0)], then [start <= end]; a failed check
    throws ERR_OUT_OF_RANGE, a RangeError, synchronously.  The file itself
    is opened later, and a failure to open or read it (a directory, a file
    that has vanished) is an [error] event of the stream. *)
Definition createReadStream (path : string) (window : option (Z * Z))
    : result ReadStream :=
  _ ← validatePath path;
  match window with
  | None => Ok {| rs_path := path; rs_window := None |}
  | Some (start, end_) =>
      _ ← validateInteger start "start";
      _ ← validateInteger end_ "end";
      if end_ <? start then Throw (RangeError "start")
      else Ok {| rs_path := path; rs_window := Some (start, end_) |}
  end.

(** Events a read stream emits to its listeners. *)
Inductive StreamEvent :=
| data (chunk : string)
| error (err : string)
| end_of_stream.

End NodeFs.

(** ** Fetch: Headers, Request, Response *)

Module Fetch.

(** A header list; names are kept in lower case, and a name may occur
    more than once. *)
Definition Headers := list (string * string).

Definition named (name : string) (entry : string * string) : bool :=
  String.eqb (JS.toLowerCase (fst entry)) (JS.toLowerCase name).

(** [headers.get(name)]: the values under that name joined by ", ", or
    [None] for null. *)
Definition get (h : Headers) (name : string) : option string :=
  match List.filter (named name) h with
  | [] => None
  | found => Some (String.concat ", " (map snd found))
  end.

Definition append (h : Headers) (name value : string) : Headers :=
  h ++ [(JS.toLowerCase name, value)].

(** HTTP white space: tab, line feed, carriage return and space. *)
Definition isHttpWhiteSpace (c : ascii) : bool :=
  let n := JS.code c in
  (n =? 9) || (n =? 10) || (n =? 13) || (n =? 32).

Fixpoint stripStart (v : string) : string :=
  match v with
  | String c v' => if isHttpWhiteSpace c then stripStart v' else v
  | EmptyString => EmptyString
  end.

Fixpoint stripEnd (v : string) : string :=
  match v with
  | EmptyString => EmptyString
  | String c v' =>
      let t := stripEnd v' in
      if isHttpWhiteSpace c && String.eqb t "" then EmptyString
      else String c t
  end.

(** What [Headers] makes of a value before it stores it: HTTP white space
    is removed from both ends. *)
Definition normalizeValue (v : string) : string := stripEnd (stripStart v).

(** A value with NUL, line feed or carriage return in it (after the
    stripping) is refused with a TypeError. *)
Fixpoint noForbiddenByte (v : string) : bool :=
  match v with
  | EmptyString => true
  | String c v' =>
      let n := JS.code c in
      negb ((n =? 0) || (n =? 10) || (n =? 13)) && noForbiddenByte v'
  end.

(** The values that [set] and [append] store exactly as they are given.
    Every value the handler computes itself is of this kind: an encoding
    token, a decimal number, a date, a Content-Range line.  A content type
    comes from the MIME lookup, and a statement about its text says so
    when it needs the value to be of this kind. *)
Definition storedAsGiven (v : string) : bool :=
  String.eqb (normalizeValue v) v && noForbiddenByte v.

(** [headers.set(name, value)] for a value that is stored as given:
    overwrite the first entry of that name and drop the others, or add the
    entry. *)
Fixpoint set (h : Headers) (name value : string) : Headers :=
  match h with
  | [] => [(JS.toLowerCase name, value)]
  | entry :: h' =>
      if named name entry
      then (fst entry, value) :: List.filter (fun e => negb (named name e)) h'
      else entry :: set h' name value
  end.

Record Request := {
  method : string;
  (** [new URL(req.url).pathname] *)
  pathname : string;
  req_headers : Headers
}.

Inductive ControllerAction :=
| enqueue (chunk : string)
| fail (err : string)
| close.

(** A [ReadableStream] built over a read stream: what its [start] hook
    does with each event of the source, and whether [cancel] destroys the
    source. *)
Record ReadableStream := {
  source : NodeFs.ReadStream;
  onEvent : NodeFs.StreamEvent -> ControllerAction;
  cancelDestroysSource : bool
}.

Inductive Body :=
| NoBody
| TextBody (text : string)
| StreamBody (stream : ReadableStream).

Record Response := {
  status : Z;
  headers : Headers;
  body : Body
}.

(** [new Response(text, { status })]: a text body brings its own
    Content-Type. *)
Definition textResponse (text : string) (st : Z) : Response :=
  {| status := st;
     headers := [("content-type", "text/plain;charset=UTF-8")]%string;
     body := TextBody text |}.

(** *** Reading from a [ReadableStream]

    A reader calls [read()] while the source emits its events; what it
    gets back depends on the order of the two. *)

Inductive ReadResult :=
| value (chunk : string)
| finished
| rejected (err : string).

(** The controller's side of a stream: the chunks enqueued and not yet
    read, the number of [read()] calls that wait for a chunk, whether
    [close()] was called, and the error stored by [error()]. *)
Record StreamState := {
  queue : list string;
  waiting : nat;
  closeRequested : bool;
  errored : option string
}.

Definition initialState : StreamState :=
  {| queue := []; waiting := 0; closeRequested := false; errored := None |}.

(** One call on the controller, with the reads it settles.  [enqueue]
    hands the chunk to the oldest waiting read, or queues it; [close] lets
    the queue drain and tells the waiting reads that the stream is finished;
    [error] throws the queue away and rejects the waiting reads.  After
    [close()] or [error()], [enqueue] and [close] throw a TypeError inside
    the listener that called them and change nothing, and [error] on a
    stream that is closed or has failed does nothing. *)
Definition control (st : StreamState) (action : ControllerAction)
    : StreamState * list ReadResult :=
  match errored st with
  | Some _ => (st, [])
  | None =>
      match action with
      | enqueue chunk =>
          if closeRequested st then (st, [])
          else
            match waiting st with
            | S n =>
                ({| queue := queue st; waiting := n;
                    closeRequested := false; errored := None |},
                 [value chunk])
            | O =>
                ({| queue := queue st ++ [chunk]; waiting := O;
                    closeRequested := false; errored := None |},
                 [])
            end
      | close =>
          if closeRequested st then (st, [])
          else
            ({| queue := queue st; waiting := O;
                closeRequested := true; errored := None |},
             repeat finished (waiting st))
      | fail err =>
          if closeRequested st
             && match queue st with [] => true | _ :: _ => false end
          then (st, [])
          else
            ({| queue := []; waiting := O;
                closeRequested := closeRequested st; errored := Some err |},
             repeat (rejected err) (waiting st))
      end
  end.

(** One [read()]: a failed stream rejects it, a queued chunk settles it,
    a closed stream answers that it is finished, and otherwise it waits. *)
Definition readFrom (st : StreamState) : StreamState * list ReadResult :=
  match errored st with
  | Some err => (st, [rejected err])
  | None =>
      match queue st with
      | chunk :: rest =>
          ({| queue := rest; waiting := waiting st;
              closeRequested := closeRequested st; errored := None |},
           [value chunk])
      | [] =>
          if closeRequested st then (st, [finished])
          else
            ({| queue := []; waiting := S (waiting st);
                closeRequested := false; errored := None |},
             [])
      end
  end.

(** What happens around a stream: its source emits an event, or the
    reader calls [read()]. *)
Inductive Step :=
| emits (ev : NodeFs.StreamEvent)
| reads.

Fixpoint deliver (stream : ReadableStream) (st : StreamState)
    (steps : list Step) : list ReadResult :=
  match steps with
  | [] => []
  | emits ev :: steps' =>
      let '(st', settled) := control st (onEvent stream ev) in
      settled ++ deliver stream st' steps'
  | reads :: steps' =>
      let '(st', settled) := readFrom st in
      settled ++ deliver stream st' steps'
  end.

(** The results of the reader's [read()] calls, in the order in which
    they are settled. *)
Definition delivered (stream : ReadableStream) (steps : list Step)
    : list ReadResult :=
  deliver stream initialState steps.

End Fetch.

(** ** serveStatic.ts *)

Import NodeFs Fetch.

(** What the handler finds around it: the file system behind [lstatSync],
    the MIME lookup imported from [./mime] (its source is not part of the
    module; [None] is [undefined]), and the value of the identifier [c] in
    the global scope, if any: the module declares no such name, so the
    reference in the handler resolves there. *)
Record Host {Ctx : Type} := {
  files : FileSystem;
  getMimeType : string -> option string;
  global_c : option Ctx
}.

Arguments Host Ctx : clear implicits.

Record ServeStaticOptions {Env Ctx : Type} := {
  root : option string;
  path : option string;
  index : option string;
  (** an absent flag is [false] *)
  precompressed : bool;
  (** a call of the function may throw; [Throw] also stands for a result
      that is not a string, which [join] refuses with a TypeError *)
  rewriteRequestPath : option (string -> Ctx -> result string);
  onNotFound : option (Request -> Env -> result Response)
}.

Arguments ServeStaticOptions Env Ctx : clear implicits.

Definition isSeparator (c : ascii) : bool :=
  Ascii.eqb c "/" || Ascii.eqb c "\".

(** [/(?:^|[\/\\])\.\.(?:$|[\/\\])/], the pattern tested at line 87. *)
Definition TRAVERSAL_REGEX : Regex.re :=
  Regex.Seq (Regex.Alt Regex.Bol (Regex.Chr isSeparator))
    (Regex.Seq (Regex.lit "..")
       (Regex.Alt Regex.Eol (Regex.Chr isSeparator))).

(** The class [[^;\s]]. *)
Definition notSemicolonOrSpace (c : ascii) : bool :=
  negb (Ascii.eqb c ";" || JS.isWhiteSpace c).

(** The class [[;\s]]. *)
Definition semicolonOrSpace (c : ascii) : bool :=
  Ascii.eqb c ";" || JS.isWhiteSpace c.

Definition COMPRESSIBLE_CONTENT_TYPE_REGEX : Regex.re :=
  let words (l : list string) := Regex.anyOf (map Regex.lit_i l) in
  Regex.Seq Regex.Bol
    (Regex.Seq (Regex.Star (Regex.Chr JS.isWhiteSpace))
       (Regex.Seq
          (Regex.anyOf
             [ Regex.Seq (Regex.lit_i "text/") (Regex.Plus (Regex.Chr notSemicolonOrSpace));
               Regex.Seq (Regex.lit_i "application/")
                 (words
                    [ "javascript"; "json"; "xml"; "xml-dtd"; "ecmascript";
                      "dart"; "postscript"; "rtf"; "tar"; "toml"; "vnd.dart";
                      "vnd.ms-fontobject"; "vnd.ms-opentype"; "wasm";
                      "x-httpd-php"; "x-javascript"; "x-ns-proxy-autoconfig";
                      "x-sh"; "x-tar"; "x-virtualbox-hdd"; "x-virtualbox-ova";
                      "x-virtualbox-ovf"; "x-virtualbox-vbox";
                      "x-virtualbox-vdi"; "x-virtualbox-vhd";
                      "x-virtualbox-vmdk"; "x-www-form-urlencoded" ]%string);
               Regex.Seq (Regex.lit_i "font/") (words ["otf"; "ttf"]%string);
               Regex.Seq (Regex.lit_i "image/")
                 (words
                    [ "bmp"; "vnd.adobe.photoshop"; "vnd.microsoft.icon";
                      "vnd.ms-dds"; "x-icon"; "x-ms-bmp" ]%string);
               Regex.lit_i "message/rfc822";
               Regex.lit_i "model/gltf-binary";
               Regex.lit_i "x-shader/x-fragment";
               Regex.lit_i "x-shader/x-vertex";
               Regex.Seq (Regex.Plus (Regex.Chr notSemicolonOrSpace))
                 (Regex.Seq (Regex.lit_i "+")
                    (words ["json"; "text"; "xml"; "yaml"]%string)) ])
          (Regex.Alt (Regex.Chr semicolonOrSpace) Regex.Eol))).

(** Insertion order of the object literal is the order of its keys. *)
Definition ENCODINGS : list (string * string) :=
  [("br", ".br"); ("zstd", ".zst"); ("gzip", ".gz")]%string.

Definition ENCODINGS_ORDERED_KEYS : list string := map fst ENCODINGS.

(** [ENCODINGS[encoding]] *)
Definition ENCODINGS_at (encoding : string) : string :=
  match find (fun e => String.eqb (fst e) encoding) ENCODINGS with
  | Some e => snd e
  | None => ""
  end.

Definition createStreamBody (stream : ReadStream) : ReadableStream :=
  {| source := stream;
     onEvent := fun ev =>
       match ev with
       | data chunk => enqueue chunk
       | error err => fail err
       | end_of_stream => close
       end;
     cancelDestroysSource := true |}.

Definition getStats (fs : FileSystem) (path : string) : option Stats :=
  match lstatSync fs path with
  | Ok stats => Some stats
  | Throw _ => None
  end.

(** The set built from the Accept-Encoding header (lines 123-128); an
    absent header gives the empty set. *)
Definition acceptEncodingSet (req : Request) : gset string :=
  match get (req_headers req) "Accept-Encoding" with
  | Some v => list_to_set (map JS.trim (JS.split "," v))
  | None => ∅
  end.

(** The loop of lines 130-142 over the remaining keys: the first key that
    is accepted and whose sibling exists ends the scan. *)
Fixpoint scanEncodings (fs : FileSystem) (accepted : gset string)
    (keys : list string) (path : string) : option (string * Stats * string) :=
  match keys with
  | [] => None
  | encoding :: keys' =>
      if negb (bool_decide (encoding ∈ accepted))
      then scanEncodings fs accepted keys' path
      else
        match getStats fs (path +:+ ENCODINGS_at encoding) with
        | Some precompressedStats =>
            Some (encoding, precompressedStats, path +:+ ENCODINGS_at encoding)
        | None => scanEncodings fs accepted keys' path
        end
  end.

(** Lines 119-143: the headers, stats and path after the negotiation. *)
Definition negotiate (fs : FileSystem) (enabled : bool) (mimeType : option string)
    (req : Request) (hdrs : Headers) (stats : Stats) (path : string)
    : Headers * Stats * string :=
  if enabled
     && (negb (JS.truthy mimeType)
         || Regex.test COMPRESSIBLE_CONTENT_TYPE_REGEX (default ""%string mimeType))
  then
    match scanEncodings fs (acceptEncodingSet req) ENCODINGS_ORDERED_KEYS path with
    | Some (encoding, precompressedStats, path') =>
        (append (set hdrs "Content-Encoding" encoding) "Vary" "Accept-Encoding",
         precompressedStats, path')
    | None => (hdrs, stats, path)
    end
  else (hdrs, stats, path).

(** Lines 163-165: [start] and [end] as read from a Range value for a file
    of [size] bytes. *)
Definition requestedRange (range : string) (size : Z) : Z * Z :=
  let parts := JS.split_limit "-" 2 (JS.replace "bytes=" "" range) in
  let start := JS.or_number (JS.parseInt_arg (nth_error parts 0)) 0 in
  let end_ := JS.or_number (JS.parseInt_arg (nth_error parts 1)) (size - 1) in
  (start, end_).

(** Lines 166-168: the end is moved to the last byte when the file is
    shorter than the span asked for. *)
Definition clampEnd (size start end_ : Z) : Z :=
  if size <? end_ - start + 1 then size - 1 else end_.

Definition rangeWindow (range : string) (size : Z) : Z * Z :=
  let '(start, end_) := requestedRange range size in
  (start, clampEnd size start end_).

(** Line 147: [req.method == "HEAD" || req.method == "OPTIONS"]. *)
Definition isHeadOrOptions (req : Request) : bool :=
  String.eqb (method req) "HEAD" || String.eqb (method req) "OPTIONS".

(** Lines 145-176: the response for the final target. *)
Definition respond (req : Request) (hdrs : Headers) (stats : Stats) (path : string)
    : result Response :=
  let size := size stats in
  if isHeadOrOptions req then
    Ok {| status := 200;
          headers := set hdrs "Content-Length" (JS.toString size);
          body := NoBody |}
  else
    let range := default ""%string (get (req_headers req) "range") in
    if String.eqb range "" then
      let hdrs := set hdrs "Content-Length" (JS.toString size) in
      stream ← createReadStream path None;
      Ok {| status := 200; headers := hdrs;
            body := StreamBody (createStreamBody stream) |}
    else
      let hdrs := set hdrs "Accept-Ranges" "bytes" in
      let hdrs := set hdrs "Date" (JS.toUTCString (birthtime stats)) in
      let '(start, end_) := rangeWindow range size in
      let chunksize := end_ - start + 1 in
      stream ← createReadStream path (Some (start, end_));
      let hdrs := set hdrs "Content-Length" (JS.toString chunksize) in
      let hdrs :=
        set hdrs "Content-Range"
          ("bytes " +:+ JS.toString start +:+ "-" +:+ JS.toString end_
             +:+ "/" +:+ JS.toString size) in
      Ok {| status := 206; headers := hdrs;
            body := StreamBody (createStreamBody stream) |}.

Section Handler.

Context {Env Ctx : Type}.
Variable host : Host Ctx.
Variable options : ServeStaticOptions Env Ctx.

(** Lines 65-69: [options.onNotFound || (() => new Response(...))]. *)
Definition notFound : Request -> Env -> result Response :=
  match onNotFound options with
  | Some f => f
  | None => fun _ _ => Ok (textResponse "Not Found" 404)
  end.

(** Lines 82-93.  [None] stands for the early [return await onNotFound]. *)
Definition requestFilename (req : Request) : option string :=
  if JS.truthy (path options) then path options
  else
    match JS.decodeURIComponent (pathname req) with
    | Ok filename =>
        if Regex.test TRAVERSAL_REGEX filename then None else Some filename
    | Throw _ => None
    end.

(** The second argument of [join] at lines 97-99.  Reading the
    undeclared [c] is the first thing that can fail there, the call of the
    rewrite function the second. *)
Definition joinedName (filename : string) : result string :=
  if negb (JS.truthy (path options)) then
    match rewriteRequestPath options with
    | Some rewrite =>
        match global_c host with
        | Some c => rewrite filename c
        | None => Throw (ReferenceError "c")
        end
    | None => Ok filename
    end
  else Ok filename.

(** Lines 95-108: the path and stats after the directory step. *)
Definition target (name : string) : string * option Stats :=
  let path := NodePath.join [default ""%string (root options); name] in
  let stats := getStats (files host) path in
  match stats with
  | Some st =>
      if isDirectory st then
        let indexFile := default "index.html"%string (index options) in
        let path := NodePath.join [path; indexFile] in
        (path, getStats (files host) path)
      else (path, stats)
  | None => (path, stats)
  end.

(** Lines 79-177: what the function returned by [serveStatic(options)]
    does once the [console.log(env)] of line 78 has returned. *)
Definition handler (req : Request) (env : Env) : result Response :=
  match requestFilename req with
  | None => notFound req env
  | Some filename =>
      name ← joinedName filename;
      match target name with
      | (_, None) => notFound req env
      | (path, Some stats) =>
          let mimeType := getMimeType host path in
          let hdrs :=
            set [] "Content-Type"
              (if JS.truthy mimeType then default ""%string mimeType
               else "application/octet-stream"%string) in
          let '(hdrs, stats, path) :=
            negotiate (files host) (precompressed options) mimeType req
              hdrs stats path in
          respond req hdrs stats path
      end
  end.

End Handler.

(** [serveStatic(options)] from line 79 on; the start-up warning about a
    missing root (lines 71-75) only writes to the console. *)
Definition serveStatic {Env Ctx : Type} (host : Host Ctx)
    (options : ServeStaticOptions Env Ctx) : Request -> Env -> result Response :=
  handler host options.

(** The whole of lines 77-177, with the [console.log(env)] of line 78 in
    front.  What is written leaves no trace in the result, but formatting
    [env] runs code that [env] brings along (an inspection hook), and that
    code can throw: [inspect env] is its outcome. *)
Definition loggedHandler {Env Ctx : Type} (inspect : Env -> result unit)
    (host : Host Ctx) (options : ServeStaticOptions Env Ctx)
    (req : Request) (env : Env) : result Response :=
  _ ← inspect env;
  serveStatic host options req env.

(** ** Notions used in the statements *)

(** The target the handler ends up serving: [Ok None] when it hands the
    request to the not-found collaborator, [Ok (Some (headers, stats,
    path))] when it goes on to build a response for [path].  This is the
    handler up to line 143, read off as a function. *)
Definition resolve {Env Ctx : Type} (host : Host Ctx)
    (options : ServeStaticOptions Env Ctx) (req : Request)
    : result (option (Headers * Stats * string)) :=
  match requestFilename options req with
  | None => Ok None
  | Some filename =>
      name ← joinedName host options filename;
      match target host options name with
      | (_, None) => Ok None
      | (path, Some stats) =>
          let mimeType := getMimeType host path in
          Ok (Some
                (negotiate (files host) (precompressed options) mimeType req
                   (set [] "Content-Type"
                      (if JS.truthy mimeType then default ""%string mimeType
                       else "application/octet-stream"%string))
                   stats path))
      end
  end.

(** The request resolves to an existing entry of the file system. *)
Definition resolvesTo {Env Ctx : Type} (host : Host Ctx)
    (options : ServeStaticOptions Env Ctx) (req : Request)
    (hdrs : Headers) (stats : Stats) (path : string) : Prop :=
  resolve host options req = Ok (Some (hdrs, stats, path)).

(** A [..] segment bounded by path separators or by the ends of the
    string, in the words of the specification. *)
Definition endsWithSeparator (pre : string) : Prop :=
  exists p c, pre = p +:+ String c EmptyString /\ isSeparator c = true.

Definition startsWithSeparator (post : string) : Prop :=
  exists c r, post = String c r /\ isSeparator c = true.

Definition hasDotDotSegment (s : string) : Prop :=
  exists pre post,
    s = pre +:+ ".." +:+ post
    /\ (pre = EmptyString \/ endsWithSeparator pre)
    /\ (post = EmptyString \/ startsWithSeparator post).

(** What the pattern asks of the text at one position: two dots, then the
    end of the string or a separator. *)
Definition dotDotHere (s : string) : bool :=
  match s with
  | String c1 (String c2 r) =>
      Ascii.eqb "." c1 && Ascii.eqb "." c2
      && match r with
         | EmptyString => true
         | String c3 _ => isSeparator c3
         end
  | _ => false
  end.

(** The request path cannot be decoded, or decodes to a path with a [..]
    segment. *)
Definition traversalOrUndecodable (req : Request) : Prop :=
  (exists e, JS.decodeURIComponent (pathname req) = Throw e)
  \/ (exists decoded,
        JS.decodeURIComponent (pathname req) = Ok decoded
        /\ hasDotDotSegment decoded).

Fixpoint occurs (c : ascii) (s : string) : bool :=
  match s with
  | EmptyString => false
  | String x s' => Ascii.eqb x c || occurs c s'
  end.

(** A non-empty string of decimal digits; its value is [JS.digits 0]. *)
Fixpoint allDigits (s : string) : bool :=
  match s with
  | EmptyString => true
  | String c s' =>
      match JS.digit c with
      | Some _ => allDigits s'
      | None => false
      end
  end.

Definition isNumeral (s : string) : bool :=
  negb (String.eqb s "") && allDigits s.

Definition numeralValue (s : string) : Z := JS.digits 0 s.

Fixpoint allIn (class : ascii -> bool) (s : string) : bool :=
  match s with
  | EmptyString => true
  | String c s' => class c && allIn class s'
  end.

(** The chunks a read stream hands out before it ends or fails. *)
Fixpoint emittedChunks (events : list StreamEvent) : list string :=
  match events with
  | data chunk :: events' => chunk :: emittedChunks events'
  | _ => []
  end.

(** The events of the source among the steps, the number of [read()]
    calls among them, and the chunks among the results of the reads. *)
Fixpoint sourceEvents (steps : list Step) : list StreamEvent :=
  match steps with
  | [] => []
  | emits ev :: steps' => ev :: sourceEvents steps'
  | reads :: steps' => sourceEvents steps'
  end.

Fixpoint readCount (steps : list Step) : nat :=
  match steps with
  | [] => O
  | emits _ :: steps' => readCount steps'
  | reads :: steps' => S (readCount steps')
  end.

Fixpoint values (results : list ReadResult) : list string :=
  match results with
  | [] => []
  | value chunk :: results' => chunk :: values results'
  | _ :: results' => values results'
  end.

(** No read waits while a chunk is queued. *)
Definition settledState (st : StreamState) : Prop :=
  waiting st = O \/ queue st = [].

(** The chunks still to come for a reader: those queued, then those the
    source emits before it ends or fails. *)
Definition ahead (st : StreamState) (events : list StreamEvent) : list string :=
  queue st ++ (if closeRequested st then [] else emittedChunks events).

(** *** A file system with contents

    What is stored at a path: a regular file with its bytes, a directory,
    or a symbolic link with its text (what [readlink] gives) and the path
    it leads to. *)
Inductive Entry :=
| RegularFile (content : string)
| Directory (blockSize : Z)
| SymbolicLink (text : string) (leadsTo : string).

Record Node := {
  entry : Entry;
  born : JS.Date
}.

Definition Disk := string -> option Node.

(** What [lstat] reports for a node.  It does not follow a symbolic link:
    the size is the length of the link's text, and [isDirectory()] is
    false for it whatever it leads to. *)
Definition statsOf (node : Node) : Stats :=
  {| isDirectory :=
       match entry node with Directory _ => true | _ => false end;
     size :=
       match entry node with
       | RegularFile content => Z.of_nat (String.length content)
       | Directory blockSize => blockSize
       | SymbolicLink text _ => Z.of_nat (String.length text)
       end;
     birthtime := born node |}.

Definition lstatOf (disk : Disk) : FileSystem :=
  fun p => option_map statsOf (disk p).

(** The bytes a read stream over the whole of [p] reads.  Opening the
    file follows symbolic links, up to the limit of the system; [None]
    when the open or the read fails. *)
Fixpoint contentOf (hops : nat) (disk : Disk) (p : string) : option string :=
  match disk p with
  | Some node =>
      match entry node with
      | RegularFile content => Some content
      | Directory _ => None
      | SymbolicLink _ leadsTo =>
          match hops with
          | S hops' => contentOf hops' disk leadsTo
          | O => None
          end
      end
  | None => None
  end.

Definition MAXSYMLINKS : nat := 40.

(** The window the read-stream constructor accepts. *)
Definition acceptableWindow (start end_ : Z) : Prop :=
  0 <= start <= end_ /\ end_ <= MAX_SAFE_INTEGER.

(** The first encoding of the table, in table order, that the client
    accepts and whose sibling file exists. *)
Definition firstServable (fs : FileSystem) (accepted : gset string)
    (path : string) (encoding suffix : string) (stats : Stats) : Prop :=
  exists before after,
    ENCODINGS = before ++ (encoding, suffix) :: after
    /\ encoding ∈ accepted
    /\ getStats fs (path +:+ suffix) = Some stats
    /\ Forall
         (fun e => ~ (fst e ∈ accepted /\ getStats fs (path +:+ snd e) <> None))
         before.

(** *** Fixtures for the concrete cases *)

Module Fixture.

Definition file (n : Z) : Stats :=
  {| isDirectory := false; size := n; birthtime := 1000000000000 |}.

Definition directory : Stats :=
  {| isDirectory := true; size := 4096; birthtime := 1000000000000 |}.

(** public/a.txt (500 bytes) with .br and .gz siblings, public/index.html,
    a directory public/site with an index.html, and a directory
    public/docs whose index.html is itself a directory. *)
Definition disk : gmap string Stats :=
  list_to_map
    [("public/a.txt", file 500);
     ("public/a.txt.br", file 120);
     ("public/a.txt.gz", file 150);
     ("public/index.html", file 42);
     ("public/site", directory);
     ("public/site/", directory);
     ("public/site/index.html", file 77);
     ("public/docs", directory);
     ("public/docs/index.html", directory)]%string.

Definition lstat : FileSystem := fun p => disk !! p.

Fixpoint endsWith (suffix s : string) : bool :=
  String.eqb s suffix
  || match s with
     | EmptyString => false
     | String _ s' => endsWith suffix s'
     end.

Definition mime (p : string) : option string :=
  if endsWith ".txt" p then Some "text/plain"%string
  else if endsWith ".html" p then Some "text/html"%string
  else None.

Definition host : Host unit :=
  {| files := lstat; getMimeType := mime; global_c := None |}.

Definition options : ServeStaticOptions unit unit :=
  {| root := Some "public"%string; path := None; index := None;
     precompressed := false; rewriteRequestPath := None;
     onNotFound := None |}.

Definition precompressing : ServeStaticOptions unit unit :=
  {| root := Some "public"%string; path := None; index := None;
     precompressed := true; rewriteRequestPath := None;
     onNotFound := None |}.

Definition fixedPath : ServeStaticOptions unit unit :=
  {| root := Some "public"%string; path := Some "index.html"%string;
     index := None; precompressed := false; rewriteRequestPath := None;
     onNotFound := None |}.

Definition rewriting : ServeStaticOptions unit unit :=
  {| root := Some "public"%string; path := None; index := None;
     precompressed := false;
     rewriteRequestPath := Some (fun p _ => Ok p);
     onNotFound := None |}.

Definition request (m p : string) (h : Headers) : Request :=
  {| method := m; pathname := p; req_headers := h |}.

End Fixture.

(** ** Further notions *)

(** The request with another path. *)
Definition withPathname (req : Request) (p : string) : Request :=
  {| method := method req; pathname := p; req_headers := req_headers req |}.

(** Line 117: [mimeType || "application/octet-stream"] for the path [p]. *)
Definition contentTypeOf {Ctx : Type} (host : Host Ctx) (p : string) : string :=
  if JS.truthy (getMimeType host p) then default ""%string (getMimeType host p)
  else "application/octet-stream"%string.

(** No entry of the table is both accepted and present beside [p]. *)
Definition noneServable (fs : FileSystem) (accepted : gset string)
    (p : string) : Prop :=
  Forall
    (fun e => ~ (fst e ∈ accepted /\ getStats fs (p +:+ snd e) <> None))
    ENCODINGS.

(** The request sent with another method. *)
Definition withMethod (req : Request) (m : string) : Request :=
  {| method := m; pathname := pathname req; req_headers := req_headers req |}.

(** The segments of a path that [normalizeString] keeps when none of them
    is [..]: the empty ones and the single dots go. *)
Definition keptSegments (p : string) : list string :=
  List.filter (fun seg => negb (String.eqb seg "" || NodePath.isDot seg))
    (JS.split "/" p).

(** A directory name that normalisation leaves alone: not empty, without a
    slash, and neither [.] nor [..]. *)
Definition plainSegment (seg : string) : Prop :=
  seg <> EmptyString /\ occurs "/" seg = false
  /\ NodePath.isDot seg = false /\ NodePath.isDotDot seg = false.

(** A file system with one empty file, and a host over it. *)
Definition emptyFileDisk : FileSystem :=
  fun p =>
    if String.eqb p "public/empty.txt" then Some (Fixture.file 0) else None.

Definition emptyFileHost : Host unit :=
  {| files := emptyFileDisk; getMimeType := Fixture.mime; global_c := None |}.

(** [serveStatic()] called without options: [{ root: "" }]. *)
Definition defaultOptions : ServeStaticOptions unit unit :=
  {| root := Some ""%string; path := None; index := None;
     precompressed := false; rewriteRequestPath := None;
     onNotFound := None |}.

(** A file system seen from its root directory, with one file. *)
Definition systemDisk : FileSystem :=
  fun p => if String.eqb p "/etc/passwd" then Some (Fixture.file 1024) else None.

Definition systemHost : Host unit :=
  {| files := systemDisk; getMimeType := Fixture.mime; global_c := None |}.

(** A disk with a regular file of 26 bytes and a symbolic link to it, and
    a host over it. *)
Definition linkedDisk : Disk :=
  fun p =>
    if String.eqb p "public/notes.txt"
    then Some {| entry := RegularFile "twenty-six bytes of notes.";
                 born := 1000000000000 |}
    else if String.eqb p "public/link.txt"
    then Some {| entry := SymbolicLink "notes.txt" "public/notes.txt";
                 born := 1000000000000 |}
    else None.

Definition linkedHost : Host unit :=
  {| files := lstatOf linkedDisk; getMimeType := Fixture.mime;
     global_c := None |}.

(** * Properties *)

#[local] Arguments Ascii.eqb : simpl never.

(** ** Appending strings *)

Lemma append_nil_l (s : string) : EmptyString +:+ s = s.
Proof. reflexivity. Qed.

Lemma append_cons (c : ascii) (a b : string) :
  String c a +:+ b = String c (a +:+ b).
Proof. reflexivity. Qed.

Lemma append_assoc (a b c : string) : (a +:+ b) +:+ c = a +:+ b +:+ c.
Proof.
  induction a as [|x a IH]; [reflexivity|].
  now rewrite !append_cons, IH.
Qed.

(** ** Headers *)

Lemma toLowerAscii_idem c : JS.toLowerAscii (JS.toLowerAscii c) = JS.toLowerAscii c.
Proof.
  destruct c as [[] [] [] [] [] [] [] []]; reflexivity.
Qed.

Lemma toLowerCase_idem s : JS.toLowerCase (JS.toLowerCase s) = JS.toLowerCase s.
Proof.
  induction s as [|c s IH]; simpl; [reflexivity|].
  now rewrite toLowerAscii_idem, IH.
Qed.

Lemma named_self name value : named name (JS.toLowerCase name, value) = true.
Proof.
  unfold named; simpl. rewrite toLowerCase_idem. apply String.eqb_refl.
Qed.

Lemma named_other name other value :
  JS.toLowerCase name <> JS.toLowerCase other ->
  named other (JS.toLowerCase name, value) = false.
Proof.
  intros Hne. unfold named; simpl. rewrite toLowerCase_idem.
  now apply String.eqb_neq.
Qed.

Lemma filter_named_absent name (h : Headers) :
  List.filter (named name) (List.filter (fun e => negb (named name e)) h) = [].
Proof.
  induction h as [|e h IH]; simpl; [reflexivity|].
  destruct (named name e) eqn:E; simpl; [exact IH|].
  now rewrite E.
Qed.

Lemma filter_named_other name other (h : Headers) :
  JS.toLowerCase name <> JS.toLowerCase other ->
  List.filter (named other) (List.filter (fun e => negb (named name e)) h)
  = List.filter (named other) h.
Proof.
  intros Hne. induction h as [|e h IH]; simpl; [reflexivity|].
  destruct (named name e) eqn:E; simpl.
  - assert (named other e = false) as ->; [|exact IH].
    unfold named in *. apply String.eqb_eq in E. apply String.eqb_neq.
    congruence.
  - destruct (named other e); [f_equal|]; exact IH.
Qed.

Lemma get_set_same (h : Headers) name value : get (set h name value) name = Some value.
Proof.
  unfold get. induction h as [|e h IH]; simpl.
  - now rewrite named_self.
  - destruct (named name e) eqn:E; simpl.
    + assert (named name (fst e, value) = true) as -> by exact E.
      now rewrite filter_named_absent.
    + now rewrite E.
Qed.

Lemma get_set_other (h : Headers) name other value :
  JS.toLowerCase name <> JS.toLowerCase other ->
  get (set h name value) other = get h other.
Proof.
  intros Hne. unfold get.
  assert (List.filter (named other) (set h name value) = List.filter (named other) h) as ->;
    [|reflexivity].
  induction h as [|e h IH]; simpl.
  - now rewrite named_other.
  - destruct (named name e) eqn:E; simpl.
    + assert (Ho : named other e = false).
      { unfold named in *. apply String.eqb_eq in E. apply String.eqb_neq.
        congruence. }
      assert (named other (fst e, value) = false) as -> by exact Ho.
      rewrite Ho. now apply filter_named_other.
    + destruct (named other e); [f_equal|]; exact IH.
Qed.

Lemma get_append_other (h : Headers) name other value :
  JS.toLowerCase name <> JS.toLowerCase other ->
  get (append h name value) other = get h other.
Proof.
  intros Hne. unfold get, append. rewrite List.filter_app. simpl.
  rewrite named_other by assumption. now rewrite app_nil_r.
Qed.

Lemma get_append_fresh (h : Headers) name value :
  get h name = None -> get (append h name value) name = Some value.
Proof.
  unfold get, append. intros Hnone. rewrite List.filter_app. simpl.
  rewrite named_self.
  destruct (List.filter (named name) h); [reflexivity|discriminate].
Qed.

(** ** The matcher against the meaning of patterns *)

Lemma iterate_sound r step :
  (forall b s q, In q (step b s) -> Regex.matches r (b, s) q) ->
  forall fuel b s q,
    In q (Regex.iterate step fuel b s) -> Regex.matches (Regex.Star r) (b, s) q.
Proof.
  intros Hstep fuel. induction fuel as [|fuel IH]; intros b s q; cbn [Regex.iterate].
  - intros [<-|[]]. constructor.
  - intros [<-|Hin]; [constructor|].
    apply in_flat_map in Hin as ([b' s'] & Hq & Hin).
    cbn [fst snd] in Hin.
    destruct (String.length s' <? String.length s)%nat; [|destruct Hin].
    eapply Regex.m_star_step; [apply Hstep; exact Hq|].
    now apply IH.
Qed.

Lemma run_sound r : forall b s q,
  In q (Regex.run r b s) -> Regex.matches r (b, s) q.
Proof.
  induction r as [|f|r1 IH1 r2 IH2|r1 IH1 r2 IH2|r IH| |]; intros b s q;
    cbn [Regex.run].
  - intros [<-|[]]. constructor.
  - destruct s as [|c s]; [intros []|].
    destruct (f c) eqn:E; [|intros []].
    intros [<-|[]]. now constructor.
  - intros Hin. apply in_flat_map in Hin as ([b' s'] & H1 & H2).
    eapply Regex.m_seq; [apply IH1; exact H1|apply IH2; exact H2].
  - intros Hin. apply in_app_iff in Hin as [H|H].
    + apply Regex.m_alt_l. now apply IH1.
    + apply Regex.m_alt_r. now apply IH2.
  - apply iterate_sound. exact IH.
  - destruct b; [|intros []]. intros [<-|[]]. constructor.
  - destruct s; [|intros []]. intros [<-|[]]. constructor.
Qed.

Lemma matches_shorter r p q :
  Regex.matches r p q -> (String.length (snd q) <= String.length (snd p))%nat.
Proof.
  induction 1; cbn [snd String.length] in *; lia.
Qed.

(** A match that consumes nothing leaves the position as it was. *)
Lemma matches_nothing r p q :
  Regex.matches r p q ->
  String.length (snd q) = String.length (snd p) -> q = p.
Proof.
  induction 1 as [p|f b c s Hf|r1 r2 p q u H1 IH1 H2 IH2|r1 r2 p q H IH
                 |r1 r2 p q H IH|r p|r p q u H1 IH1 H2 IH2|s|b];
    intros Hlen; try reflexivity; auto.
  - cbn [snd String.length] in Hlen. lia.
  - pose proof (matches_shorter _ _ _ H1). pose proof (matches_shorter _ _ _ H2).
    rewrite IH2 by lia. apply IH1. lia.
  - pose proof (matches_shorter _ _ _ H1). pose proof (matches_shorter _ _ _ H2).
    rewrite IH2 by lia. apply IH1. lia.
Qed.

Lemma iterate_more_fuel step : forall n m b s q,
  (n <= m)%nat ->
  In q (Regex.iterate step n b s) -> In q (Regex.iterate step m b s).
Proof.
  induction n as [|n IH]; intros m b s q Hle; cbn [Regex.iterate].
  - intros [<-|[]]. destruct m; left; reflexivity.
  - destruct m as [|m]; [lia|]. cbn [Regex.iterate].
    intros [<-|Hin]; [now left|right].
    apply in_flat_map in Hin as ([b' s'] & Hq & Hin).
    apply in_flat_map. exists (b', s'). split; [exact Hq|].
    cbn [fst snd] in *.
    destruct (String.length s' <? String.length s)%nat; [|destruct Hin].
    apply (IH m); [lia|exact Hin].
Qed.

Lemma run_complete r p q :
  Regex.matches r p q -> In q (Regex.run r (fst p) (snd p)).
Proof.
  induction 1 as [p|f b c s Hf|r1 r2 p q u H1 IH1 H2 IH2|r1 r2 p q H IH
                 |r1 r2 p q H IH|r p|r p q u H1 IH1 H2 IH2|s|b];
    cbn [Regex.run fst snd].
  - destruct p. now left.
  - rewrite Hf. now left.
  - apply in_flat_map. exists q. split; [exact IH1|exact IH2].
  - apply in_app_iff. now left.
  - apply in_app_iff. now right.
  - destruct p as [b s]. cbn [fst snd]. destruct (String.length s); now left.
  - destruct p as [b s], q as [b' s']. cbn [fst snd] in *.
    pose proof (matches_shorter _ _ _ H1) as Hle. cbn [snd] in Hle.
    destruct (Nat.eq_dec (String.length s') (String.length s)) as [Heq|Hne].
    + assert (Hsame : (b', s') = (b, s))
        by (apply (matches_nothing _ _ _ H1); exact Heq).
      injection Hsame as -> ->. exact IH2.
    + destruct (String.length s) as [|n] eqn:Hn; [lia|].
      cbn [Regex.iterate]. right. apply in_flat_map.
      exists (b', s'). split; [exact IH1|]. cbn [fst snd]. rewrite Hn.
      assert ((String.length s' <? S n)%nat = true) as ->
        by (apply Nat.ltb_lt; lia).
      apply (iterate_more_fuel _ (String.length s')); [lia|exact IH2].
  - now left.
  - now left.
Qed.

(** The matcher enumerates exactly the positions the pattern leads to. *)
Lemma run_spec r b s q :
  In q (Regex.run r b s) <-> Regex.matches r (b, s) q.
Proof.
  split; [apply run_sound|apply (run_complete r (b, s) q)].
Qed.

Lemma matchesAt_spec r b s :
  Regex.matchesAt r b s = true <-> exists q, Regex.matches r (b, s) q.
Proof.
  unfold Regex.matchesAt. split.
  - destruct (Regex.run r b s) as [|q l] eqn:E; [discriminate|].
    intros _. exists q. apply run_spec. rewrite E. now left.
  - intros (q & Hq). apply run_spec in Hq.
    destruct (Regex.run r b s); [destruct Hq|reflexivity].
Qed.

(** [test] succeeds exactly when the pattern matches at some position of
    the subject; only the first position counts as the start for [^]. *)
Lemma search_spec r s : forall b,
  Regex.search r b s = true
  <-> exists pre post q,
        s = pre +:+ post /\ Regex.matches r (b && String.eqb pre "", post) q.
Proof.
  induction s as [|c s IH]; intros b; cbn [Regex.search].
  - rewrite orb_false_r, matchesAt_spec. split.
    + intros (q & Hq). exists EmptyString, EmptyString, q.
      split; [reflexivity|]. now rewrite andb_true_r.
    + intros (pre & post & q & Heq & Hq).
      destruct pre; [|discriminate]. destruct post; [|discriminate].
      rewrite andb_true_r in Hq. now exists q.
  - rewrite orb_true_iff, matchesAt_spec, IH. split.
    + intros [(q & Hq)|(pre & post & q & -> & Hq)].
      * exists EmptyString, (String c s), q. split; [reflexivity|].
        now rewrite andb_true_r.
      * exists (String c pre), post, q. split; [reflexivity|].
        now rewrite andb_false_r.
    + intros (pre & post & q & Heq & Hq). destruct pre as [|x pre].
      * left. rewrite append_nil_l in Heq. subst post.
        rewrite andb_true_r in Hq. now exists q.
      * right. rewrite append_cons in Heq. injection Heq as -> ->.
        exists pre, post, q. split; [reflexivity|].
        now rewrite andb_false_r in Hq.
Qed.

Lemma test_spec r s :
  Regex.test r s = true
  <-> exists pre post q,
        s = pre +:+ post /\ Regex.matches r (String.eqb pre "", post) q.
Proof.
  unfold Regex.test. apply search_spec.
Qed.

Lemma lit_i_matches w : forall b rest,
  Regex.matches (Regex.lit_i w) (b, w +:+ rest)
    (b && String.eqb w "", rest).
Proof.
  induction w as [|c w IH]; intros b rest; cbn [Regex.lit_i].
  - rewrite append_nil_l, andb_true_r. constructor.
  - rewrite append_cons, andb_false_r.
    eapply Regex.m_seq.
    + constructor. apply Ascii.eqb_refl.
    + specialize (IH false rest). exact IH.
Qed.

Lemma star_class_matches class s : forall b rest,
  allIn class s = true ->
  Regex.matches (Regex.Star (Regex.Chr class)) (b, s +:+ rest)
    (b && String.eqb s "", rest).
Proof.
  induction s as [|c s IH]; intros b rest; cbn [allIn].
  - intros _. rewrite append_nil_l, andb_true_r. constructor.
  - intros H. apply andb_true_iff in H as [Hc Hs].
    rewrite append_cons, andb_false_r.
    eapply Regex.m_star_step; [now constructor|].
    exact (IH false rest Hs).
Qed.

(** Every [text/...] type is compressible for the pattern of line 19. *)
Lemma text_types_are_compressible subtype :
  subtype <> EmptyString ->
  allIn notSemicolonOrSpace subtype = true ->
  Regex.test COMPRESSIBLE_CONTENT_TYPE_REGEX ("text/" +:+ subtype) = true.
Proof.
  intros Hne Hclass. apply test_spec.
  exists EmptyString, ("text/" +:+ subtype), (false, EmptyString).
  split; [reflexivity|]. cbn [String.eqb].
  unfold COMPRESSIBLE_CONTENT_TYPE_REGEX.
  eapply Regex.m_seq; [apply Regex.m_bol|].
  eapply Regex.m_seq; [apply Regex.m_star_nil|].
  eapply Regex.m_seq; [|apply Regex.m_alt_r; apply Regex.m_eol].
  cbn [Regex.anyOf]. apply Regex.m_alt_l.
  eapply Regex.m_seq.
  - exact (lit_i_matches "text/" true subtype).
  - destruct subtype as [|c sub]; [contradiction|].
    cbn [allIn] in Hclass. apply andb_true_iff in Hclass as [Hc Hsub].
    unfold Regex.Plus. eapply Regex.m_seq; [now constructor|].
    pose proof (star_class_matches notSemicolonOrSpace sub false EmptyString Hsub)
      as Hstar.
    assert (Happ : sub +:+ EmptyString = sub).
    { clear. induction sub as [|x sub IH]; [reflexivity|].
      now rewrite append_cons, IH. }
    rewrite Happ in Hstar. exact Hstar.
Qed.

(** ** The handler seen through [resolve] *)

Lemma handler_resolve {Env Ctx : Type} (host : Host Ctx)
    (options : ServeStaticOptions Env Ctx) req env :
  serveStatic host options req env =
  match resolve host options req with
  | Ok None => notFound options req env
  | Ok (Some (hdrs, stats, path)) => respond req hdrs stats path
  | Throw e => Throw e
  end.
Proof.
  unfold serveStatic, handler, resolve.
  destruct (requestFilename options req) as [filename|]; [|reflexivity].
  destruct (joinedName host options filename) as [name|e]; simpl; [|reflexivity].
  destruct (target host options name) as [path [stats|]]; [|reflexivity].
  destruct (negotiate _ _ _ _ _ _ _) as [[hdrs stats'] path'].
  reflexivity.
Qed.

Lemma handler_resolved {Env Ctx : Type} (host : Host Ctx)
    (options : ServeStaticOptions Env Ctx) req env hdrs stats path :
  resolvesTo host options req hdrs stats path ->
  serveStatic host options req env = respond req hdrs stats path.
Proof.
  unfold resolvesTo. intros H. now rewrite handler_resolve, H.
Qed.

Lemma getStats_valid fs p st : getStats fs p = Some st -> hasNul p = false.
Proof.
  unfold getStats, lstatSync, validatePath.
  destruct (hasNul p); simpl; [discriminate|reflexivity].
Qed.

Lemma scanEncodings_stats fs accepted keys p enc st p' :
  scanEncodings fs accepted keys p = Some (enc, st, p') ->
  getStats fs p' = Some st.
Proof.
  induction keys as [|k keys IH]; simpl; [discriminate|].
  destruct (negb (bool_decide (k ∈ accepted))); [exact IH|].
  destruct (getStats fs (p +:+ ENCODINGS_at k)) eqn:E; [|exact IH].
  intros [= <- <- <-]. exact E.
Qed.

Lemma target_stats {Env Ctx : Type} (host : Host Ctx)
    (options : ServeStaticOptions Env Ctx) name p st :
  target host options name = (p, Some st) -> getStats (files host) p = Some st.
Proof.
  unfold target.
  destruct (getStats (files host) (NodePath.join _)) as [st0|] eqn:E0; [|discriminate].
  destruct (isDirectory st0).
  - intros [= <- H]. exact H.
  - intros [= <- <-]. exact E0.
Qed.

Lemma negotiate_stats fs enabled mimeType req hdrs st p hdrs' st' p' :
  getStats fs p = Some st ->
  negotiate fs enabled mimeType req hdrs st p = (hdrs', st', p') ->
  getStats fs p' = Some st'.
Proof.
  intros Hst. unfold negotiate.
  destruct (enabled && _); [|intros [= _ <- <-]; exact Hst].
  destruct (scanEncodings _ _ _ _) as [[[enc st1] p1]|] eqn:E.
  - intros [= _ <- <-]. eapply scanEncodings_stats; eassumption.
  - intros [= _ <- <-]. exact Hst.
Qed.

Lemma resolvesTo_stats {Env Ctx : Type} (host : Host Ctx)
    (options : ServeStaticOptions Env Ctx) req hdrs stats p :
  resolvesTo host options req hdrs stats p ->
  getStats (files host) p = Some stats.
Proof.
  unfold resolvesTo, resolve.
  destruct (requestFilename options req) as [filename|]; [|discriminate].
  destruct (joinedName host options filename) as [name|e]; simpl; [|discriminate].
  destruct (target host options name) as [p0 [st0|]] eqn:T; [|discriminate].
  intros [= H]. eapply negotiate_stats; [|exact H].
  eapply target_stats; exact T.
Qed.

Lemma target_resolves {Env Ctx : Type} (host : Host Ctx)
    (options : ServeStaticOptions Env Ctx) req filename name p st :
  requestFilename options req = Some filename ->
  joinedName host options filename = Ok name ->
  target host options name = (p, Some st) ->
  exists hdrs stats path, resolvesTo host options req hdrs stats path.
Proof.
  intros Hname Hjoined Htarget. unfold resolvesTo, resolve.
  rewrite Hname, Hjoined. cbn [mbind result_bind]. rewrite Htarget.
  destruct (negotiate _ _ _ _ _ _ _) as [[hdrs stats] path].
  now exists hdrs, stats, path.
Qed.

Lemma createReadStream_whole p :
  hasNul p = false ->
  createReadStream p None = Ok {| rs_path := p; rs_window := None |}.
Proof.
  intros H. unfold createReadStream, validatePath. now rewrite H.
Qed.

Lemma createReadStream_window p start end_ :
  hasNul p = false ->
  acceptableWindow start end_ ->
  createReadStream p (Some (start, end_))
  = Ok {| rs_path := p; rs_window := Some (start, end_) |}.
Proof.
  intros H [[H0 H1] H2].
  unfold createReadStream, validatePath, validateInteger. rewrite H. simpl.
  assert (((0 <=? start) && (start <=? MAX_SAFE_INTEGER)) = true) as ->.
  { apply andb_true_intro; split; apply Z.leb_le; lia. }
  simpl.
  assert (((0 <=? end_) && (end_ <=? MAX_SAFE_INTEGER)) = true) as ->.
  { apply andb_true_intro; split; apply Z.leb_le; lia. }
  simpl.
  assert ((end_ <? start) = false) as -> by (apply Z.ltb_ge; lia).
  reflexivity.
Qed.

(** ** The traversal check *)

Section TraversalShape.

Variables sep dot : ascii -> bool.

Let shape : Regex.re :=
  Regex.Seq (Regex.Alt Regex.Bol (Regex.Chr sep))
    (Regex.Seq (Regex.Seq (Regex.Chr dot) (Regex.Seq (Regex.Chr dot) Regex.Eps))
       (Regex.Alt Regex.Eol (Regex.Chr sep))).

Let here (s : string) : bool :=
  match s with
  | String c1 (String c2 r) =>
      dot c1 && dot c2
      && match r with
         | EmptyString => true
         | String c3 _ => sep c3
         end
  | _ => false
  end.

Lemma matchesAt_shape bol s :
  Regex.matchesAt shape bol s
  = (bol && here s)
    || match s with
       | String c s' => sep c && here s'
       | EmptyString => false
       end.
Proof.
  unfold Regex.matchesAt, shape, here.
  destruct s as [|c1 [|c2 [|c3 [|c4 r]]]].
  - destruct bol; reflexivity.
  - destruct bol, (sep c1) eqn:S1, (dot c1) eqn:D1;
      repeat (progress (simpl; rewrite ?S1, ?D1)); reflexivity.
  - destruct bol, (sep c1) eqn:S1, (dot c1) eqn:D1,
      (sep c2) eqn:S2, (dot c2) eqn:D2;
      repeat (progress (simpl; rewrite ?S1, ?D1, ?S2, ?D2)); reflexivity.
  - destruct bol, (sep c1) eqn:S1, (dot c1) eqn:D1,
      (sep c2) eqn:S2, (dot c2) eqn:D2, (sep c3) eqn:S3, (dot c3) eqn:D3;
      repeat (progress (simpl; rewrite ?S1, ?D1, ?S2, ?D2, ?S3, ?D3));
      reflexivity.
  - destruct bol, (sep c1) eqn:S1, (dot c1) eqn:D1,
      (sep c2) eqn:S2, (dot c2) eqn:D2, (sep c3) eqn:S3, (dot c3) eqn:D3,
      (sep c4) eqn:S4, (dot c4) eqn:D4;
      repeat (progress (simpl; rewrite ?S1, ?D1, ?S2, ?D2, ?S3, ?D3, ?S4, ?D4));
      reflexivity.
Qed.

End TraversalShape.

Lemma matchesAt_traversal bol s :
  Regex.matchesAt TRAVERSAL_REGEX bol s
  = (bol && dotDotHere s)
    || match s with
       | String c s' => isSeparator c && dotDotHere s'
       | EmptyString => false
       end.
Proof.
  exact (matchesAt_shape isSeparator (Ascii.eqb ".") bol s).
Qed.

Lemma dotDotHere_spec s :
  dotDotHere s = true
  <-> exists post,
        s = ".." +:+ post /\ (post = EmptyString \/ startsWithSeparator post).
Proof.
  split.
  - destruct s as [|c1 [|c2 r]]; simpl; try discriminate.
    intros H. apply andb_true_iff in H as [H Hr].
    apply andb_true_iff in H as [H1 H2].
    apply Ascii.eqb_eq in H1, H2. subst c1 c2.
    exists r. split; [reflexivity|].
    destruct r as [|c3 r]; [now left|right]. now exists c3, r.
  - intros (post & -> & Hpost). simpl.
    destruct Hpost as [->|(c & r & -> & Hc)]; [reflexivity|exact Hc].
Qed.

Lemma search_unfold r bol s :
  Regex.search r bol s
  = Regex.matchesAt r bol s
    || match s with
       | String _ s' => Regex.search r false s'
       | EmptyString => false
       end.
Proof.
  destruct s; reflexivity.
Qed.

Lemma search_here s :
  dotDotHere s = true -> Regex.search TRAVERSAL_REGEX true s = true.
Proof.
  intros H. rewrite search_unfold, matchesAt_traversal, H. reflexivity.
Qed.

Lemma search_after_separator c s :
  isSeparator c = true -> dotDotHere s = true ->
  forall p bol, Regex.search TRAVERSAL_REGEX bol (p +:+ String c s) = true.
Proof.
  intros Hc Hs p. induction p as [|x p IH]; intros bol; rewrite search_unfold.
  - rewrite matchesAt_traversal, append_nil_l, Hc, Hs.
    cbn [andb]. now rewrite orb_true_r.
  - rewrite append_cons, IH. apply orb_true_r.
Qed.

Lemma search_traversal s : forall bol,
  Regex.search TRAVERSAL_REGEX bol s = true ->
  exists pre post,
    s = pre +:+ ".." +:+ post
    /\ ((pre = EmptyString /\ bol = true) \/ endsWithSeparator pre)
    /\ (post = EmptyString \/ startsWithSeparator post).
Proof.
  induction s as [|c s IH]; intros bol; rewrite search_unfold.
  - rewrite matchesAt_traversal. cbn [dotDotHere]. rewrite andb_false_r.
    discriminate.
  - rewrite matchesAt_traversal. intros H.
    apply orb_true_iff in H as [H|H]; [apply orb_true_iff in H as [H|H]|].
    + apply andb_true_iff in H as [-> H].
      apply dotDotHere_spec in H as (post & Heq & Hpost).
      exists EmptyString, post. simpl. repeat split; auto.
    + apply andb_true_iff in H as [Hc H].
      apply dotDotHere_spec in H as (post & -> & Hpost).
      exists (String c EmptyString), post. simpl. repeat split; auto.
      right. now exists EmptyString, c.
    + apply IH in H as (pre & post & -> & Hpre & Hpost).
      exists (String c pre), post. simpl. repeat split; auto.
      right. destruct Hpre as [[_ Hf]|(p & x & -> & Hx)]; [discriminate|].
      now exists (String c p), x.
Qed.

(** The pattern of line 87 accepts exactly the strings with a [..]
    segment. *)
Lemma traversal_test_spec s :
  Regex.test TRAVERSAL_REGEX s = true <-> hasDotDotSegment s.
Proof.
  unfold Regex.test, hasDotDotSegment. split.
  - intros H. apply search_traversal in H as (pre & post & Heq & Hpre & Hpost).
    exists pre, post. repeat split; auto.
    destruct Hpre as [[-> _]|H]; auto.
  - intros (pre & post & -> & Hpre & Hpost).
    assert (Hhere : dotDotHere (".." +:+ post) = true)
      by (apply dotDotHere_spec; now exists post).
    destruct Hpre as [->|(p & c & -> & Hc)].
    + now apply search_here.
    + rewrite append_assoc. simpl. now apply search_after_separator.
Qed.

(** C1, as the specification words it, fails when a fixed serve path is
    configured: the request path decodes to [/../secret], and the handler
    answers with public/index.html instead of calling the not-found
    collaborator.  The same holds for a path that cannot be decoded. *)
Lemma fixed_path_skips_the_check :
  traversalOrUndecodable (Fixture.request "GET" "/..%2Fsecret" [])
  /\ serveStatic Fixture.host Fixture.fixedPath
       (Fixture.request "GET" "/..%2Fsecret" []) tt
     = Ok {| status := 200;
             headers := [("content-type", "text/html");
                         ("content-length", "42")]%string;
             body := StreamBody
                       (createStreamBody
                          {| rs_path := "public/index.html";
                             rs_window := None |}) |}
  /\ serveStatic Fixture.host Fixture.fixedPath
       (Fixture.request "GET" "/..%2Fsecret" []) tt
     <> notFound Fixture.fixedPath (Fixture.request "GET" "/..%2Fsecret" []) tt
  /\ traversalOrUndecodable (Fixture.request "GET" "/%E0%A4%A" [])
  /\ serveStatic Fixture.host Fixture.fixedPath
       (Fixture.request "GET" "/%E0%A4%A" []) tt
     <> notFound Fixture.fixedPath (Fixture.request "GET" "/%E0%A4%A" []) tt.
Proof.
  split; [|split; [|split; [|split]]].
  - right. exists "/../secret"%string. split; [reflexivity|].
    exists "/"%string, "/secret"%string. split; [reflexivity|]. split; right.
    + exists ""%string, "/"%char. now split.
    + exists "/"%char, "secret"%string. now split.
  - reflexivity.
  - discriminate.
  - left. exists URIError. reflexivity.
  - discriminate.
Qed.

(** C1, amended.  When no fixed serve path is configured, a request whose
    path fails to decode, or decodes to a path with a [..] segment bounded
    by separators or the ends of the string, is handed to the not-found
    collaborator: the result is the collaborator's, on every file system,
    and no target is resolved, so no file is read. *)
Theorem traversal_is_not_found {Env Ctx : Type} (host : Host Ctx)
    (options : ServeStaticOptions Env Ctx) req env :
  JS.truthy (path options) = false ->
  traversalOrUndecodable req ->
  serveStatic host options req env = notFound options req env
  /\ resolve host options req = Ok None.
Proof.
  intros Hpath Hreq.
  assert (Hname : requestFilename options req = None).
  { unfold requestFilename. rewrite Hpath.
    destruct Hreq as [(e & ->)|(decoded & -> & Hdots)]; [reflexivity|].
    apply traversal_test_spec in Hdots. now rewrite Hdots. }
  split.
  - unfold serveStatic, handler. now rewrite Hname.
  - unfold resolve. now rewrite Hname.
Qed.

Lemma traversal_is_not_found_witness :
  serveStatic Fixture.host Fixture.options
    (Fixture.request "GET" "/..%2Fsecret" []) tt
  = notFound Fixture.options (Fixture.request "GET" "/..%2Fsecret" []) tt
  /\ resolve Fixture.host Fixture.options
       (Fixture.request "GET" "/..%2Fsecret" []) = Ok None.
Proof.
  apply (traversal_is_not_found Fixture.host Fixture.options
           (Fixture.request "GET" "/..%2Fsecret" []) tt).
  - reflexivity.
  - right. exists "/../secret"%string. split; [reflexivity|].
    exists "/"%string, "/secret"%string. split; [reflexivity|]. split; right.
    + exists ""%string, "/"%char. split; reflexivity.
    + exists "/"%char, "secret"%string. split; reflexivity.
Defined.

(** ** Failures that reach the caller *)

(** C2 does not hold of the code.  With a rewrite function configured and
    no fixed serve path, every request that passes the traversal check makes
    the handler evaluate the identifier [c], which nothing declares; on a
    host without a global of that name the handler throws a ReferenceError
    to its caller instead of resolving to a response. *)
Theorem rewrite_reads_undeclared_c {Env Ctx : Type} (host : Host Ctx)
    (options : ServeStaticOptions Env Ctx) req env rewrite filename :
  global_c host = None ->
  JS.truthy (path options) = false ->
  rewriteRequestPath options = Some rewrite ->
  requestFilename options req = Some filename ->
  serveStatic host options req env = Throw (ReferenceError "c").
Proof.
  intros Hc Hpath Hrewrite Hname.
  unfold serveStatic, handler, joinedName.
  now rewrite Hname, Hpath, Hrewrite, Hc.
Qed.

Lemma rewrite_reads_undeclared_c_witness :
  serveStatic Fixture.host Fixture.rewriting
    (Fixture.request "GET" "/a.txt" []) tt
  = Throw (ReferenceError "c").
Proof.
  apply (rewrite_reads_undeclared_c Fixture.host Fixture.rewriting
           (Fixture.request "GET" "/a.txt" []) tt (fun p _ => Ok p)
           "/a.txt"%string);
    reflexivity.
Defined.

(** Every way in which the handler can throw once line 78 is behind it:
    the undeclared [c], a not-found collaborator that throws itself, a
    Range window that the read-stream constructor refuses, or a rewrite
    function that throws. *)
Lemma throw_sources {Env Ctx : Type} (host : Host Ctx)
    (options : ServeStaticOptions Env Ctx) req env e :
  serveStatic host options req env = Throw e ->
  (e = ReferenceError "c"
   /\ global_c host = None
   /\ rewriteRequestPath options <> None
   /\ JS.truthy (path options) = false)
  \/ notFound options req env = Throw e
  \/ (isHeadOrOptions req = false
      /\ (exists range,
            get (req_headers req) "range" = Some range
            /\ range <> EmptyString)
      /\ exists argument, e = RangeError argument)
  \/ (exists rewrite c filename,
        rewriteRequestPath options = Some rewrite
        /\ global_c host = Some c
        /\ JS.truthy (path options) = false
        /\ requestFilename options req = Some filename
        /\ rewrite filename c = Throw e).
Proof.
  rewrite handler_resolve.
  destruct (resolve host options req) as [[[[hdrs stats] p]|]|e'] eqn:Hres.
  - intros Hthrow. right. right. left.
    assert (Hp : hasNul p = false)
      by (eapply getStats_valid, resolvesTo_stats; exact Hres).
    unfold respond in Hthrow.
    destruct (isHeadOrOptions req); [discriminate|].
    split; [reflexivity|].
    destruct (get (req_headers req) "range") as [range|];
      cbn [default from_option id] in Hthrow.
    + destruct (String.eqb range "") eqn:Hempty.
      * rewrite (createReadStream_whole _ Hp) in Hthrow. discriminate.
      * split; [exists range; split; [reflexivity|now apply String.eqb_neq]|].
        destruct (rangeWindow range (size stats)) as [start end_].
        unfold createReadStream, validatePath, validateInteger in Hthrow.
        rewrite Hp in Hthrow. cbn [mbind result_bind] in Hthrow.
        destruct ((0 <=? start) && (start <=? MAX_SAFE_INTEGER));
          cbn [mbind result_bind] in Hthrow;
          [|injection Hthrow as <-; now eexists].
        destruct ((0 <=? end_) && (end_ <=? MAX_SAFE_INTEGER));
          cbn [mbind result_bind] in Hthrow;
          [|injection Hthrow as <-; now eexists].
        destruct (end_ <? start); cbn [mbind result_bind] in Hthrow;
          [injection Hthrow as <-; now eexists|discriminate].
    + cbn [String.eqb] in Hthrow.
      rewrite (createReadStream_whole _ Hp) in Hthrow. discriminate.
  - intros Hthrow. right. left. exact Hthrow.
  - intros [= ->].
    unfold resolve in Hres.
    destruct (requestFilename options req) as [filename|]; [|discriminate].
    unfold joinedName in Hres.
    destruct (JS.truthy (path options)); cbn [negb] in Hres.
    + cbn [mbind result_bind] in Hres.
      destruct (target host options filename) as [p [st|]]; discriminate.
    + destruct (rewriteRequestPath options) as [rewrite|].
      * destruct (global_c host) as [c|]; cbn [mbind result_bind] in Hres.
        -- destruct (rewrite filename c) as [name|e'] eqn:Hcall;
             cbn [mbind result_bind] in Hres.
           ++ destruct (target host options name) as [p [st|]]; discriminate.
           ++ injection Hres as <-. right. right. right.
              exists rewrite, c, filename. now repeat split.
        -- injection Hres as <-. left. repeat split. discriminate.
      * cbn [mbind result_bind] in Hres.
        destruct (target host options filename) as [p [st|]]; discriminate.
Qed.

(** ** Directories *)

(** The part of C3 that the code does: a directory gets the index file name
    appended and is looked up once more, and when that lookup fails the
    request goes to the not-found collaborator. *)
Lemma directory_without_index_is_not_found {Env Ctx : Type} (host : Host Ctx)
    (options : ServeStaticOptions Env Ctx) req env filename name dir :
  requestFilename options req = Some filename ->
  joinedName host options filename = Ok name ->
  getStats (files host) (NodePath.join [default ""%string (root options); name])
  = Some dir ->
  isDirectory dir = true ->
  getStats (files host)
    (NodePath.join
       [NodePath.join [default ""%string (root options); name];
        default "index.html"%string (index options)])
  = None ->
  serveStatic host options req env = notFound options req env.
Proof.
  intros Hname Hjoined Hdir Hisdir Hindex.
  unfold serveStatic, handler. rewrite Hname, Hjoined. simpl.
  unfold target. now rewrite Hdir, Hisdir, Hindex.
Qed.

(** C3 does not hold of the code where the index path is itself a
    directory.  The second lookup succeeds, nothing checks what kind of
    entry it found, and the handler goes on to serve the directory as if it
    were a file: the request resolves to the index path with the
    directory's stats, and for a plain GET the answer has status 200, the
    directory's own size as Content-Length and a read stream opened on the
    directory.  The not-found collaborator is not called. *)
Theorem index_directory_is_served {Env Ctx : Type} (host : Host Ctx)
    (options : ServeStaticOptions Env Ctx) req env filename name dir inner :
  requestFilename options req = Some filename ->
  joinedName host options filename = Ok name ->
  getStats (files host) (NodePath.join [default ""%string (root options); name])
  = Some dir ->
  isDirectory dir = true ->
  getStats (files host)
    (NodePath.join
       [NodePath.join [default ""%string (root options); name];
        default "index.html"%string (index options)])
  = Some inner ->
  isDirectory inner = true ->
  target host options name
  = (NodePath.join
       [NodePath.join [default ""%string (root options); name];
        default "index.html"%string (index options)],
     Some inner)
  /\ (exists hdrs stats path,
        resolvesTo host options req hdrs stats path
        /\ serveStatic host options req env = respond req hdrs stats path)
  /\ (precompressed options = false ->
      isHeadOrOptions req = false ->
      get (req_headers req) "range" = None ->
      exists contentType,
        serveStatic host options req env
        = Ok {| status := 200;
                headers :=
                  set (set [] "Content-Type" contentType) "Content-Length"
                    (JS.toString (size inner));
                body :=
                  StreamBody
                    (createStreamBody
                       {| rs_path :=
                            NodePath.join
                              [NodePath.join
                                 [default ""%string (root options); name];
                               default "index.html"%string (index options)];
                          rs_window := None |}) |}).
Proof.
  intros Hname Hjoined Hdir Hisdir Hindex _.
  assert (Htarget :
            target host options name
            = (NodePath.join
                 [NodePath.join [default ""%string (root options); name];
                  default "index.html"%string (index options)],
               Some inner)).
  { unfold target. now rewrite Hdir, Hisdir, Hindex. }
  split; [exact Htarget|]. split.
  - destruct (target_resolves host options req filename name _ inner
                Hname Hjoined Htarget) as (hdrs & stats & path & Hres).
    exists hdrs, stats, path. split; [exact Hres|].
    now apply handler_resolved.
  - intros Hpre Hmethod Hrange.
    unfold serveStatic, handler. rewrite Hname, Hjoined.
    cbn [mbind result_bind]. rewrite Htarget.
    unfold negotiate. rewrite Hpre. cbn [andb].
    unfold respond. rewrite Hmethod, Hrange.
    cbn [default from_option id String.eqb].
    rewrite createReadStream_whole by (eapply getStats_valid; exact Hindex).
    eexists. reflexivity.
Qed.

Lemma index_directory_is_served_witness :
  (target Fixture.host Fixture.options "/docs"
   = ("public/docs/index.html"%string, Some Fixture.directory)
   /\ (exists hdrs stats path,
         resolvesTo Fixture.host Fixture.options
           (Fixture.request "GET" "/docs" []) hdrs stats path
         /\ serveStatic Fixture.host Fixture.options
              (Fixture.request "GET" "/docs" []) tt
            = respond (Fixture.request "GET" "/docs" []) hdrs stats path)
   /\ (precompressed Fixture.options = false ->
       isHeadOrOptions (Fixture.request "GET" "/docs" []) = false ->
       get (req_headers (Fixture.request "GET" "/docs" [])) "range" = None ->
       exists contentType,
         serveStatic Fixture.host Fixture.options
           (Fixture.request "GET" "/docs" []) tt
         = Ok {| status := 200;
                 headers :=
                   set (set [] "Content-Type" contentType) "Content-Length"
                     "4096";
                 body :=
                   StreamBody
                     (createStreamBody
                        {| rs_path := "public/docs/index.html";
                           rs_window := None |}) |}))
  /\ serveStatic Fixture.host Fixture.options
       (Fixture.request "GET" "/docs" []) tt
     <> notFound Fixture.options (Fixture.request "GET" "/docs" []) tt.
Proof.
  split.
  - apply (index_directory_is_served Fixture.host Fixture.options
             (Fixture.request "GET" "/docs" []) tt "/docs"%string
             "/docs"%string Fixture.directory Fixture.directory);
      reflexivity.
  - discriminate.
Defined.

(** ** Reading a Range value *)

Lemma replace_bytes_prefix (s : string) : JS.replace "bytes=" "" ("bytes=" +:+ s) = s.
Proof. destruct s; reflexivity. Qed.

Lemma split_without_separator sep s :
  occurs sep s = false -> JS.split sep s = [s].
Proof.
  induction s as [|c s IH]; simpl; [reflexivity|].
  intros H. apply orb_false_iff in H as [Hc Hs].
  rewrite Hc, (IH Hs). reflexivity.
Qed.

Lemma split_at_separator sep a b :
  occurs sep a = false ->
  JS.split sep (a +:+ String sep b) = a :: JS.split sep b.
Proof.
  induction a as [|c a IH]; intros H.
  - rewrite append_nil_l. simpl. now rewrite Ascii.eqb_refl.
  - rewrite append_cons. simpl in *.
    apply orb_false_iff in H as [Hc Ha].
    rewrite Hc, (IH Ha). reflexivity.
Qed.

Lemma digit_not_space c d : JS.digit c = Some d -> JS.isWhiteSpace c = false.
Proof.
  destruct c as [[] [] [] [] [] [] [] []]; vm_compute; congruence.
Qed.

Lemma digit_not_plus c d : JS.digit c = Some d -> Ascii.eqb c "+" = false.
Proof.
  destruct c as [[] [] [] [] [] [] [] []]; vm_compute; congruence.
Qed.

Lemma digit_not_dash c d : JS.digit c = Some d -> Ascii.eqb c "-" = false.
Proof.
  destruct c as [[] [] [] [] [] [] [] []]; vm_compute; congruence.
Qed.

Lemma numeral_without_dash s : allDigits s = true -> occurs "-" s = false.
Proof.
  induction s as [|c s IH]; simpl; [reflexivity|].
  destruct (JS.digit c) as [d|] eqn:E; [|discriminate].
  intros H. now rewrite (digit_not_dash _ _ E), (IH H).
Qed.

(** [parseInt] reads a numeral as its value. *)
Lemma parseInt_numeral s :
  isNumeral s = true -> JS.parseInt s = Some (numeralValue s).
Proof.
  unfold isNumeral, numeralValue. destruct s as [|c s]; [discriminate|].
  cbn [negb String.eqb andb allDigits].
  destruct (JS.digit c) as [d|] eqn:E; [|discriminate]. intros _.
  unfold JS.parseInt. cbn [JS.trimStart].
  rewrite (digit_not_space _ _ E), (digit_not_dash _ _ E), (digit_not_plus _ _ E).
  unfold JS.readNumber. rewrite E. f_equal. apply Z.mul_1_l.
Qed.

Lemma split_limit_two a b :
  occurs "-" a = false ->
  exists piece,
    JS.split_limit "-" 2 (a +:+ String "-" b) = [a; piece]
    /\ nth_error (JS.split "-" b) 0 = Some piece.
Proof.
  intros Ha. unfold JS.split_limit. rewrite (split_at_separator _ _ _ Ha).
  destruct (JS.split "-" b) as [|piece rest] eqn:E.
  - destruct b as [|c b]; simpl in E; [discriminate|].
    destruct (Ascii.eqb c "-"); [discriminate|].
    destruct (JS.split "-" b); discriminate.
  - exists piece. split; reflexivity.
Qed.

(** Two numerals around a dash: the start is read as written; the end is
    read as written unless it is zero, which [||] treats like a missing
    end. *)
Lemma requestedRange_numerals a b size :
  isNumeral a = true -> isNumeral b = true ->
  requestedRange ("bytes=" +:+ a +:+ "-" +:+ b) size
  = (numeralValue a,
     if numeralValue b =? 0 then size - 1 else numeralValue b).
Proof.
  intros Ha Hb. unfold requestedRange.
  rewrite replace_bytes_prefix.
  assert (Hda : occurs "-" a = false).
  { apply numeral_without_dash. unfold isNumeral in Ha.
    now apply andb_true_iff in Ha as [_ Ha]. }
  assert (Hdb : occurs "-" b = false).
  { apply numeral_without_dash. unfold isNumeral in Hb.
    now apply andb_true_iff in Hb as [_ Hb]. }
  change (a +:+ "-" +:+ b) with (a +:+ String "-" b).
  destruct (split_limit_two a b Hda) as (piece & -> & Hpiece).
  rewrite (split_without_separator _ _ Hdb) in Hpiece.
  injection Hpiece as <-.
  cbn [nth_error]. unfold JS.parseInt_arg.
  rewrite (parseInt_numeral _ Ha), (parseInt_numeral _ Hb).
  unfold JS.or_number. f_equal.
  destruct (numeralValue a =? 0) eqn:E; [|reflexivity].
  apply Z.eqb_eq in E. now rewrite E.
Qed.

(** An open-ended range: the end defaults to the last byte. *)
Lemma requestedRange_open a size :
  isNumeral a = true ->
  requestedRange ("bytes=" +:+ a +:+ "-") size = (numeralValue a, size - 1).
Proof.
  intros Ha. unfold requestedRange.
  rewrite replace_bytes_prefix.
  assert (Hda : occurs "-" a = false).
  { apply numeral_without_dash. unfold isNumeral in Ha.
    now apply andb_true_iff in Ha as [_ Ha]. }
  change (a +:+ "-") with (a +:+ String "-" EmptyString).
  destruct (split_limit_two a EmptyString Hda) as (piece & -> & Hpiece).
  injection Hpiece as <-.
  cbn [nth_error]. unfold JS.parseInt_arg.
  rewrite (parseInt_numeral _ Ha).
  unfold JS.or_number. f_equal.
  destruct (numeralValue a =? 0) eqn:E; [|reflexivity].
  apply Z.eqb_eq in E. now rewrite E.
Qed.

(** C4 does not hold of the code for an end of zero.  In
    [bytes=<start>-0] the start is read as written, but the end, parsed as
    the number 0, is falsy for [||] and is replaced by [size - 1]: the
    window runs to the last byte of the file whatever its size. *)
Theorem end_zero_reads_to_last_byte a size :
  isNumeral a = true ->
  requestedRange ("bytes=" +:+ a +:+ "-0") size = (numeralValue a, size - 1)
  /\ rangeWindow ("bytes=" +:+ a +:+ "-0") size = (numeralValue a, size - 1).
Proof.
  intros Ha.
  assert (H : requestedRange ("bytes=" +:+ a +:+ "-0") size
              = (numeralValue a, size - 1)).
  { change ("bytes=" +:+ a +:+ "-0") with ("bytes=" +:+ a +:+ "-" +:+ "0").
    now rewrite (requestedRange_numerals a "0" size Ha eq_refl). }
  split; [exact H|].
  unfold rangeWindow. rewrite H. unfold clampEnd.
  now destruct (size <? size - 1 - numeralValue a + 1).
Qed.

Lemma end_zero_reads_to_last_byte_witness :
  requestedRange "bytes=0-0" 500 = (0, 499)
  /\ rangeWindow "bytes=0-0" 500 = (0, 499).
Proof.
  apply (end_zero_reads_to_last_byte "0" 500). reflexivity.
Defined.

(** The failing request of C4 seen from outside: a client asking for the
    first byte receives the whole file as a partial response. *)
Example first_byte_request_gets_whole_file :
  serveStatic Fixture.host Fixture.options
    (Fixture.request "GET" "/a.txt" [("range", "bytes=0-0")]%string) tt
  = Ok {| status := 206;
          headers := [("content-type", "text/plain");
                      ("accept-ranges", "bytes");
                      ("date", "Sun, 09 Sep 2001 01:46:40 GMT");
                      ("content-length", "500");
                      ("content-range", "bytes 0-499/500")]%string;
          body := StreamBody
                    (createStreamBody
                       {| rs_path := "public/a.txt";
                          rs_window := Some (0, 499) |}) |}.
Proof. reflexivity. Qed.

(** ** Partial responses *)

Ltac names_differ :=
  let H := fresh in intro H; vm_compute in H; discriminate H.

Lemma clampEnd_short size start end_ :
  size < end_ - start + 1 -> clampEnd size start end_ = size - 1.
Proof.
  intros H. unfold clampEnd.
  now assert ((size <? end_ - start + 1) = true) as -> by (apply Z.ltb_lt; lia).
Qed.

Lemma clampEnd_fits size start end_ :
  end_ - start + 1 <= size -> clampEnd size start end_ = end_.
Proof.
  intros H. unfold clampEnd.
  now assert ((size <? end_ - start + 1) = false) as -> by (apply Z.ltb_ge; lia).
Qed.

(** What [respond] does on the Range branch, whatever the window. *)
Lemma respond_range req hdrs stats path range start end_ :
  isHeadOrOptions req = false ->
  get (req_headers req) "range" = Some range ->
  range <> EmptyString ->
  rangeWindow range (size stats) = (start, end_) ->
  respond req hdrs stats path
  = (stream ← createReadStream path (Some (start, end_));
     Ok {| status := 206;
           headers :=
             set
               (set
                  (set (set hdrs "Accept-Ranges" "bytes") "Date"
                     (JS.toUTCString (birthtime stats)))
                  "Content-Length" (JS.toString (end_ - start + 1)))
               "Content-Range"
               ("bytes " +:+ JS.toString start +:+ "-" +:+ JS.toString end_
                  +:+ "/" +:+ JS.toString (size stats));
           body := StreamBody (createStreamBody stream) |}).
Proof.
  intros Hmethod Hrange Hne Hwindow.
  unfold respond. rewrite Hmethod, Hrange.
  change (default ""%string (Some range)) with range.
  assert (String.eqb range "" = false) as -> by now apply String.eqb_neq.
  now rewrite Hwindow.
Qed.

(** The 206 response, once the read-stream constructor accepts the
    window. *)
Lemma respond_partial req hdrs stats path range start end_ :
  hasNul path = false ->
  isHeadOrOptions req = false ->
  get (req_headers req) "range" = Some range ->
  range <> EmptyString ->
  rangeWindow range (size stats) = (start, end_) ->
  acceptableWindow start end_ ->
  respond req hdrs stats path
  = Ok {| status := 206;
          headers :=
            set
              (set
                 (set (set hdrs "Accept-Ranges" "bytes") "Date"
                    (JS.toUTCString (birthtime stats)))
                 "Content-Length" (JS.toString (end_ - start + 1)))
              "Content-Range"
              ("bytes " +:+ JS.toString start +:+ "-" +:+ JS.toString end_
                 +:+ "/" +:+ JS.toString (size stats));
          body :=
            StreamBody
              (createStreamBody
                 {| rs_path := path; rs_window := Some (start, end_) |}) |}.
Proof.
  intros Hpath Hmethod Hrange Hne Hwindow Hok.
  rewrite (respond_range req hdrs stats path range start end_
             Hmethod Hrange Hne Hwindow).
  now rewrite (createReadStream_window _ _ _ Hpath Hok).
Qed.

(** C5, as the specification words it, fails on two kinds of request that
    carry a Range header.  An empty Range value is treated as no Range
    header at all and gets the whole file with status 200.  And for
    [bytes=600-] against a file of 500 bytes the window is 600 to 499, which
    the read-stream constructor refuses: the handler throws and there is no
    response. *)
Lemma range_header_without_partial_response :
  get (req_headers (Fixture.request "GET" "/a.txt" [("range", "")]%string))
    "Range" = Some ""%string
  /\ serveStatic Fixture.host Fixture.options
       (Fixture.request "GET" "/a.txt" [("range", "")]%string) tt
     = Ok {| status := 200;
             headers := [("content-type", "text/plain");
                         ("content-length", "500")]%string;
             body := StreamBody
                       (createStreamBody
                          {| rs_path := "public/a.txt"; rs_window := None |}) |}
  /\ rangeWindow "bytes=600-" 500 = (600, 499)
  /\ serveStatic Fixture.host Fixture.options
       (Fixture.request "GET" "/a.txt" [("range", "bytes=600-")]%string) tt
     = Throw (RangeError "start").
Proof.
  repeat split.
Qed.

(** What the read-stream constructor does with a window it does not
    accept. *)
Lemma createReadStream_refuses p start end_ :
  hasNul p = false ->
  ~ acceptableWindow start end_ ->
  exists argument,
    createReadStream p (Some (start, end_)) = Throw (RangeError argument).
Proof.
  intros Hp Hnot. unfold createReadStream, validatePath, validateInteger.
  rewrite Hp. cbn [mbind result_bind].
  destruct ((0 <=? start) && (start <=? MAX_SAFE_INTEGER)) eqn:Hs;
    cbn [mbind result_bind]; [|now eexists].
  destruct ((0 <=? end_) && (end_ <=? MAX_SAFE_INTEGER)) eqn:He;
    cbn [mbind result_bind]; [|now eexists].
  destruct (end_ <? start) eqn:Hlt; [now eexists|].
  exfalso. apply Hnot.
  apply andb_true_iff in Hs as [Hs _]. apply andb_true_iff in He as [_ He].
  apply Z.leb_le in Hs, He. apply Z.ltb_ge in Hlt.
  unfold acceptableWindow. lia.
Qed.

(** C5, amended.  For a request other than HEAD and OPTIONS whose Range
    value is not empty, against a final target of [size] bytes, with
    [start] and [end] as the handler reads them: the end is moved to
    [size - 1] when [size < end - start + 1] and is kept otherwise.  When
    the resulting window is one the read-stream constructor accepts
    ([0 <= start <= end <= 2^53 - 1]), the response has status 206,
    [Content-Range: bytes start-end/size], a Content-Length of
    [end - start + 1], [Accept-Ranges: bytes], a Date header with the
    creation time of the served file, and a body over that window of the
    file.  For every other window the constructor throws a RangeError, the
    handler throws it on, and there is no response. *)
Theorem range_response {Env Ctx : Type} (host : Host Ctx)
    (options : ServeStaticOptions Env Ctx) req env hdrs stats path
    range start requested :
  resolvesTo host options req hdrs stats path ->
  isHeadOrOptions req = false ->
  get (req_headers req) "range" = Some range ->
  range <> EmptyString ->
  requestedRange range (size stats) = (start, requested) ->
  (size stats < requested - start + 1 ->
   clampEnd (size stats) start requested = size stats - 1)
  /\ (requested - start + 1 <= size stats ->
      clampEnd (size stats) start requested = requested)
  /\ (acceptableWindow start (clampEnd (size stats) start requested) ->
      exists resp stream,
        serveStatic host options req env = Ok resp
        /\ status resp = 206
        /\ get (headers resp) "Content-Range"
           = Some ("bytes " +:+ JS.toString start +:+ "-"
                     +:+ JS.toString (clampEnd (size stats) start requested)
                     +:+ "/" +:+ JS.toString (size stats))
        /\ get (headers resp) "Content-Length"
           = Some (JS.toString
                     (clampEnd (size stats) start requested - start + 1))
        /\ get (headers resp) "Accept-Ranges" = Some "bytes"%string
        /\ get (headers resp) "Date"
           = Some (JS.toUTCString (birthtime stats))
        /\ body resp = StreamBody stream
        /\ source stream
           = {| rs_path := path;
                rs_window :=
                  Some (start, clampEnd (size stats) start requested) |})
  /\ (~ acceptableWindow start (clampEnd (size stats) start requested) ->
      exists argument,
        serveStatic host options req env = Throw (RangeError argument)).
Proof.
  intros Hres Hmethod Hrange Hne Hreq.
  assert (Hpath : hasNul path = false)
    by (eapply getStats_valid, resolvesTo_stats; exact Hres).
  assert (Hwindow : rangeWindow range (size stats)
                    = (start, clampEnd (size stats) start requested))
    by (unfold rangeWindow; now rewrite Hreq).
  split; [apply clampEnd_short|]. split; [apply clampEnd_fits|].
  rewrite (handler_resolved _ _ _ _ _ _ _ Hres). split.
  - intros Hok.
    rewrite (respond_partial req hdrs stats path range start
               (clampEnd (size stats) start requested)
               Hpath Hmethod Hrange Hne Hwindow Hok).
    eexists; eexists; split; [reflexivity|]. cbn [status headers body].
    repeat split.
    + apply get_set_same.
    + rewrite get_set_other by names_differ. apply get_set_same.
    + rewrite !get_set_other by names_differ. apply get_set_same.
    + rewrite !get_set_other by names_differ. apply get_set_same.
  - intros Hnot.
    rewrite (respond_range req hdrs stats path range start
               (clampEnd (size stats) start requested)
               Hmethod Hrange Hne Hwindow).
    destruct (createReadStream_refuses path start
                (clampEnd (size stats) start requested) Hpath Hnot)
      as (argument & ->).
    now exists argument.
Qed.

Lemma range_response_witness :
  clampEnd 500 400 999 = 500 - 1
  /\ exists resp stream,
       serveStatic Fixture.host Fixture.options
         (Fixture.request "GET" "/a.txt" [("range", "bytes=400-999")]%string) tt
       = Ok resp
       /\ status resp = 206
       /\ get (headers resp) "Content-Range" = Some "bytes 400-499/500"%string
       /\ get (headers resp) "Content-Length" = Some "100"%string
       /\ get (headers resp) "Accept-Ranges" = Some "bytes"%string
       /\ get (headers resp) "Date"
          = Some "Sun, 09 Sep 2001 01:46:40 GMT"%string
       /\ body resp = StreamBody stream
       /\ source stream
          = {| rs_path := "public/a.txt"; rs_window := Some (400, 499) |}.
Proof.
  destruct (range_response Fixture.host Fixture.options
              (Fixture.request "GET" "/a.txt"
                 [("range", "bytes=400-999")]%string)
              tt [("content-type", "text/plain")]%string (Fixture.file 500)
              "public/a.txt" "bytes=400-999" 400 999)
    as (Hclamp & _ & Hanswer & _).
  - reflexivity.
  - reflexivity.
  - reflexivity.
  - discriminate.
  - reflexivity.
  - split.
    + apply Hclamp. reflexivity.
    + apply Hanswer. vm_compute. repeat split; discriminate.
Defined.

(** ** Precompressed siblings *)

Lemma scanEncodings_skip fs (accepted : gset string) key keys p :
  ~ (key ∈ accepted /\ getStats fs (p +:+ ENCODINGS_at key) <> None) ->
  scanEncodings fs accepted (key :: keys) p = scanEncodings fs accepted keys p.
Proof.
  intros Hnot. cbn [scanEncodings].
  case_bool_decide as Hin; cbn [negb]; [|reflexivity].
  destruct (getStats fs (p +:+ ENCODINGS_at key)) eqn:E; [|reflexivity].
  exfalso. apply Hnot. split; [exact Hin|congruence].
Qed.

Lemma scanEncodings_take fs (accepted : gset string) key keys p st :
  key ∈ accepted ->
  getStats fs (p +:+ ENCODINGS_at key) = Some st ->
  scanEncodings fs accepted (key :: keys) p
  = Some (key, st, p +:+ ENCODINGS_at key).
Proof.
  intros Hin Hst. cbn [scanEncodings].
  rewrite (bool_decide_true _ Hin). cbn [negb]. now rewrite Hst.
Qed.

(** The scan returns the first entry of the table, in table order, that is
    accepted and present on disk. *)
Lemma scanEncodings_first fs (accepted : gset string) p encoding suffix st :
  firstServable fs accepted p encoding suffix st ->
  scanEncodings fs accepted ENCODINGS_ORDERED_KEYS p
  = Some (encoding, st, p +:+ suffix).
Proof.
  intros (before & after & Htable & Hin & Hst & Hbefore).
  unfold ENCODINGS in Htable.
  destruct before as [|e1 [|e2 [|e3 [|e4 before]]]]; cbn in Htable.
  - injection Htable as <- <- _.
    now apply (scanEncodings_take fs accepted "br" _ p st).
  - injection Htable as <- <- <- _.
    apply Forall_cons in Hbefore as [H1 _].
    change ENCODINGS_ORDERED_KEYS with ["br"; "zstd"; "gzip"]%string.
    rewrite (scanEncodings_skip fs accepted "br" _ p H1).
    now apply (scanEncodings_take fs accepted "zstd" _ p st).
  - injection Htable as <- <- <- <- _.
    apply Forall_cons in Hbefore as [H1 Hbefore].
    apply Forall_cons in Hbefore as [H2 _].
    change ENCODINGS_ORDERED_KEYS with ["br"; "zstd"; "gzip"]%string.
    rewrite (scanEncodings_skip fs accepted "br" _ p H1).
    rewrite (scanEncodings_skip fs accepted "zstd" _ p H2).
    now apply (scanEncodings_take fs accepted "gzip" _ p st).
  - destruct after; discriminate Htable.
  - discriminate Htable.
Qed.

(** Only the set of accepted tokens matters to the negotiation, not the
    order in which the client listed them. *)
Lemma negotiate_accepted_set fs enabled mimeType req1 req2 hdrs st p :
  acceptEncodingSet req1 = acceptEncodingSet req2 ->
  negotiate fs enabled mimeType req1 hdrs st p
  = negotiate fs enabled mimeType req2 hdrs st p.
Proof.
  intros H. unfold negotiate. now rewrite H.
Qed.

Lemma respond_keeps_header req hdrs stats p resp name :
  JS.toLowerCase "Content-Length" <> JS.toLowerCase name ->
  JS.toLowerCase "Accept-Ranges" <> JS.toLowerCase name ->
  JS.toLowerCase "Date" <> JS.toLowerCase name ->
  JS.toLowerCase "Content-Range" <> JS.toLowerCase name ->
  respond req hdrs stats p = Ok resp ->
  get (headers resp) name = get hdrs name.
Proof.
  intros Hlen Hacc Hdate Hrange. unfold respond.
  destruct (isHeadOrOptions req).
  - intros [= <-]. cbn [headers]. now apply get_set_other.
  - destruct (String.eqb (default ""%string (get (req_headers req) "range")) "").
    + destruct (createReadStream p None) as [stream|e]; cbn [mbind result_bind];
        [|discriminate].
      intros [= <-]. cbn [headers]. now apply get_set_other.
    + destruct (rangeWindow _ _) as [start end_].
      destruct (createReadStream p (Some (start, end_))) as [stream|e];
        cbn [mbind result_bind]; [|discriminate].
      intros [= <-]. cbn [headers]. now rewrite !get_set_other.
Qed.

(** C6.  With precompression enabled and a content type that is absent or
    compressible, the handler serves the sibling of the first encoding of
    the table (br, zstd, gzip) that the client accepts and that exists on
    disk: that file and its stats become the target, Content-Encoding is
    the encoding's token and Vary gets Accept-Encoding; later entries of
    the table are not looked at.  The client's tokens enter only as a set,
    so their order in the header has no influence. *)
Theorem precompressed_by_table_order {Env Ctx : Type} (host : Host Ctx)
    (options : ServeStaticOptions Env Ctx) req env filename name p stats
    encoding suffix stats' :
  requestFilename options req = Some filename ->
  joinedName host options filename = Ok name ->
  target host options name = (p, Some stats) ->
  precompressed options = true ->
  (JS.truthy (getMimeType host p) = false
   \/ Regex.test COMPRESSIBLE_CONTENT_TYPE_REGEX
        (default ""%string (getMimeType host p)) = true) ->
  firstServable (files host) (acceptEncodingSet req) p encoding suffix stats' ->
  exists hdrs,
    resolvesTo host options req hdrs stats' (p +:+ suffix)
    /\ serveStatic host options req env = respond req hdrs stats' (p +:+ suffix)
    /\ get hdrs "Content-Encoding" = Some encoding
    /\ get hdrs "Vary" = Some "Accept-Encoding"%string
    /\ (forall resp,
          serveStatic host options req env = Ok resp ->
          get (headers resp) "Content-Encoding" = Some encoding
          /\ get (headers resp) "Vary" = Some "Accept-Encoding"%string)
    /\ (forall req',
          acceptEncodingSet req' = acceptEncodingSet req ->
          negotiate (files host) true (getMimeType host p) req'
            (set [] "Content-Type"
               (if JS.truthy (getMimeType host p)
                then default ""%string (getMimeType host p)
                else "application/octet-stream"%string))
            stats p
          = (hdrs, stats', p +:+ suffix)).
Proof.
  intros Hname Hjoined Htarget Hpre Hmime Hfirst.
  set (hdrs0 := set [] "Content-Type"
                  (if JS.truthy (getMimeType host p)
                   then default ""%string (getMimeType host p)
                   else "application/octet-stream"%string)).
  assert (Hneg : forall req',
             acceptEncodingSet req' = acceptEncodingSet req ->
             negotiate (files host) true (getMimeType host p) req' hdrs0 stats p
             = (append (set hdrs0 "Content-Encoding" encoding) "Vary"
                  "Accept-Encoding", stats', p +:+ suffix)).
  { intros req' Hset. unfold negotiate. rewrite Hset.
    assert ((true && (negb (JS.truthy (getMimeType host p))
                      || Regex.test COMPRESSIBLE_CONTENT_TYPE_REGEX
                           (default ""%string (getMimeType host p)))) = true)
      as ->.
    { cbn [andb]. destruct Hmime as [-> | ->]; [reflexivity|apply orb_true_r]. }
    now rewrite (scanEncodings_first _ _ _ _ _ _ Hfirst). }
  assert (Hres : resolvesTo host options req
                   (append (set hdrs0 "Content-Encoding" encoding) "Vary"
                      "Accept-Encoding") stats' (p +:+ suffix)).
  { unfold resolvesTo, resolve. rewrite Hname, Hjoined. cbn [mbind result_bind].
    rewrite Htarget, Hpre. fold hdrs0. now rewrite (Hneg req eq_refl). }
  assert (Hce : get (append (set hdrs0 "Content-Encoding" encoding) "Vary"
                       "Accept-Encoding") "Content-Encoding" = Some encoding).
  { rewrite get_append_other by names_differ. apply get_set_same. }
  assert (Hvary : get (append (set hdrs0 "Content-Encoding" encoding) "Vary"
                         "Accept-Encoding") "Vary"
                  = Some "Accept-Encoding"%string).
  { apply get_append_fresh.
    rewrite get_set_other by names_differ. reflexivity. }
  eexists. split; [exact Hres|].
  split; [now apply handler_resolved|].
  split; [exact Hce|]. split; [exact Hvary|]. split; [|exact Hneg].
  intros resp Hresp. rewrite (handler_resolved _ _ _ _ _ _ _ Hres) in Hresp.
  split.
  - rewrite <- Hce.
    eapply respond_keeps_header; [names_differ..|exact Hresp].
  - rewrite <- Hvary.
    eapply respond_keeps_header; [names_differ..|exact Hresp].
Qed.

Lemma precompressed_by_table_order_witness :
  (exists hdrs,
     resolvesTo Fixture.host Fixture.precompressing
       (Fixture.request "GET" "/a.txt" [("accept-encoding", "gzip, br")]%string)
       hdrs (Fixture.file 120) "public/a.txt.br"
     /\ serveStatic Fixture.host Fixture.precompressing
          (Fixture.request "GET" "/a.txt"
             [("accept-encoding", "gzip, br")]%string) tt
        = respond
            (Fixture.request "GET" "/a.txt"
               [("accept-encoding", "gzip, br")]%string)
            hdrs (Fixture.file 120) "public/a.txt.br"
     /\ get hdrs "Content-Encoding" = Some "br"%string
     /\ get hdrs "Vary" = Some "Accept-Encoding"%string
     /\ (forall resp,
           serveStatic Fixture.host Fixture.precompressing
             (Fixture.request "GET" "/a.txt"
                [("accept-encoding", "gzip, br")]%string) tt
           = Ok resp ->
           get (headers resp) "Content-Encoding" = Some "br"%string
           /\ get (headers resp) "Vary" = Some "Accept-Encoding"%string)
     /\ (forall req',
           acceptEncodingSet req'
           = acceptEncodingSet
               (Fixture.request "GET" "/a.txt"
                  [("accept-encoding", "gzip, br")]%string) ->
           negotiate Fixture.lstat true (Some "text/plain"%string) req'
             [("content-type", "text/plain")]%string (Fixture.file 500)
             "public/a.txt"
           = (hdrs, Fixture.file 120, "public/a.txt.br"%string)))
  /\ serveStatic Fixture.host Fixture.precompressing
       (Fixture.request "GET" "/a.txt" [("accept-encoding", "gzip, br")]%string)
       tt
     = Ok {| status := 200;
             headers := [("content-type", "text/plain");
                         ("content-encoding", "br");
                         ("vary", "Accept-Encoding");
                         ("content-length", "120")]%string;
             body := StreamBody
                       (createStreamBody
                          {| rs_path := "public/a.txt.br";
                             rs_window := None |}) |}.
Proof.
  split.
  - apply (precompressed_by_table_order Fixture.host Fixture.precompressing
             (Fixture.request "GET" "/a.txt"
                [("accept-encoding", "gzip, br")]%string)
             tt "/a.txt"%string "/a.txt"%string "public/a.txt"%string
             (Fixture.file 500) "br"%string ".br"%string (Fixture.file 120)).
    + reflexivity.
    + reflexivity.
    + reflexivity.
    + reflexivity.
    + right. reflexivity.
    + exists [], [("zstd", ".zst"); ("gzip", ".gz")]%string.
      split; [reflexivity|]. split; [|split; [reflexivity|constructor]].
      apply (bool_decide_unpack _). vm_compute. exact I.
  - vm_compute. reflexivity.
Defined.

(** The example of the specification with the tokens in the other order:
    the same sibling is chosen. *)
Example accept_encoding_order_is_irrelevant :
  acceptEncodingSet
    (Fixture.request "GET" "/a.txt" [("accept-encoding", "br, gzip")]%string)
  = acceptEncodingSet
      (Fixture.request "GET" "/a.txt" [("accept-encoding", "gzip, br")]%string)
  /\ serveStatic Fixture.host Fixture.precompressing
       (Fixture.request "GET" "/a.txt" [("accept-encoding", "br, gzip")]%string)
       tt
     = serveStatic Fixture.host Fixture.precompressing
         (Fixture.request "GET" "/a.txt"
            [("accept-encoding", "gzip, br")]%string) tt.
Proof.
  split; vm_compute; reflexivity.
Qed.

(** ** What a reader of the body receives *)

Lemma values_app a b : values (a ++ b) = values a ++ values b.
Proof.
  induction a as [|[chunk| |err] a IH]; cbn [app values]; [reflexivity|..];
    now rewrite IH.
Qed.

Lemma values_repeat_finished n : values (repeat finished n) = [].
Proof. induction n as [|n IH]; [reflexivity|exact IH]. Qed.

Lemma values_repeat_rejected err n : values (repeat (rejected err) n) = [].
Proof. induction n as [|n IH]; [reflexivity|exact IH]. Qed.

Lemma values_map_value chunks : values (map value chunks) = chunks.
Proof.
  induction chunks as [|c chunks IH]; [reflexivity|].
  cbn [map values]. now rewrite IH.
Qed.

(** Once the stream has failed, no read gets a chunk. *)
Lemma deliver_failed stream steps : forall st err,
  errored st = Some err ->
  values (deliver (createStreamBody stream) st steps) = [].
Proof.
  induction steps as [|[ev|] steps IH]; intros st err Herr; [reflexivity| |].
  - cbn [deliver]. unfold control. rewrite Herr. cbn [app]. now apply (IH st err).
  - cbn [deliver]. unfold readFrom. rewrite Herr. cbn [app values].
    now apply (IH st err).
Qed.

Lemma deliver_prefix stream steps : forall st,
  errored st = None ->
  settledState st ->
  exists later,
    ahead st (sourceEvents steps)
    = values (deliver (createStreamBody stream) st steps) ++ later.
Proof.
  induction steps as [|[ev|] steps IH]; intros st Herr Hsettled.
  - now exists (ahead st []).
  - cbn [deliver sourceEvents]. unfold control. rewrite Herr.
    destruct ev as [chunk|err|]; cbn [createStreamBody onEvent].
    + destruct (closeRequested st) eqn:Hclose.
      * cbn [app]. destruct (IH st Herr Hsettled) as (later & Hlater).
        exists later. rewrite <- Hlater. unfold ahead. now rewrite Hclose.
      * destruct (waiting st) as [|n] eqn:Hwait.
        -- cbn [app].
           destruct (IH {| queue := queue st ++ [chunk]; waiting := O;
                           closeRequested := false; errored := None |}
                       eq_refl (or_introl eq_refl)) as (later & Hlater).
           exists later. rewrite <- Hlater. unfold ahead.
           cbn [queue closeRequested emittedChunks]. rewrite Hclose.
           now rewrite <- app_assoc.
        -- destruct Hsettled as [Hzero|Hempty]; [congruence|].
           destruct (IH {| queue := queue st; waiting := n;
                           closeRequested := false; errored := None |}
                       eq_refl (or_intror Hempty)) as (later & Hlater).
           exists later. cbn [app values]. rewrite <- Hlater. unfold ahead.
           cbn [queue closeRequested emittedChunks].
           now rewrite Hclose, Hempty.
    + exists (ahead st (error err :: sourceEvents steps)).
      destruct (closeRequested st
                && match queue st with [] => true | _ :: _ => false end)
        eqn:Hclosed.
      * cbn [app]. apply andb_true_iff in Hclosed as [Hclose Hqueue].
        destruct (queue st) as [|c q] eqn:Hq; [|discriminate].
        destruct (IH st Herr Hsettled) as (later & Hlater).
        unfold ahead in Hlater. rewrite Hclose, Hq in Hlater.
        cbn [app] in Hlater.
        destruct (values (deliver (createStreamBody stream) st steps));
          [reflexivity|discriminate].
      * rewrite values_app, values_repeat_rejected. cbn [app].
        erewrite (deliver_failed stream steps); reflexivity.
    + destruct (closeRequested st) eqn:Hclose.
      * cbn [app]. destruct (IH st Herr Hsettled) as (later & Hlater).
        exists later. rewrite <- Hlater. unfold ahead. now rewrite Hclose.
      * rewrite values_app, values_repeat_finished. cbn [app].
        destruct (IH {| queue := queue st; waiting := O;
                        closeRequested := true; errored := None |}
                    eq_refl (or_introl eq_refl)) as (later & Hlater).
        exists later. rewrite <- Hlater. unfold ahead.
        cbn [queue closeRequested emittedChunks]. now rewrite Hclose.
  - cbn [deliver sourceEvents]. unfold readFrom. rewrite Herr.
    destruct (queue st) as [|c q] eqn:Hq.
    + destruct (closeRequested st) eqn:Hclose.
      * cbn [app values]. destruct (IH st Herr Hsettled) as (later & Hlater).
        exists later. rewrite <- Hlater. unfold ahead. now rewrite Hq.
      * cbn [app].
        destruct (IH {| queue := []; waiting := S (waiting st);
                        closeRequested := false; errored := None |}
                    eq_refl (or_intror eq_refl)) as (later & Hlater).
        exists later. rewrite <- Hlater. unfold ahead.
        cbn [queue closeRequested]. now rewrite Hq, Hclose.
    + cbn [app values].
      assert (Hzero : waiting st = O).
      { destruct Hsettled as [H|H]; [exact H|congruence]. }
      destruct (IH {| queue := q; waiting := waiting st;
                      closeRequested := closeRequested st; errored := None |}
                  eq_refl (or_introl Hzero)) as (later & Hlater).
      exists later. unfold ahead in *. cbn [queue closeRequested] in Hlater.
      rewrite Hq. cbn [app]. now rewrite Hlater.
Qed.

(** After [close()], the reads drain the queue and are then told that the
    stream is finished. *)
Lemma deliver_after_close stream steps : forall st,
  errored st = None ->
  closeRequested st = true ->
  sourceEvents steps = [] ->
  deliver (createStreamBody stream) st steps
  = map value (firstn (readCount steps) (queue st))
      ++ repeat finished (readCount steps - length (queue st)).
Proof.
  induction steps as [|[ev|] steps IH]; intros st Herr Hclose Hsource.
  - reflexivity.
  - discriminate Hsource.
  - cbn [deliver readCount sourceEvents] in *. unfold readFrom. rewrite Herr.
    destruct (queue st) as [|c q] eqn:Hq.
    + rewrite Hclose. rewrite (IH st Herr Hclose Hsource), Hq.
      cbn [firstn map app length]. rewrite firstn_nil. cbn [map app].
      now rewrite !Nat.sub_0_r.
    + rewrite (IH {| queue := q; waiting := waiting st;
                     closeRequested := closeRequested st; errored := None |}
                 eq_refl Hclose Hsource).
      reflexivity.
Qed.

(** While the source emits the chunks and then ends, every read is
    settled: the reads get the chunks in order, and the reads beyond the
    last chunk are told that the stream is finished. *)
Lemma deliver_to_the_end stream steps : forall st chunks,
  errored st = None ->
  closeRequested st = false ->
  settledState st ->
  sourceEvents steps = map data chunks ++ [end_of_stream] ->
  deliver (createStreamBody stream) st steps
  = map value (firstn (waiting st + readCount steps) (queue st ++ chunks))
      ++ repeat finished
           (waiting st + readCount steps - length (queue st ++ chunks)).
Proof.
  induction steps as [|[ev|] steps IH];
    intros st chunks Herr Hclose Hsettled Hsource.
  - destruct chunks; discriminate Hsource.
  - cbn [deliver readCount sourceEvents] in *. unfold control. rewrite Herr.
    destruct chunks as [|chunk chunks]; cbn [map app] in Hsource.
    + injection Hsource as -> Hsource.
      cbn [createStreamBody onEvent]. rewrite Hclose.
      rewrite (deliver_after_close stream steps
                 {| queue := queue st; waiting := O;
                    closeRequested := true; errored := None |}
                 eq_refl eq_refl Hsource).
      cbn [queue]. rewrite app_nil_r.
      destruct Hsettled as [Hzero|Hempty].
      * rewrite Hzero. reflexivity.
      * rewrite Hempty. cbn [length]. rewrite !firstn_nil. cbn [map app].
        rewrite !Nat.sub_0_r. now rewrite repeat_app.
    + injection Hsource as -> Hsource.
      cbn [createStreamBody onEvent]. rewrite Hclose.
      destruct (waiting st) as [|n] eqn:Hwait.
      * rewrite (IH {| queue := queue st ++ [chunk]; waiting := O;
                       closeRequested := false; errored := None |}
                   chunks eq_refl eq_refl (or_introl eq_refl) Hsource).
        cbn [queue waiting app]. now rewrite <- app_assoc.
      * destruct Hsettled as [Hzero|Hempty]; [congruence|].
        rewrite (IH {| queue := queue st; waiting := n;
                       closeRequested := false; errored := None |}
                   chunks eq_refl eq_refl (or_intror Hempty) Hsource).
        cbn [queue waiting]. rewrite Hempty. reflexivity.
  - cbn [deliver readCount sourceEvents] in *. unfold readFrom. rewrite Herr.
    destruct (queue st) as [|c q] eqn:Hq.
    + rewrite Hclose.
      rewrite (IH {| queue := []; waiting := S (waiting st);
                     closeRequested := false; errored := None |}
                 chunks eq_refl eq_refl (or_intror eq_refl) Hsource).
      cbn [queue waiting app]. rewrite Nat.add_succ_r. reflexivity.
    + assert (Hzero : waiting st = O).
      { destruct Hsettled as [H|H]; [exact H|congruence]. }
      rewrite (IH {| queue := q; waiting := waiting st;
                     closeRequested := closeRequested st; errored := None |}
                 chunks eq_refl Hclose (or_introl Hzero) Hsource).
      cbn [queue waiting]. rewrite Hzero. reflexivity.
Qed.

(** A reader that reads more often than there are chunks receives all of
    them, whatever the order of the reads and the events. *)
Lemma delivered_whole stream steps chunks :
  sourceEvents steps = map data chunks ++ [end_of_stream] ->
  (length chunks < readCount steps)%nat ->
  delivered (createStreamBody stream) steps
  = map value chunks
      ++ repeat finished (readCount steps - length chunks)
  /\ values (delivered (createStreamBody stream) steps) = chunks.
Proof.
  intros Hsource Hreads. unfold delivered.
  rewrite (deliver_to_the_end stream steps initialState chunks
             eq_refl eq_refl (or_introl eq_refl) Hsource).
  cbn [initialState queue waiting app Nat.add].
  rewrite firstn_all2 by lia. split; [reflexivity|].
  now rewrite values_app, values_repeat_finished, app_nil_r, values_map_value.
Qed.

(** ** Whole-file responses *)

Lemma getStats_files fs p st : getStats fs p = Some st -> fs p = Some st.
Proof.
  unfold getStats, lstatSync, validatePath.
  destruct (hasNul p); [discriminate|]. cbn [mbind result_bind].
  destruct (fs p); [now intros [= ->]|discriminate].
Qed.

(** C7, as the specification words it, fails in two ways.  A HEAD request
    has no Range header and resolves to public/a.txt, yet the response
    carries no body at all.  And for a symbolic link the sizes disagree:
    public/link.txt leads to a file of 26 bytes, [lstatSync] reports the 9
    bytes of the link itself, and the response announces a Content-Length
    of 9 over a stream that delivers the 26 bytes of the file. *)
Lemma whole_file_claim_fails_for_head_and_for_links :
  (resolvesTo Fixture.host Fixture.options (Fixture.request "HEAD" "/a.txt" [])
     [("content-type", "text/plain")]%string (Fixture.file 500) "public/a.txt"
   /\ get (req_headers (Fixture.request "HEAD" "/a.txt" [])) "range" = None
   /\ serveStatic Fixture.host Fixture.options
        (Fixture.request "HEAD" "/a.txt" []) tt
      = Ok {| status := 200;
              headers := [("content-type", "text/plain");
                          ("content-length", "500")]%string;
              body := NoBody |})
  /\ (get (req_headers (Fixture.request "GET" "/link.txt" [])) "range" = None
      /\ serveStatic linkedHost Fixture.options
           (Fixture.request "GET" "/link.txt" []) tt
         = Ok {| status := 200;
                 headers := [("content-type", "text/plain");
                             ("content-length", "9")]%string;
                 body :=
                   StreamBody
                     (createStreamBody
                        {| rs_path := "public/link.txt";
                           rs_window := None |}) |}
      /\ contentOf MAXSYMLINKS linkedDisk "public/link.txt"
         = Some "twenty-six bytes of notes."%string
      /\ String.length "twenty-six bytes of notes." = 26%nat
      /\ values
           (delivered
              (createStreamBody
                 {| rs_path := "public/link.txt"; rs_window := None |})
              [reads; emits (data "twenty-six bytes of notes.");
               emits end_of_stream; reads])
         = ["twenty-six bytes of notes."%string]).
Proof.
  vm_compute. repeat split.
Qed.

(** C7, amended.  A request other than HEAD and OPTIONS, without a Range
    header, that resolves to an existing entry is answered with status 200,
    a Content-Length equal to the size that [lstatSync] reports for the
    final path, and a body over a read stream of the whole of that path;
    a reader of the body receives the bytes the stream reads, in order and
    unchanged, up to the end.  When the path is a regular file, that size
    is the number of bytes of the file, which are the bytes delivered.
    When it is a symbolic link, the size is that of the link itself, while
    the bytes delivered are those of the file the link leads to. *)
Theorem whole_file_without_range {Env Ctx : Type} (host : Host Ctx)
    (options : ServeStaticOptions Env Ctx) req env hdrs stats path
    (disk : Disk) :
  (forall p, files host p = lstatOf disk p) ->
  resolvesTo host options req hdrs stats path ->
  isHeadOrOptions req = false ->
  get (req_headers req) "range" = None ->
  exists resp stream,
    serveStatic host options req env = Ok resp
    /\ status resp = 200
    /\ get (headers resp) "Content-Length" = Some (JS.toString (size stats))
    /\ lstatOf disk path = Some stats
    /\ body resp = StreamBody stream
    /\ source stream = {| rs_path := path; rs_window := None |}
    /\ (forall content chunks steps,
          contentOf MAXSYMLINKS disk path = Some content ->
          String.concat "" chunks = content ->
          sourceEvents steps = map data chunks ++ [end_of_stream] ->
          (length chunks < readCount steps)%nat ->
          values (delivered stream steps) = chunks
          /\ String.concat "" (values (delivered stream steps)) = content)
    /\ (forall node content,
          disk path = Some node ->
          entry node = RegularFile content ->
          contentOf MAXSYMLINKS disk path = Some content
          /\ size stats = Z.of_nat (String.length content))
    /\ (forall node text leadsTo,
          disk path = Some node ->
          entry node = SymbolicLink text leadsTo ->
          size stats = Z.of_nat (String.length text)
          /\ contentOf MAXSYMLINKS disk path
             = contentOf (Nat.pred MAXSYMLINKS) disk leadsTo).
Proof.
  intros Hdisk Hres Hmethod Hrange.
  assert (Hstats : lstatOf disk path = Some stats).
  { rewrite <- Hdisk. eapply getStats_files, resolvesTo_stats. exact Hres. }
  rewrite (handler_resolved _ _ _ _ _ _ _ Hres).
  unfold respond. rewrite Hmethod, Hrange.
  cbn [default from_option id String.eqb].
  rewrite createReadStream_whole
    by (eapply getStats_valid, resolvesTo_stats; exact Hres).
  cbn [mbind result_bind].
  eexists; eexists; split; [reflexivity|]. cbn [status headers body source].
  split; [reflexivity|]. split; [apply get_set_same|].
  split; [exact Hstats|]. split; [reflexivity|]. split; [reflexivity|].
  split; [|split].
  - intros content chunks steps _ Hchunks Hsource Hreads.
    destruct (delivered_whole {| rs_path := path; rs_window := None |}
                steps chunks Hsource Hreads) as [_ Hvalues].
    split; [exact Hvalues|]. now rewrite Hvalues.
  - intros node content Hnode Hentry.
    unfold lstatOf in Hstats. rewrite Hnode in Hstats.
    injection Hstats as <-.
    cbn [MAXSYMLINKS contentOf]. rewrite Hnode, Hentry.
    split; [reflexivity|]. unfold statsOf. cbn [size]. now rewrite Hentry.
  - intros node text leadsTo Hnode Hentry.
    unfold lstatOf in Hstats. rewrite Hnode in Hstats.
    injection Hstats as <-.
    unfold MAXSYMLINKS at 1. cbn [contentOf]. rewrite Hnode, Hentry.
    split; [|reflexivity]. unfold statsOf. cbn [size]. now rewrite Hentry.
Qed.

Lemma whole_file_without_range_witness :
  exists resp stream,
    serveStatic linkedHost Fixture.options
      (Fixture.request "GET" "/notes.txt" []) tt = Ok resp
    /\ status resp = 200
    /\ get (headers resp) "Content-Length" = Some "26"%string
    /\ lstatOf linkedDisk "public/notes.txt"
       = Some {| isDirectory := false; size := 26;
                 birthtime := 1000000000000 |}
    /\ body resp = StreamBody stream
    /\ source stream = {| rs_path := "public/notes.txt"; rs_window := None |}
    /\ (forall content chunks steps,
          contentOf MAXSYMLINKS linkedDisk "public/notes.txt" = Some content ->
          String.concat "" chunks = content ->
          sourceEvents steps = map data chunks ++ [end_of_stream] ->
          (length chunks < readCount steps)%nat ->
          values (delivered stream steps) = chunks
          /\ String.concat "" (values (delivered stream steps)) = content)
    /\ (forall node content,
          linkedDisk "public/notes.txt" = Some node ->
          entry node = RegularFile content ->
          contentOf MAXSYMLINKS linkedDisk "public/notes.txt" = Some content
          /\ size {| isDirectory := false; size := 26;
                     birthtime := 1000000000000 |}
             = Z.of_nat (String.length content))
    /\ (forall node text leadsTo,
          linkedDisk "public/notes.txt" = Some node ->
          entry node = SymbolicLink text leadsTo ->
          size {| isDirectory := false; size := 26;
                  birthtime := 1000000000000 |}
          = Z.of_nat (String.length text)
          /\ contentOf MAXSYMLINKS linkedDisk "public/notes.txt"
             = contentOf (Nat.pred MAXSYMLINKS) linkedDisk leadsTo).
Proof.
  apply (whole_file_without_range linkedHost Fixture.options
           (Fixture.request "GET" "/notes.txt" []) tt
           [("content-type", "text/plain")]%string
           {| isDirectory := false; size := 26; birthtime := 1000000000000 |}
           "public/notes.txt" linkedDisk).
  - intros p. reflexivity.
  - vm_compute. reflexivity.
  - reflexivity.
  - reflexivity.
Defined.

(** ** HEAD and OPTIONS: headers only *)

(** C8.  A HEAD or OPTIONS request that resolves to an existing entry is
    answered with status 200, no body, and a Content-Length equal to the
    size of the final target, the precompressed sibling when one was
    substituted.  Nothing is assumed about the Range header: the answer is
    the same with or without one, and no read stream is created. *)
Theorem head_or_options_headers_only {Env Ctx : Type} (host : Host Ctx)
    (options : ServeStaticOptions Env Ctx) req env hdrs stats path :
  resolvesTo host options req hdrs stats path ->
  isHeadOrOptions req = true ->
  exists resp,
    serveStatic host options req env = Ok resp
    /\ status resp = 200
    /\ body resp = NoBody
    /\ get (headers resp) "Content-Length" = Some (JS.toString (size stats))
    /\ resp = {| status := 200;
                 headers := set hdrs "Content-Length" (JS.toString (size stats));
                 body := NoBody |}.
Proof.
  intros Hres Hmethod.
  rewrite (handler_resolved _ _ _ _ _ _ _ Hres).
  unfold respond. rewrite Hmethod.
  eexists; split; [reflexivity|]. simpl.
  repeat split. apply get_set_same.
Qed.

Lemma head_or_options_headers_only_witness :
  exists resp,
    serveStatic Fixture.host Fixture.precompressing
      (Fixture.request "HEAD" "/a.txt"
         [("range", "bytes=0-10"); ("accept-encoding", "gzip")]%string) tt
    = Ok resp
    /\ status resp = 200
    /\ body resp = NoBody
    /\ get (headers resp) "Content-Length" = Some "150"%string
    /\ resp = {| status := 200;
                 headers :=
                   set [("content-type", "text/plain");
                        ("content-encoding", "gzip");
                        ("vary", "Accept-Encoding")]%string
                     "Content-Length" "150";
                 body := NoBody |}.
Proof.
  apply (head_or_options_headers_only Fixture.host Fixture.precompressing
           (Fixture.request "HEAD" "/a.txt"
              [("range", "bytes=0-10"); ("accept-encoding", "gzip")]%string) tt
           [("content-type", "text/plain"); ("content-encoding", "gzip");
            ("vary", "Accept-Encoding")]%string
           (Fixture.file 150) "public/a.txt.gz");
    vm_compute; reflexivity.
Defined.

(** ** Several ranges in one header *)

Lemma prefix_nil (s : string) : String.prefix "" s = true.
Proof. destruct s; reflexivity. Qed.

Lemma prefix_cons a p c s :
  String.prefix (String a p) (String c s)
  = if Ascii.eqb a c then String.prefix p s else false.
Proof.
  cbn [String.prefix].
  destruct (ascii_dec a c) as [->|Hne].
  - now rewrite Ascii.eqb_refl.
  - now assert (Ascii.eqb a c = false) as -> by now apply Ascii.eqb_neq.
Qed.

Lemma prefix_before_other c pat :
  occurs c pat = false ->
  forall first rest,
    String.prefix pat (first +:+ String c rest) = String.prefix pat first.
Proof.
  induction pat as [|a pat IH]; intros Hpat first rest.
  - now rewrite !prefix_nil.
  - cbn [occurs] in Hpat. apply orb_false_iff in Hpat as [Ha Hpat].
    destruct first as [|x first].
    + rewrite append_nil_l, prefix_cons, Ha. reflexivity.
    + rewrite append_cons, !prefix_cons.
      destruct (Ascii.eqb a x); [now apply IH|reflexivity].
Qed.

Lemma prefix_length pat : forall s,
  String.prefix pat s = true -> (String.length pat <= String.length s)%nat.
Proof.
  induction pat as [|a pat IH]; intros s H; [cbn; lia|].
  destruct s as [|c s]; [discriminate|].
  rewrite prefix_cons in H. destruct (Ascii.eqb a c); [|discriminate].
  cbn [String.length]. apply IH in H. lia.
Qed.

Lemma drop_append n : forall a b,
  (n <= String.length a)%nat -> JS.drop n (a +:+ b) = JS.drop n a +:+ b.
Proof.
  induction n as [|n IH]; intros a b H; [reflexivity|].
  destruct a as [|x a]; cbn [String.length] in H; [lia|].
  rewrite append_cons. cbn [JS.drop]. apply IH. lia.
Qed.

Lemma replace_unfold pat rep s :
  JS.replace pat rep s
  = if String.prefix pat s then rep +:+ JS.drop (String.length pat) s
    else match s with
         | EmptyString => EmptyString
         | String c s' => String c (JS.replace pat rep s')
         end.
Proof. destruct s; reflexivity. Qed.

(** Removing the first [pat] from a text that continues after a character
    foreign to [pat] leaves that character and what precedes it as if the
    text had ended there. *)
Lemma replace_before_other c pat :
  occurs c pat = false ->
  forall first rest,
    exists rest',
      JS.replace pat "" (first +:+ String c rest)
      = JS.replace pat "" first +:+ String c rest'.
Proof.
  intros Hpat first rest. induction first as [|x first IH].
  - rewrite append_nil_l.
    rewrite (replace_unfold pat "" (String c rest)), (replace_unfold pat "" "").
    destruct pat as [|a pat].
    + exists rest. reflexivity.
    + cbn [occurs] in Hpat. apply orb_false_iff in Hpat as [Ha _].
      rewrite prefix_cons, Ha. exists (JS.replace (String a pat) "" rest).
      reflexivity.
  - rewrite append_cons.
    rewrite (replace_unfold pat "" (String x (first +:+ String c rest))).
    rewrite (replace_unfold pat "" (String x first)).
    rewrite <- append_cons, (prefix_before_other c pat Hpat).
    destruct (String.prefix pat (String x first)) eqn:E.
    + exists rest. rewrite !append_nil_l.
      apply drop_append. now apply prefix_length.
    + destruct IH as (rest' & ->). exists rest'. reflexivity.
Qed.

Lemma occurs_drop_prefix c pat :
  occurs c pat = false ->
  forall s,
    String.prefix pat s = true ->
    occurs c (JS.drop (String.length pat) s) = occurs c s.
Proof.
  induction pat as [|a pat IH]; intros Hpat s H; [reflexivity|].
  cbn [occurs] in Hpat. apply orb_false_iff in Hpat as [Ha Hpat].
  destruct s as [|x s]; [discriminate|].
  rewrite prefix_cons in H. destruct (Ascii.eqb a x) eqn:E; [|discriminate].
  apply Ascii.eqb_eq in E. subst x.
  cbn [String.length JS.drop occurs]. rewrite Ha. now apply IH.
Qed.

Lemma occurs_replace c pat :
  occurs c pat = false ->
  forall s, occurs c s = true -> occurs c (JS.replace pat "" s) = true.
Proof.
  intros Hpat s. induction s as [|x s IH]; [discriminate|].
  intros H. rewrite replace_unfold.
  destruct (String.prefix pat (String x s)) eqn:E.
  - rewrite append_nil_l. now rewrite (occurs_drop_prefix c pat Hpat _ E).
  - cbn [occurs] in *. destruct (Ascii.eqb x c); [reflexivity|].
    now apply IH.
Qed.

Lemma occurs_first c s :
  occurs c s = true ->
  exists a b, s = a +:+ String c b /\ occurs c a = false.
Proof.
  induction s as [|x s IH]; [discriminate|].
  cbn [occurs]. destruct (Ascii.eqb x c) eqn:E.
  - intros _. apply Ascii.eqb_eq in E. subst x.
    exists EmptyString, s. split; reflexivity.
  - intros H. destruct (IH H) as (a & b & -> & Ha).
    exists (String x a), b. split; [reflexivity|].
    cbn [occurs]. now rewrite E, Ha.
Qed.

Lemma split_cons sep c s :
  JS.split sep (String c s)
  = if Ascii.eqb c sep then EmptyString :: JS.split sep s
    else match JS.split sep s with
         | h :: t => String c h :: t
         | [] => [String c EmptyString]
         end.
Proof. reflexivity. Qed.

Lemma split_nonempty sep s : exists h t, JS.split sep s = h :: t.
Proof.
  induction s as [|c s (h & t & IH)].
  - now exists EmptyString, [].
  - rewrite split_cons. destruct (Ascii.eqb c sep); [now eexists; eexists|].
    rewrite IH. now eexists; eexists.
Qed.

(** The first piece of a split does not see what follows the first
    separator. *)
Lemma first_piece_with_separator sep b z :
  occurs sep b = true ->
  nth_error (JS.split sep (b +:+ z)) 0 = nth_error (JS.split sep b) 0.
Proof.
  induction b as [|c b IH]; [discriminate|].
  cbn [occurs]. rewrite append_cons, !split_cons.
  destruct (Ascii.eqb c sep); [reflexivity|]. cbn [orb]. intros H.
  specialize (IH H).
  destruct (split_nonempty sep (b +:+ z)) as (h1 & t1 & E1).
  destruct (split_nonempty sep b) as (h2 & t2 & E2).
  rewrite E1, E2 in *. cbn [nth_error] in *. congruence.
Qed.

Lemma first_piece_without_separator sep b z :
  occurs sep b = false ->
  exists h,
    nth_error (JS.split sep z) 0 = Some h
    /\ nth_error (JS.split sep (b +:+ z)) 0 = Some (b +:+ h).
Proof.
  induction b as [|c b IH]; intros H.
  - rewrite append_nil_l. destruct (split_nonempty sep z) as (h & t & E).
    exists h. now rewrite E.
  - cbn [occurs] in H. apply orb_false_iff in H as [Hc Hb].
    destruct (IH Hb) as (h & Hz & Hbz). exists h. split; [exact Hz|].
    rewrite !append_cons, split_cons, Hc.
    destruct (split_nonempty sep (b +:+ z)) as (h1 & t1 & E1).
    rewrite E1 in *. cbn [nth_error] in *. congruence.
Qed.

Lemma trimStart_before_comma x y :
  JS.trimStart (x +:+ String "," y) = JS.trimStart x +:+ String "," y.
Proof.
  induction x as [|c x IH]; [reflexivity|].
  rewrite append_cons. cbn [JS.trimStart].
  destruct (JS.isWhiteSpace c); [exact IH|reflexivity].
Qed.

Lemma digits_before_comma x y : forall acc,
  JS.digits acc (x +:+ String "," y) = JS.digits acc x.
Proof.
  induction x as [|c x IH]; intros acc; [reflexivity|].
  rewrite append_cons. cbn [JS.digits].
  destruct (JS.digit c); [apply IH|reflexivity].
Qed.

Lemma readNumber_before_comma sign x y :
  JS.readNumber sign (x +:+ String "," y) = JS.readNumber sign x.
Proof.
  destruct x as [|c x]; [reflexivity|].
  rewrite append_cons. unfold JS.readNumber.
  destruct (JS.digit c); [|reflexivity].
  now rewrite <- append_cons, digits_before_comma.
Qed.

(** [parseInt] stops at a comma: what follows it has no influence. *)
Lemma parseInt_before_comma x y :
  JS.parseInt (x +:+ String "," y) = JS.parseInt x.
Proof.
  unfold JS.parseInt. rewrite trimStart_before_comma.
  destruct (JS.trimStart x) as [|c r]; [reflexivity|].
  rewrite append_cons.
  destruct (Ascii.eqb c "-"); [apply readNumber_before_comma|].
  destruct (Ascii.eqb c "+"); [apply readNumber_before_comma|].
  rewrite <- append_cons. apply readNumber_before_comma.
Qed.

(** With a dash in its first segment, a Range value with several
    comma-separated segments is read exactly like its first segment
    alone. *)
Lemma requestedRange_first_segment first rest size :
  occurs "," first = false ->
  occurs "-" first = true ->
  requestedRange (first +:+ "," +:+ rest) size = requestedRange first size.
Proof.
  intros Hcomma Hdash. unfold requestedRange.
  change (first +:+ "," +:+ rest) with (first +:+ String "," rest).
  destruct (replace_before_other "," "bytes=" eq_refl first rest) as (rest' & ->).
  pose proof (occurs_replace "-" "bytes=" eq_refl first Hdash) as HF.
  destruct (occurs_first _ _ HF) as (a & b & -> & Ha).
  rewrite append_assoc, append_cons.
  destruct (split_limit_two a (b +:+ String "," rest') Ha) as (p1 & -> & Hp1).
  destruct (split_limit_two a b Ha) as (p2 & -> & Hp2).
  cbn [nth_error]. f_equal. f_equal. unfold JS.parseInt_arg.
  destruct (occurs "-" b) eqn:Hb.
  - rewrite (first_piece_with_separator _ _ _ Hb) in Hp1. congruence.
  - destruct (first_piece_without_separator "-" b (String "," rest') Hb)
      as (h & _ & Hbh).
    rewrite (split_without_separator _ _ Hb) in Hp2.
    injection Hp2 as <-.
    assert (exists h', p1 = b +:+ String "," h') as (h' & ->).
    { destruct (split_nonempty "-" rest') as (h0 & t0 & E0).
      exists h0.
      destruct (first_piece_without_separator "-" (b +:+ ",") rest')
        as (h1 & Hh1 & Hfull).
      { clear -Hb. induction b as [|c b IH]; [reflexivity|].
        cbn [occurs] in Hb. apply orb_false_iff in Hb as [Hc Hb].
        rewrite append_cons. cbn [occurs]. now rewrite Hc, IH. }
      rewrite E0 in Hh1. injection Hh1 as <-.
      rewrite append_assoc in Hfull.
      change ("," +:+ rest') with (String "," rest') in Hfull.
      rewrite Hfull in Hp1. injection Hp1 as <-.
      now rewrite append_assoc. }
    now rewrite parseInt_before_comma.
Qed.

(** C9, as the specification words it, fails in two ways.  The handler
    never looks for a comma: in [bytes=5,7-9] the text before the first
    comma has no dash, and the end of the window is taken from the second
    segment, where [bytes=5] alone would run to the last byte.  And a first
    range that the read-stream constructor refuses, as in
    [bytes=600-,0-10] against 500 bytes, gets no response at all. *)
Lemma first_segment_is_not_always_honoured :
  rangeWindow "bytes=5,7-9" 500 = (5, 9)
  /\ rangeWindow "bytes=5" 500 = (5, 499)
  /\ serveStatic Fixture.host Fixture.options
       (Fixture.request "GET" "/a.txt" [("range", "bytes=5,7-9")]%string) tt
     = Ok {| status := 206;
             headers := [("content-type", "text/plain");
                         ("accept-ranges", "bytes");
                         ("date", "Sun, 09 Sep 2001 01:46:40 GMT");
                         ("content-length", "5");
                         ("content-range", "bytes 5-9/500")]%string;
             body := StreamBody
                       (createStreamBody
                          {| rs_path := "public/a.txt";
                             rs_window := Some (5, 9) |}) |}
  /\ serveStatic Fixture.host Fixture.options
       (Fixture.request "GET" "/a.txt" [("range", "bytes=600-,0-10")]%string) tt
     = Throw (RangeError "start").
Proof.
  repeat split.
Qed.

(** C9, amended.  For a request other than HEAD and OPTIONS whose Range
    value has several comma-separated segments, the first of which contains
    a dash: start and end are those of the first segment alone, and the
    handler answers as it would to that segment alone.  When that window is
    one the read-stream constructor accepts
    ([0 <= start <= end <= 2^53 - 1]), the answer is a single 206 response
    for that window, with the content type of the file, not a multipart
    one; for every other window the handler throws the constructor's
    RangeError. *)
Theorem first_range_only {Env Ctx : Type} (host : Host Ctx)
    (options : ServeStaticOptions Env Ctx) req env hdrs stats path
    first rest start requested :
  resolvesTo host options req hdrs stats path ->
  isHeadOrOptions req = false ->
  get (req_headers req) "range" = Some (first +:+ "," +:+ rest) ->
  occurs "," first = false ->
  occurs "-" first = true ->
  requestedRange first (size stats) = (start, requested) ->
  rangeWindow (first +:+ "," +:+ rest) (size stats)
  = rangeWindow first (size stats)
  /\ (forall alone,
        method alone = method req ->
        get (req_headers alone) "range" = Some first ->
        respond alone hdrs stats path = serveStatic host options req env)
  /\ (acceptableWindow start (clampEnd (size stats) start requested) ->
      exists resp stream,
        serveStatic host options req env = Ok resp
        /\ status resp = 206
        /\ get (headers resp) "Content-Range"
           = Some ("bytes " +:+ JS.toString start +:+ "-"
                     +:+ JS.toString (clampEnd (size stats) start requested)
                     +:+ "/" +:+ JS.toString (size stats))
        /\ get (headers resp) "Content-Length"
           = Some (JS.toString
                     (clampEnd (size stats) start requested - start + 1))
        /\ get (headers resp) "Content-Type" = get hdrs "Content-Type"
        /\ body resp = StreamBody stream
        /\ source stream
           = {| rs_path := path;
                rs_window :=
                  Some (start, clampEnd (size stats) start requested) |})
  /\ (~ acceptableWindow start (clampEnd (size stats) start requested) ->
      exists argument,
        serveStatic host options req env = Throw (RangeError argument)).
Proof.
  intros Hres Hmethod Hrange Hcomma Hdash Hreq.
  pose proof (requestedRange_first_segment first rest (size stats) Hcomma Hdash)
    as Hsame.
  assert (Hwindow : rangeWindow (first +:+ "," +:+ rest) (size stats)
                    = rangeWindow first (size stats))
    by (unfold rangeWindow; now rewrite Hsame).
  assert (Hfull : first +:+ "," +:+ rest <> EmptyString)
    by (destruct first; discriminate).
  assert (Hfirst : first <> EmptyString) by (destruct first; discriminate).
  assert (Hpath : hasNul path = false)
    by (eapply getStats_valid, resolvesTo_stats; exact Hres).
  assert (Hclamped : rangeWindow (first +:+ "," +:+ rest) (size stats)
                     = (start, clampEnd (size stats) start requested))
    by (unfold rangeWindow; now rewrite Hsame, Hreq).
  split; [exact Hwindow|]. split; [|split].
  - intros alone Halone Hrange1.
    rewrite (handler_resolved _ _ _ _ _ _ _ Hres).
    destruct (rangeWindow first (size stats)) as [s e] eqn:Hw.
    rewrite (respond_range req hdrs stats path _ s e Hmethod Hrange Hfull Hwindow).
    apply (respond_range alone hdrs stats path first s e); auto.
    unfold isHeadOrOptions in *. now rewrite Halone.
  - intros Hok.
    rewrite (handler_resolved _ _ _ _ _ _ _ Hres).
    rewrite (respond_partial req hdrs stats path (first +:+ "," +:+ rest)
               start (clampEnd (size stats) start requested)
               Hpath Hmethod Hrange Hfull Hclamped Hok).
    eexists; eexists; split; [reflexivity|]. cbn [status headers body].
    repeat split.
    + apply get_set_same.
    + rewrite get_set_other by names_differ. apply get_set_same.
    + now rewrite !get_set_other by names_differ.
  - intros Hnot.
    rewrite (handler_resolved _ _ _ _ _ _ _ Hres).
    rewrite (respond_range req hdrs stats path (first +:+ "," +:+ rest) start
               (clampEnd (size stats) start requested)
               Hmethod Hrange Hfull Hclamped).
    destruct (createReadStream_refuses path start
                (clampEnd (size stats) start requested) Hpath Hnot)
      as (argument & ->).
    now exists argument.
Qed.

Lemma first_range_only_witness :
  rangeWindow "bytes=0-10,20-30" 500 = rangeWindow "bytes=0-10" 500
  /\ (forall alone,
        method alone = "GET"%string ->
        get (req_headers alone) "range" = Some "bytes=0-10"%string ->
        respond alone [("content-type", "text/plain")]%string
          (Fixture.file 500) "public/a.txt"
        = serveStatic Fixture.host Fixture.options
            (Fixture.request "GET" "/a.txt"
               [("range", "bytes=0-10,20-30")]%string) tt)
  /\ exists resp stream,
       serveStatic Fixture.host Fixture.options
         (Fixture.request "GET" "/a.txt"
            [("range", "bytes=0-10,20-30")]%string) tt
       = Ok resp
       /\ status resp = 206
       /\ get (headers resp) "Content-Range" = Some "bytes 0-10/500"%string
       /\ get (headers resp) "Content-Length" = Some "11"%string
       /\ get (headers resp) "Content-Type" = Some "text/plain"%string
       /\ body resp = StreamBody stream
       /\ source stream
          = {| rs_path := "public/a.txt"; rs_window := Some (0, 10) |}.
Proof.
  destruct (first_range_only Fixture.host Fixture.options
              (Fixture.request "GET" "/a.txt"
                 [("range", "bytes=0-10,20-30")]%string)
              tt [("content-type", "text/plain")]%string (Fixture.file 500)
              "public/a.txt" "bytes=0-10" "20-30" 0 10)
    as (Hwindow & Halone & Hanswer & _).
  - reflexivity.
  - reflexivity.
  - reflexivity.
  - reflexivity.
  - reflexivity.
  - reflexivity.
  - split; [exact Hwindow|]. split; [exact Halone|].
    apply Hanswer. vm_compute. repeat split; discriminate.
Defined.

(** ** A start at or beyond the end of the file *)

Lemma createReadStream_inverted p start end_ :
  hasNul p = false ->
  end_ < start ->
  exists argument,
    createReadStream p (Some (start, end_)) = Throw (RangeError argument).
Proof.
  intros Hp Hlt. unfold createReadStream, validatePath, validateInteger.
  rewrite Hp. cbn [mbind result_bind].
  destruct ((0 <=? start) && (start <=? MAX_SAFE_INTEGER));
    [|now exists "start"%string].
  destruct ((0 <=? end_) && (end_ <=? MAX_SAFE_INTEGER));
    [|now exists "end"%string].
  assert ((end_ <? start) = true) as -> by (apply Z.ltb_lt; lia).
  now exists "start"%string.
Qed.

(** C10, as stated, fails: for [bytes=600-] against the 500-byte file the
    handler computes the window 600 to 499 and a chunk size of -100, but it
    never gets to set Content-Length or to build the 206 response, because
    the read-stream constructor refuses a window whose start is above its
    end.  The handler throws. *)
Lemma start_beyond_size_has_no_response :
  resolvesTo Fixture.host Fixture.options
    (Fixture.request "GET" "/a.txt" [("range", "bytes=600-")]%string)
    [("content-type", "text/plain")]%string (Fixture.file 500) "public/a.txt"
  /\ rangeWindow "bytes=600-" 500 = (600, 499)
  /\ serveStatic Fixture.host Fixture.options
       (Fixture.request "GET" "/a.txt" [("range", "bytes=600-")]%string) tt
     = Throw (RangeError "start")
  /\ forall resp,
       serveStatic Fixture.host Fixture.options
         (Fixture.request "GET" "/a.txt" [("range", "bytes=600-")]%string) tt
       <> Ok resp.
Proof.
  repeat split. discriminate.
Qed.

(** C10, amended.  For a request other than HEAD and OPTIONS with the
    Range value [bytes=<start>-] and a start at or beyond the size of the
    final target, the end defaults to [size - 1] and the chunk size
    [size - start] is zero or negative; the handler answers neither 416 nor
    206: the read-stream constructor rejects the window, and the handler
    throws its RangeError. *)
Theorem start_beyond_size_throws {Env Ctx : Type} (host : Host Ctx)
    (options : ServeStaticOptions Env Ctx) req env hdrs stats path a :
  resolvesTo host options req hdrs stats path ->
  isHeadOrOptions req = false ->
  isNumeral a = true ->
  get (req_headers req) "range" = Some ("bytes=" +:+ a +:+ "-") ->
  size stats <= numeralValue a ->
  rangeWindow ("bytes=" +:+ a +:+ "-") (size stats)
  = (numeralValue a, size stats - 1)
  /\ (size stats - 1) - numeralValue a + 1 = size stats - numeralValue a
  /\ size stats - numeralValue a <= 0
  /\ exists argument,
       serveStatic host options req env = Throw (RangeError argument).
Proof.
  intros Hres Hmethod Ha Hrange Hsize.
  assert (Hwindow : rangeWindow ("bytes=" +:+ a +:+ "-") (size stats)
                    = (numeralValue a, size stats - 1)).
  { unfold rangeWindow. rewrite (requestedRange_open a _ Ha).
    unfold clampEnd.
    now destruct (size stats <? size stats - 1 - numeralValue a + 1). }
  split; [exact Hwindow|]. split; [lia|]. split; [lia|].
  rewrite (handler_resolved _ _ _ _ _ _ _ Hres).
  rewrite (respond_range req hdrs stats path _ _ _ Hmethod Hrange)
    by (try exact Hwindow; destruct a; discriminate).
  destruct (createReadStream_inverted path (numeralValue a) (size stats - 1))
    as (argument & ->).
  - eapply getStats_valid, resolvesTo_stats; exact Hres.
  - lia.
  - now exists argument.
Qed.

Lemma start_beyond_size_throws_witness :
  rangeWindow "bytes=600-" 500 = (600, 499)
  /\ 500 - 1 - 600 + 1 = 500 - 600
  /\ 500 - 600 <= 0
  /\ exists argument,
       serveStatic Fixture.host Fixture.options
         (Fixture.request "GET" "/a.txt" [("range", "bytes=600-")]%string) tt
       = Throw (RangeError argument).
Proof.
  apply (start_beyond_size_throws Fixture.host Fixture.options
           (Fixture.request "GET" "/a.txt" [("range", "bytes=600-")]%string)
           tt [("content-type", "text/plain")]%string (Fixture.file 500)
           "public/a.txt" "600").
  - reflexivity.
  - reflexivity.
  - reflexivity.
  - reflexivity.
  - vm_compute. discriminate.
Defined.

(** ** The examples of the specification, run on the fixture *)

Example range_0_99 :
  serveStatic Fixture.host Fixture.options
    (Fixture.request "GET" "/a.txt" [("range", "bytes=0-99")]%string) tt
  = Ok {| status := 206;
          headers := [("content-type", "text/plain");
                      ("accept-ranges", "bytes");
                      ("date", "Sun, 09 Sep 2001 01:46:40 GMT");
                      ("content-length", "100");
                      ("content-range", "bytes 0-99/500")]%string;
          body := StreamBody
                    (createStreamBody
                       {| rs_path := "public/a.txt";
                          rs_window := Some (0, 99) |}) |}.
Proof. reflexivity. Qed.

Example directory_with_index :
  serveStatic Fixture.host Fixture.options
    (Fixture.request "GET" "/site/" []) tt
  = Ok {| status := 200;
          headers := [("content-type", "text/html");
                      ("content-length", "77")]%string;
          body := StreamBody
                    (createStreamBody
                       {| rs_path := "public/site/index.html";
                          rs_window := None |}) |}.
Proof. reflexivity. Qed.

Example missing_file_is_404 :
  serveStatic Fixture.host Fixture.options
    (Fixture.request "GET" "/nothing.txt" []) tt
  = Ok {| status := 404;
          headers := [("content-type", "text/plain;charset=UTF-8")]%string;
          body := TextBody "Not Found" |}.
Proof. reflexivity. Qed.

Example compressible_content_types :
  map (Regex.test COMPRESSIBLE_CONTENT_TYPE_REGEX)
    ["text/plain"; "TEXT/html; charset=utf-8"; "application/json";
     "image/svg+xml"; "  font/otf "; "application/wasm;x";
     "image/png"; "application/jsonx"; "application/octet-stream";
     "text/"; "+json"; "xtext/plain"]%string
  = [true; true; true; true; true; true;
     false; false; false; false; false; false].
Proof. vm_compute. reflexivity. Qed.

Example joined_paths :
  map NodePath.join
    [["public"; "/a.txt"]; [""; "/a.txt"]; ["public"; "/docs/"];
     ["public/docs/"; "index.html"]; ["a"; "../../b"]; ["/a"; "../../b"];
     [""; ""]; ["./public"; "/x/./y//z/.."]]%string
  = ["public/a.txt"; "/a.txt"; "public/docs/"; "public/docs/index.html";
     "../b"; "/b"; "."; "public/x/y"]%string.
Proof. vm_compute. reflexivity. Qed.

Example decoded_paths :
  map JS.decodeURIComponent
    ["/..%2Fsecret"; "/a%20b"; "/%E2%82%AC"; "/%E0%A4%A"; "/%C0%AF"; "%"]%string
  = [Ok "/../secret"%string; Ok "/a b"%string;
     Ok (String "/" (JS.bytes [226; 130; 172]));
     Throw URIError; Throw URIError; Throw URIError].
Proof. vm_compute. reflexivity. Qed.

(** * Further properties of the handler *)

(** ** Which requests pass the traversal check *)

(** X1.  Without a fixed serve path the handler goes on with the name [f]
    exactly when the request path decodes to [f] and [f] has no [..]
    segment bounded by separators or the ends of the string. *)
Theorem request_filename_exact {Env Ctx : Type}
    (options : ServeStaticOptions Env Ctx) req f :
  JS.truthy (path options) = false ->
  requestFilename options req = Some f
  <-> JS.decodeURIComponent (pathname req) = Ok f /\ ~ hasDotDotSegment f.
Proof.
  intros Hpath. unfold requestFilename. rewrite Hpath.
  destruct (JS.decodeURIComponent (pathname req)) as [decoded|e].
  - destruct (Regex.test TRAVERSAL_REGEX decoded) eqn:Htest.
    + split; [discriminate|]. intros [[= ->] Hno].
      exfalso. apply Hno. now apply traversal_test_spec.
    + split.
      * intros [= ->]. split; [reflexivity|].
        intros Hdots. apply traversal_test_spec in Hdots. congruence.
      * now intros [[= ->] _].
  - split; [discriminate|]. now intros [? _].
Qed.

Lemma request_filename_exact_witness :
  requestFilename Fixture.options (Fixture.request "GET" "/a%2Eb/..c" [])
  = Some "/a.b/..c"%string
  <-> JS.decodeURIComponent
        (pathname (Fixture.request "GET" "/a%2Eb/..c" []))
      = Ok "/a.b/..c"%string
      /\ ~ hasDotDotSegment "/a.b/..c".
Proof.
  apply (request_filename_exact Fixture.options
           (Fixture.request "GET" "/a%2Eb/..c" []) "/a.b/..c").
  reflexivity.
Defined.

(** ** A fixed serve path *)

(** X2.  With a fixed serve path the request path plays no part in
    choosing what is served: the path is neither decoded nor tested, the
    rewrite function and the undeclared [c] are not reached, and every
    request path, undecodable ones included, resolves to the same target.
    When that target exists every request path gets the same response;
    when it does not, the answer is whatever the not-found collaborator
    returns for the request as it came, path included. *)
Theorem fixed_path_ignores_request_path {Env Ctx : Type} (host : Host Ctx)
    (options : ServeStaticOptions Env Ctx) req env :
  JS.truthy (path options) = true ->
  (forall p,
     requestFilename options (withPathname req p) = path options
     /\ resolve host options (withPathname req p) = resolve host options req)
  /\ (exists outcome, resolve host options req = Ok outcome)
  /\ (forall p hdrs stats q,
        resolvesTo host options req hdrs stats q ->
        serveStatic host options (withPathname req p) env
        = serveStatic host options req env)
  /\ (forall p,
        resolve host options req = Ok None ->
        serveStatic host options (withPathname req p) env
        = notFound options (withPathname req p) env).
Proof.
  intros Hpath.
  assert (Hsame : forall p,
             resolve host options (withPathname req p)
             = resolve host options req).
  { intros p. unfold resolve, requestFilename. now rewrite Hpath. }
  split; [|split; [|split]].
  - intros p. split; [|apply Hsame].
    unfold requestFilename. now rewrite Hpath.
  - unfold resolve, requestFilename, joinedName. rewrite Hpath.
    destruct (path options) as [fixed|]; [|now eexists].
    cbn [negb mbind result_bind].
    destruct (target host options fixed) as [q [st|]]; now eexists.
  - intros p hdrs stats q Hres.
    rewrite !handler_resolve, Hsame. unfold resolvesTo in Hres.
    rewrite Hres. reflexivity.
  - intros p Hnone. rewrite handler_resolve, Hsame, Hnone. reflexivity.
Qed.

Lemma fixed_path_ignores_request_path_witness :
  (forall p,
     requestFilename Fixture.fixedPath
       (withPathname (Fixture.request "GET" "/a.txt" []) p)
     = path Fixture.fixedPath
     /\ resolve Fixture.host Fixture.fixedPath
          (withPathname (Fixture.request "GET" "/a.txt" []) p)
        = resolve Fixture.host Fixture.fixedPath
            (Fixture.request "GET" "/a.txt" []))
  /\ (exists outcome,
        resolve Fixture.host Fixture.fixedPath
          (Fixture.request "GET" "/a.txt" []) = Ok outcome)
  /\ (forall p hdrs stats q,
        resolvesTo Fixture.host Fixture.fixedPath
          (Fixture.request "GET" "/a.txt" []) hdrs stats q ->
        serveStatic Fixture.host Fixture.fixedPath
          (withPathname (Fixture.request "GET" "/a.txt" []) p) tt
        = serveStatic Fixture.host Fixture.fixedPath
            (Fixture.request "GET" "/a.txt" []) tt)
  /\ (forall p,
        resolve Fixture.host Fixture.fixedPath
          (Fixture.request "GET" "/a.txt" []) = Ok None ->
        serveStatic Fixture.host Fixture.fixedPath
          (withPathname (Fixture.request "GET" "/a.txt" []) p) tt
        = notFound Fixture.fixedPath
            (withPathname (Fixture.request "GET" "/a.txt" []) p) tt).
Proof.
  apply (fixed_path_ignores_request_path Fixture.host Fixture.fixedPath
           (Fixture.request "GET" "/a.txt" []) tt).
  reflexivity.
Defined.

(** ** Targets that do not exist *)

(** X3.  When nothing is found at the joined path, the request goes to the
    not-found collaborator, and that is all the handler does; without a
    configured collaborator the answer is the 404 text response. *)
Theorem missing_target_is_not_found {Env Ctx : Type} (host : Host Ctx)
    (options : ServeStaticOptions Env Ctx) req env filename name :
  requestFilename options req = Some filename ->
  joinedName host options filename = Ok name ->
  getStats (files host) (NodePath.join [default ""%string (root options); name])
  = None ->
  serveStatic host options req env = notFound options req env
  /\ resolve host options req = Ok None
  /\ (onNotFound options = None ->
      serveStatic host options req env
      = Ok {| status := 404;
              headers := [("content-type", "text/plain;charset=UTF-8")]%string;
              body := TextBody "Not Found" |}).
Proof.
  intros Hname Hjoined Hstat.
  assert (Htarget : target host options name
                    = (NodePath.join [default ""%string (root options); name],
                       None)).
  { unfold target. now rewrite Hstat. }
  assert (Hnf : serveStatic host options req env = notFound options req env).
  { unfold serveStatic, handler. rewrite Hname, Hjoined.
    cbn [mbind result_bind]. now rewrite Htarget. }
  split; [exact Hnf|]. split.
  - unfold resolve. rewrite Hname, Hjoined. cbn [mbind result_bind].
    now rewrite Htarget.
  - intros Hdefault. rewrite Hnf. unfold notFound. now rewrite Hdefault.
Qed.

Lemma missing_target_is_not_found_witness :
  serveStatic Fixture.host Fixture.options
    (Fixture.request "GET" "/nothing.txt" []) tt
  = notFound Fixture.options (Fixture.request "GET" "/nothing.txt" []) tt
  /\ resolve Fixture.host Fixture.options
       (Fixture.request "GET" "/nothing.txt" []) = Ok None
  /\ (onNotFound Fixture.options = None ->
      serveStatic Fixture.host Fixture.options
        (Fixture.request "GET" "/nothing.txt" []) tt
      = Ok {| status := 404;
              headers := [("content-type", "text/plain;charset=UTF-8")]%string;
              body := TextBody "Not Found" |}).
Proof.
  apply (missing_target_is_not_found Fixture.host Fixture.options
           (Fixture.request "GET" "/nothing.txt" []) tt
           "/nothing.txt" "/nothing.txt");
    vm_compute; reflexivity.
Defined.

(** ** What every response of the handler looks like *)

Lemma negotiate_keeps_header fs enabled mimeType req hdrs st p hdrs' st' p' name :
  JS.toLowerCase "Content-Encoding" <> JS.toLowerCase name ->
  JS.toLowerCase "Vary" <> JS.toLowerCase name ->
  negotiate fs enabled mimeType req hdrs st p = (hdrs', st', p') ->
  get hdrs' name = get hdrs name.
Proof.
  intros Hce Hvary. unfold negotiate.
  destruct (enabled && _); [|now intros [= <- _ _]].
  destruct (scanEncodings _ _ _ _) as [[[enc st1] p1]|]; [|now intros [= <- _ _]].
  intros [= <- _ _].
  now rewrite get_append_other, get_set_other.
Qed.

(** What a resolved request went through. *)
Lemma resolvesTo_inversion {Env Ctx : Type} (host : Host Ctx)
    (options : ServeStaticOptions Env Ctx) req hdrs stats q :
  resolvesTo host options req hdrs stats q ->
  exists filename name p st,
    requestFilename options req = Some filename
    /\ joinedName host options filename = Ok name
    /\ target host options name = (p, Some st)
    /\ negotiate (files host) (precompressed options) (getMimeType host p) req
         (set [] "Content-Type" (contentTypeOf host p)) st p
       = (hdrs, stats, q).
Proof.
  unfold resolvesTo, resolve.
  destruct (requestFilename options req) as [filename|]; [|discriminate].
  destruct (joinedName host options filename) as [name|e] eqn:Hjoined;
    cbn [mbind result_bind]; [|discriminate].
  destruct (target host options name) as [p [st|]] eqn:Htarget; [|discriminate].
  intros [= H]. exists filename, name, p, st. repeat split; assumption.
Qed.

Lemma contentTypeOf_not_empty {Ctx : Type} (host : Host Ctx) p :
  contentTypeOf host p <> EmptyString.
Proof.
  unfold contentTypeOf, JS.truthy.
  destruct (getMimeType host p) as [m|]; [|discriminate].
  destruct (String.eqb m "") eqn:E; cbn [negb]; [discriminate|].
  now apply String.eqb_neq.
Qed.

(** X5.  A response the handler builds carries the content type of the
    target as it was before any precompressed sibling took its place: the
    type the MIME lookup gives for that path, or application/octet-stream
    when the lookup gives none.  Stated for a type that the header list
    stores as given (no white space at its ends, no forbidden byte); the
    header is then never empty. *)
Theorem content_type_of_original {Env Ctx : Type} (host : Host Ctx)
    (options : ServeStaticOptions Env Ctx) req env filename name p st resp :
  requestFilename options req = Some filename ->
  joinedName host options filename = Ok name ->
  target host options name = (p, Some st) ->
  storedAsGiven (contentTypeOf host p) = true ->
  serveStatic host options req env = Ok resp ->
  get (headers resp) "Content-Type" = Some (contentTypeOf host p)
  /\ (exists v, get (headers resp) "Content-Type" = Some v /\ v <> EmptyString)
  /\ (getMimeType host p = None ->
      get (headers resp) "Content-Type" = Some "application/octet-stream"%string).
Proof.
  intros Hname Hjoined Htarget Hvalue Hresp.
  assert (Hct : get (headers resp) "Content-Type" = Some (contentTypeOf host p)).
  { unfold serveStatic, handler in Hresp. rewrite Hname, Hjoined in Hresp.
    cbn [mbind result_bind] in Hresp. rewrite Htarget in Hresp.
    fold (contentTypeOf host p) in Hresp.
    destruct (negotiate _ _ _ _ _ _ _) as [[hdrs stats] q] eqn:Hneg.
    rewrite (respond_keeps_header req hdrs stats q resp "Content-Type");
      [|names_differ..|exact Hresp].
    rewrite (negotiate_keeps_header _ _ _ _ _ _ _ _ _ _ "Content-Type"
               ltac:(names_differ) ltac:(names_differ) Hneg).
    apply get_set_same. }
  split; [exact Hct|]. split.
  - exists (contentTypeOf host p).
    split; [exact Hct|apply contentTypeOf_not_empty].
  - intros Hnone. rewrite Hct. unfold contentTypeOf. now rewrite Hnone.
Qed.

Lemma content_type_of_original_witness :
  get
    (headers
       {| status := 200;
          headers := [("content-type", "text/plain");
                      ("content-encoding", "br");
                      ("vary", "Accept-Encoding");
                      ("content-length", "120")]%string;
          body := StreamBody
                    (createStreamBody
                       {| rs_path := "public/a.txt.br";
                          rs_window := None |}) |})
    "Content-Type"
  = Some (contentTypeOf Fixture.host "public/a.txt")
  /\ (exists v,
        get
          (headers
             {| status := 200;
                headers := [("content-type", "text/plain");
                            ("content-encoding", "br");
                            ("vary", "Accept-Encoding");
                            ("content-length", "120")]%string;
                body := StreamBody
                          (createStreamBody
                             {| rs_path := "public/a.txt.br";
                                rs_window := None |}) |})
          "Content-Type" = Some v
        /\ v <> EmptyString)
  /\ (getMimeType Fixture.host "public/a.txt" = None ->
      get
        (headers
           {| status := 200;
              headers := [("content-type", "text/plain");
                          ("content-encoding", "br");
                          ("vary", "Accept-Encoding");
                          ("content-length", "120")]%string;
              body := StreamBody
                        (createStreamBody
                           {| rs_path := "public/a.txt.br";
                              rs_window := None |}) |})
        "Content-Type"
      = Some "application/octet-stream"%string).
Proof.
  apply (content_type_of_original Fixture.host Fixture.precompressing
           (Fixture.request "GET" "/a.txt"
              [("accept-encoding", "gzip, br")]%string)
           tt "/a.txt" "/a.txt" "public/a.txt" (Fixture.file 500));
    vm_compute; reflexivity.
Defined.

Lemma resolved_header_absent {Env Ctx : Type} (host : Host Ctx)
    (options : ServeStaticOptions Env Ctx) req hdrs stats q name :
  JS.toLowerCase "Content-Type" <> JS.toLowerCase name ->
  JS.toLowerCase "Content-Encoding" <> JS.toLowerCase name ->
  JS.toLowerCase "Vary" <> JS.toLowerCase name ->
  resolvesTo host options req hdrs stats q ->
  get hdrs name = None.
Proof.
  intros Hct Hce Hvary Hres.
  destruct (resolvesTo_inversion _ _ _ _ _ _ Hres)
    as (filename & nm & p & st & _ & _ & _ & Hneg).
  rewrite (negotiate_keeps_header _ _ _ _ _ _ _ _ _ _ name Hce Hvary Hneg).
  now rewrite get_set_other.
Qed.

(** X6.  Whatever the handler returns is either what the not-found
    collaborator returned, or a response for a resolved target with status
    200 or 206 and nothing else.  A 200 response carries the size of the
    target as Content-Length and none of the range headers: it has no
    Accept-Ranges, no Content-Range and no Date. *)
Theorem status_is_200_or_206 {Env Ctx : Type} (host : Host Ctx)
    (options : ServeStaticOptions Env Ctx) req env resp :
  serveStatic host options req env = Ok resp ->
  (resolve host options req = Ok None /\ notFound options req env = Ok resp)
  \/ exists hdrs stats q,
       resolvesTo host options req hdrs stats q
       /\ (status resp = 206
           \/ (status resp = 200
               /\ get (headers resp) "Content-Length"
                  = Some (JS.toString (size stats))
               /\ get (headers resp) "Accept-Ranges" = None
               /\ get (headers resp) "Content-Range" = None
               /\ get (headers resp) "Date" = None)).
Proof.
  rewrite handler_resolve.
  destruct (resolve host options req) as [[[[hdrs stats] q]|]|e] eqn:Hres;
    [|now left|discriminate].
  intros Hresp. right. exists hdrs, stats, q. split; [exact Hres|].
  assert (Habsent : forall name,
             JS.toLowerCase "Content-Type" <> JS.toLowerCase name ->
             JS.toLowerCase "Content-Encoding" <> JS.toLowerCase name ->
             JS.toLowerCase "Vary" <> JS.toLowerCase name ->
             JS.toLowerCase "Content-Length" <> JS.toLowerCase name ->
             get (set hdrs "Content-Length" (JS.toString (size stats))) name
             = None).
  { intros name H1 H2 H3 H4. rewrite get_set_other by assumption.
    exact (resolved_header_absent host options req hdrs stats q name
             H1 H2 H3 Hres). }
  unfold respond in Hresp.
  destruct (isHeadOrOptions req).
  - injection Hresp as <-. right. cbn [status headers].
    split; [reflexivity|]. split; [apply get_set_same|].
    repeat split; apply Habsent; names_differ.
  - destruct (String.eqb (default ""%string (get (req_headers req) "range")) "").
    + destruct (createReadStream q None) as [stream|e];
        cbn [mbind result_bind] in Hresp; [|discriminate].
      injection Hresp as <-. right. cbn [status headers].
      split; [reflexivity|]. split; [apply get_set_same|].
      repeat split; apply Habsent; names_differ.
    + destruct (rangeWindow _ _) as [start end_].
      destruct (createReadStream q (Some (start, end_))) as [stream|e];
        cbn [mbind result_bind] in Hresp; [|discriminate].
      injection Hresp as <-. now left.
Qed.

Lemma status_is_200_or_206_witness :
  (resolve Fixture.host Fixture.options (Fixture.request "GET" "/a.txt" [])
   = Ok None
   /\ notFound Fixture.options (Fixture.request "GET" "/a.txt" []) tt
      = Ok {| status := 200;
              headers := [("content-type", "text/plain");
                          ("content-length", "500")]%string;
              body := StreamBody
                        (createStreamBody
                           {| rs_path := "public/a.txt";
                              rs_window := None |}) |})
  \/ exists hdrs stats q,
       resolvesTo Fixture.host Fixture.options
         (Fixture.request "GET" "/a.txt" []) hdrs stats q
       /\ (status
             {| status := 200;
                headers := [("content-type", "text/plain");
                            ("content-length", "500")]%string;
                body := StreamBody
                          (createStreamBody
                             {| rs_path := "public/a.txt";
                                rs_window := None |}) |} = 206
           \/ (status
                 {| status := 200;
                    headers := [("content-type", "text/plain");
                                ("content-length", "500")]%string;
                    body := StreamBody
                              (createStreamBody
                                 {| rs_path := "public/a.txt";
                                    rs_window := None |}) |} = 200
               /\ get
                    (headers
                       {| status := 200;
                          headers := [("content-type", "text/plain");
                                      ("content-length", "500")]%string;
                          body := StreamBody
                                    (createStreamBody
                                       {| rs_path := "public/a.txt";
                                          rs_window := None |}) |})
                    "Content-Length"
                  = Some (JS.toString (size stats))
               /\ get [("content-type", "text/plain");
                       ("content-length", "500")]%string "Accept-Ranges" = None
               /\ get [("content-type", "text/plain");
                       ("content-length", "500")]%string "Content-Range" = None
               /\ get [("content-type", "text/plain");
                       ("content-length", "500")]%string "Date" = None)).
Proof.
  apply (status_is_200_or_206 Fixture.host Fixture.options
           (Fixture.request "GET" "/a.txt" []) tt).
  vm_compute. reflexivity.
Defined.

(** ** The negotiation of a precompressed sibling *)

Lemma servable_or_not fs (accepted : gset string) p key suffix :
  (exists st, key ∈ accepted /\ getStats fs (p +:+ suffix) = Some st)
  \/ ~ (key ∈ accepted /\ getStats fs (p +:+ suffix) <> None).
Proof.
  destruct (decide (key ∈ accepted)) as [Hin|Hout].
  - destruct (getStats fs (p +:+ suffix)) as [st|] eqn:E.
    + left. now exists st.
    + right. intros [_ H]. now apply H.
  - right. intros [H _]. now apply Hout.
Qed.

(** The scan ends in one of two ways. *)
Lemma scanEncodings_cases fs (accepted : gset string) p :
  (exists encoding suffix st,
     firstServable fs accepted p encoding suffix st
     /\ scanEncodings fs accepted ENCODINGS_ORDERED_KEYS p
        = Some (encoding, st, p +:+ suffix))
  \/ (noneServable fs accepted p
      /\ scanEncodings fs accepted ENCODINGS_ORDERED_KEYS p = None).
Proof.
  assert (Hfound : forall encoding suffix st,
             firstServable fs accepted p encoding suffix st ->
             exists encoding suffix st,
               firstServable fs accepted p encoding suffix st
               /\ scanEncodings fs accepted ENCODINGS_ORDERED_KEYS p
                  = Some (encoding, st, p +:+ suffix)).
  { intros encoding suffix st H. exists encoding, suffix, st.
    split; [exact H|now apply scanEncodings_first]. }
  destruct (servable_or_not fs accepted p "br" ".br") as [(st & Hin & Hst)|N1].
  { left. apply (Hfound "br" ".br" st)%string.
    exists [], [("zstd", ".zst"); ("gzip", ".gz")]%string.
    repeat split; auto. }
  destruct (servable_or_not fs accepted p "zstd" ".zst") as [(st & Hin & Hst)|N2].
  { left. apply (Hfound "zstd" ".zst" st)%string.
    exists [("br", ".br")]%string, [("gzip", ".gz")]%string.
    repeat split; auto. }
  destruct (servable_or_not fs accepted p "gzip" ".gz") as [(st & Hin & Hst)|N3].
  { left. apply (Hfound "gzip" ".gz" st)%string.
    exists [("br", ".br"); ("zstd", ".zst")]%string, [].
    repeat split; auto. }
  right. split.
  - unfold noneServable, ENCODINGS. repeat constructor; assumption.
  - change ENCODINGS_ORDERED_KEYS with ["br"; "zstd"; "gzip"]%string.
    rewrite (scanEncodings_skip fs accepted "br" _ p N1).
    rewrite (scanEncodings_skip fs accepted "zstd" _ p N2).
    rewrite (scanEncodings_skip fs accepted "gzip" _ p N3).
    reflexivity.
Qed.

Lemma firstServable_not_none fs (accepted : gset string) p encoding suffix st :
  firstServable fs accepted p encoding suffix st ->
  ~ noneServable fs accepted p.
Proof.
  intros (before & after & Htable & Hin & Hst & _) Hnone.
  unfold noneServable in Hnone. rewrite Htable in Hnone.
  apply Forall_app in Hnone as [_ Hnone].
  apply Forall_cons in Hnone as [Hnone _].
  apply Hnone. cbn [fst snd]. split; [exact Hin|congruence].
Qed.

(** X7.  The loop over the encodings returns a sibling exactly when some
    entry of the table is both accepted and present beside the path, and
    then it returns the first such entry in table order, with the stats of
    the sibling and the path extended by the entry's suffix; it returns
    nothing exactly when no entry is both accepted and present. *)
Theorem scan_finds_first_servable fs (accepted : gset string) p :
  (forall encoding st p',
     scanEncodings fs accepted ENCODINGS_ORDERED_KEYS p = Some (encoding, st, p')
     <-> exists suffix,
           p' = p +:+ suffix
           /\ firstServable fs accepted p encoding suffix st)
  /\ (scanEncodings fs accepted ENCODINGS_ORDERED_KEYS p = None
      <-> noneServable fs accepted p).
Proof.
  split.
  - intros encoding st p'. split.
    + intros H.
      destruct (scanEncodings_cases fs accepted p)
        as [(enc & suffix & st' & Hfirst & Hscan)|[_ Hscan]];
        rewrite Hscan in H; [|discriminate].
      injection H as <- <- <-. now exists suffix.
    + intros (suffix & -> & Hfirst). now apply scanEncodings_first.
  - split.
    + intros H.
      destruct (scanEncodings_cases fs accepted p)
        as [(enc & suffix & st' & Hfirst & Hscan)|[Hnone _]];
        [rewrite Hscan in H; discriminate|exact Hnone].
    + intros Hnone.
      destruct (scanEncodings_cases fs accepted p)
        as [(enc & suffix & st' & Hfirst & Hscan)|[_ Hscan]];
        [|exact Hscan].
      exfalso. exact (firstServable_not_none _ _ _ _ _ _ Hfirst Hnone).
Qed.

Lemma negotiate_unchanged fs enabled mimeType req hdrs st p :
  enabled = false
  \/ (JS.truthy mimeType = true
      /\ Regex.test COMPRESSIBLE_CONTENT_TYPE_REGEX (default ""%string mimeType)
         = false)
  \/ noneServable fs (acceptEncodingSet req) p ->
  negotiate fs enabled mimeType req hdrs st p = (hdrs, st, p).
Proof.
  unfold negotiate. intros [->|[[-> ->]|Hnone]].
  - reflexivity.
  - now rewrite andb_false_r.
  - destruct (enabled && _); [|reflexivity].
    destruct (scanEncodings_cases fs (acceptEncodingSet req) p)
      as [(enc & suffix & st' & Hfirst & _)|[_ ->]]; [|reflexivity].
    exfalso. exact (firstServable_not_none _ _ _ _ _ _ Hfirst Hnone).
Qed.

(** X8.  The target is served as it is, with no Content-Encoding and no
    Vary header, in each of three cases: precompression is not enabled;
    the content type of the target is known and not compressible; or no
    encoding of the table is both among the tokens of Accept-Encoding and
    present as a sibling file.  A token with a parameter, such as
    [br;q=1.0], is not the token [br]. *)
Theorem target_served_as_is {Env Ctx : Type} (host : Host Ctx)
    (options : ServeStaticOptions Env Ctx) req env filename name p st :
  requestFilename options req = Some filename ->
  joinedName host options filename = Ok name ->
  target host options name = (p, Some st) ->
  precompressed options = false
  \/ (JS.truthy (getMimeType host p) = true
      /\ Regex.test COMPRESSIBLE_CONTENT_TYPE_REGEX
           (default ""%string (getMimeType host p)) = false)
  \/ noneServable (files host) (acceptEncodingSet req) p ->
  resolvesTo host options req
    (set [] "Content-Type" (contentTypeOf host p)) st p
  /\ serveStatic host options req env
     = respond req (set [] "Content-Type" (contentTypeOf host p)) st p
  /\ forall resp,
       serveStatic host options req env = Ok resp ->
       get (headers resp) "Content-Encoding" = None
       /\ get (headers resp) "Vary" = None.
Proof.
  intros Hname Hjoined Htarget Hcase.
  assert (Hres : resolvesTo host options req
                   (set [] "Content-Type" (contentTypeOf host p)) st p).
  { unfold resolvesTo, resolve. rewrite Hname, Hjoined.
    cbn [mbind result_bind]. rewrite Htarget.
    fold (contentTypeOf host p).
    now rewrite (negotiate_unchanged _ _ _ _ _ _ _ Hcase). }
  split; [exact Hres|].
  split; [now apply handler_resolved|].
  intros resp Hresp. rewrite (handler_resolved _ _ _ _ _ _ _ Hres) in Hresp.
  split.
  - rewrite (respond_keeps_header req
               (set [] "Content-Type" (contentTypeOf host p)) st p resp
               "Content-Encoding");
      [|names_differ..|exact Hresp].
    now rewrite get_set_other by names_differ.
  - rewrite (respond_keeps_header req
               (set [] "Content-Type" (contentTypeOf host p)) st p resp
               "Vary");
      [|names_differ..|exact Hresp].
    now rewrite get_set_other by names_differ.
Qed.

Lemma target_served_as_is_witness :
  resolvesTo Fixture.host Fixture.precompressing
    (Fixture.request "GET" "/a.txt"
       [("accept-encoding", "br;q=1.0, gzip;q=0.5")]%string)
    (set [] "Content-Type" (contentTypeOf Fixture.host "public/a.txt"))
    (Fixture.file 500) "public/a.txt"
  /\ serveStatic Fixture.host Fixture.precompressing
       (Fixture.request "GET" "/a.txt"
          [("accept-encoding", "br;q=1.0, gzip;q=0.5")]%string) tt
     = respond
         (Fixture.request "GET" "/a.txt"
            [("accept-encoding", "br;q=1.0, gzip;q=0.5")]%string)
         (set [] "Content-Type" (contentTypeOf Fixture.host "public/a.txt"))
         (Fixture.file 500) "public/a.txt"
  /\ forall resp,
       serveStatic Fixture.host Fixture.precompressing
         (Fixture.request "GET" "/a.txt"
            [("accept-encoding", "br;q=1.0, gzip;q=0.5")]%string) tt
       = Ok resp ->
       get (headers resp) "Content-Encoding" = None
       /\ get (headers resp) "Vary" = None.
Proof.
  apply (target_served_as_is Fixture.host Fixture.precompressing
           (Fixture.request "GET" "/a.txt"
              [("accept-encoding", "br;q=1.0, gzip;q=0.5")]%string)
           tt "/a.txt" "/a.txt" "public/a.txt" (Fixture.file 500));
    [reflexivity..|].
  right. right. unfold noneServable, ENCODINGS.
  repeat constructor; cbn [fst snd]; intros [Hin _]; revert Hin;
    vm_compute; intros Hin; decompose [or] Hin; discriminate.
Defined.

(** ** A directory with an index file *)

(** X4.  A request that names a directory whose index file exists is
    answered from the index file whenever no precompressed sibling takes
    its place, that is when precompression is off, the content type of the
    index file is known and not compressible, or no accepted encoding has
    a sibling on disk: the target has the path and the stats of the index
    file and the content type of its name, and a request other than HEAD
    and OPTIONS without a Range header gets status 200, the size of the
    index file as Content-Length and a stream over the whole of it. *)
Theorem directory_index_is_served {Env Ctx : Type} (host : Host Ctx)
    (options : ServeStaticOptions Env Ctx) req env filename name dir file :
  requestFilename options req = Some filename ->
  joinedName host options filename = Ok name ->
  getStats (files host) (NodePath.join [default ""%string (root options); name])
  = Some dir ->
  isDirectory dir = true ->
  getStats (files host)
    (NodePath.join
       [NodePath.join [default ""%string (root options); name];
        default "index.html"%string (index options)])
  = Some file ->
  precompressed options = false
  \/ (JS.truthy
        (getMimeType host
           (NodePath.join
              [NodePath.join [default ""%string (root options); name];
               default "index.html"%string (index options)])) = true
      /\ Regex.test COMPRESSIBLE_CONTENT_TYPE_REGEX
           (default ""%string
              (getMimeType host
                 (NodePath.join
                    [NodePath.join [default ""%string (root options); name];
                     default "index.html"%string (index options)])))
         = false)
  \/ noneServable (files host) (acceptEncodingSet req)
       (NodePath.join
          [NodePath.join [default ""%string (root options); name];
           default "index.html"%string (index options)]) ->
  resolvesTo host options req
    (set [] "Content-Type"
       (contentTypeOf host
          (NodePath.join
             [NodePath.join [default ""%string (root options); name];
              default "index.html"%string (index options)])))
    file
    (NodePath.join
       [NodePath.join [default ""%string (root options); name];
        default "index.html"%string (index options)])
  /\ (isHeadOrOptions req = false ->
      get (req_headers req) "range" = None ->
      exists resp stream,
        serveStatic host options req env = Ok resp
        /\ status resp = 200
        /\ get (headers resp) "Content-Type"
           = get
               (set [] "Content-Type"
                  (contentTypeOf host
                     (NodePath.join
                        [NodePath.join
                           [default ""%string (root options); name];
                         default "index.html"%string (index options)])))
               "Content-Type"
        /\ get (headers resp) "Content-Length" = Some (JS.toString (size file))
        /\ body resp = StreamBody stream
        /\ source stream
           = {| rs_path :=
                  NodePath.join
                    [NodePath.join [default ""%string (root options); name];
                     default "index.html"%string (index options)];
                rs_window := None |}).
Proof.
  intros Hname Hjoined Hdir Hisdir Hindex Hcase.
  set (indexPath :=
         NodePath.join
           [NodePath.join [default ""%string (root options); name];
            default "index.html"%string (index options)]) in *.
  assert (Htarget : target host options name = (indexPath, Some file)).
  { unfold target. rewrite Hdir, Hisdir. fold indexPath. now rewrite Hindex. }
  assert (Hres : resolvesTo host options req
                   (set [] "Content-Type" (contentTypeOf host indexPath))
                   file indexPath).
  { unfold resolvesTo, resolve. rewrite Hname, Hjoined.
    cbn [mbind result_bind]. rewrite Htarget.
    fold (contentTypeOf host indexPath).
    now rewrite (negotiate_unchanged _ _ _ _ _ _ _ Hcase). }
  split; [exact Hres|].
  intros Hmethod Hrange.
  rewrite (handler_resolved _ _ _ _ _ _ _ Hres).
  unfold respond. rewrite Hmethod, Hrange.
  cbn [default from_option id String.eqb].
  rewrite createReadStream_whole by (eapply getStats_valid; exact Hindex).
  cbn [mbind result_bind].
  eexists; eexists; split; [reflexivity|]. cbn [status headers body source].
  split; [reflexivity|]. split.
  { now rewrite get_set_other by names_differ. }
  split; [apply get_set_same|]. split; reflexivity.
Qed.

Lemma directory_index_is_served_witness :
  resolvesTo Fixture.host Fixture.precompressing
    (Fixture.request "GET" "/site/" [("accept-encoding", "br")]%string)
    (set [] "Content-Type"
       (contentTypeOf Fixture.host "public/site/index.html"))
    (Fixture.file 77) "public/site/index.html"
  /\ (isHeadOrOptions
        (Fixture.request "GET" "/site/" [("accept-encoding", "br")]%string)
      = false ->
      get
        (req_headers
           (Fixture.request "GET" "/site/"
              [("accept-encoding", "br")]%string))
        "range" = None ->
      exists resp stream,
        serveStatic Fixture.host Fixture.precompressing
          (Fixture.request "GET" "/site/" [("accept-encoding", "br")]%string)
          tt = Ok resp
        /\ status resp = 200
        /\ get (headers resp) "Content-Type"
           = get
               (set [] "Content-Type"
                  (contentTypeOf Fixture.host "public/site/index.html"))
               "Content-Type"
        /\ get (headers resp) "Content-Length" = Some "77"%string
        /\ body resp = StreamBody stream
        /\ source stream
           = {| rs_path := "public/site/index.html"; rs_window := None |}).
Proof.
  apply (directory_index_is_served Fixture.host Fixture.precompressing
           (Fixture.request "GET" "/site/" [("accept-encoding", "br")]%string)
           tt "/site/" "/site/" Fixture.directory (Fixture.file 77));
    [reflexivity..|].
  right. right. unfold noneServable, ENCODINGS.
  repeat constructor; cbn [fst snd]; intros [_ Hstat]; apply Hstat;
    vm_compute; reflexivity.
Defined.

(** X9.  A response of the handler carries a Content-Encoding header only
    when precompression is enabled, the encoding is one of the tokens of
    the request's Accept-Encoding header and an entry of the table, and
    the file served is the sibling with that entry's suffix, which exists;
    the response then has [Vary: Accept-Encoding] as well.  The handler
    never answers with an encoding the client did not list. *)
Theorem encoding_only_if_accepted {Env Ctx : Type} (host : Host Ctx)
    (options : ServeStaticOptions Env Ctx) req env hdrs stats q resp encoding :
  resolvesTo host options req hdrs stats q ->
  serveStatic host options req env = Ok resp ->
  get (headers resp) "Content-Encoding" = Some encoding ->
  precompressed options = true
  /\ encoding ∈ acceptEncodingSet req
  /\ (exists p suffix,
        In (encoding, suffix) ENCODINGS
        /\ q = p +:+ suffix
        /\ getStats (files host) q = Some stats)
  /\ get (headers resp) "Vary" = Some "Accept-Encoding"%string.
Proof.
  intros Hres Hresp Hce.
  rewrite (handler_resolved _ _ _ _ _ _ _ Hres) in Hresp.
  rewrite (respond_keeps_header req hdrs stats q resp "Content-Encoding")
    in Hce; [|names_differ..|exact Hresp].
  rewrite (respond_keeps_header req hdrs stats q resp "Vary");
    [|names_differ..|exact Hresp].
  destruct (resolvesTo_inversion _ _ _ _ _ _ Hres)
    as (filename & name & p & st & _ & _ & _ & Hneg).
  unfold negotiate in Hneg.
  destruct (precompressed options); cbn [andb] in Hneg.
  2:{ assert (Hh : set [] "Content-Type" (contentTypeOf host p) = hdrs)
        by congruence.
      rewrite <- Hh, get_set_other in Hce by names_differ. discriminate. }
  destruct (negb _ || _).
  2:{ assert (Hh : set [] "Content-Type" (contentTypeOf host p) = hdrs)
        by congruence.
      rewrite <- Hh, get_set_other in Hce by names_differ. discriminate. }
  destruct (scanEncodings_cases (files host) (acceptEncodingSet req) p)
    as [(enc & suffix & st' & Hfirst & Hscan)|[_ Hscan]];
    rewrite Hscan in Hneg.
  2:{ assert (Hh : set [] "Content-Type" (contentTypeOf host p) = hdrs)
        by congruence.
      rewrite <- Hh, get_set_other in Hce by names_differ. discriminate. }
  assert (Hh : append
                 (set (set [] "Content-Type" (contentTypeOf host p))
                    "Content-Encoding" enc)
                 "Vary" "Accept-Encoding" = hdrs) by congruence.
  assert (Hs : st' = stats) by congruence.
  assert (Hp : p +:+ suffix = q) by congruence.
  clear Hneg. subst hdrs stats q.
  rewrite get_append_other, get_set_same in Hce by names_differ.
  injection Hce as <-.
  destruct Hfirst as (before & after & Htable & Hin & Hst & _).
  split; [reflexivity|]. split; [exact Hin|]. split.
  - exists p, suffix. split; [|split; [reflexivity|exact Hst]].
    rewrite Htable. apply in_or_app. right. now left.
  - apply get_append_fresh.
    now rewrite get_set_other by names_differ.
Qed.

Lemma encoding_only_if_accepted_witness :
  precompressed Fixture.precompressing = true
  /\ "gzip"%string
     ∈ acceptEncodingSet
         (Fixture.request "GET" "/a.txt" [("accept-encoding", "gzip")]%string)
  /\ (exists p suffix,
        In ("gzip"%string, suffix) ENCODINGS
        /\ "public/a.txt.gz"%string = p +:+ suffix
        /\ getStats (files Fixture.host) "public/a.txt.gz"
           = Some (Fixture.file 150))
  /\ get
       (headers
          {| status := 200;
             headers := [("content-type", "text/plain");
                         ("content-encoding", "gzip");
                         ("vary", "Accept-Encoding");
                         ("content-length", "150")]%string;
             body := StreamBody
                       (createStreamBody
                          {| rs_path := "public/a.txt.gz";
                             rs_window := None |}) |})
       "Vary"
     = Some "Accept-Encoding"%string.
Proof.
  apply (encoding_only_if_accepted Fixture.host Fixture.precompressing
           (Fixture.request "GET" "/a.txt" [("accept-encoding", "gzip")]%string)
           tt
           [("content-type", "text/plain"); ("content-encoding", "gzip");
            ("vary", "Accept-Encoding")]%string
           (Fixture.file 150) "public/a.txt.gz");
    vm_compute; reflexivity.
Defined.

(** ** HEAD and OPTIONS against GET *)

Lemma resolve_withMethod {Env Ctx : Type} (host : Host Ctx)
    (options : ServeStaticOptions Env Ctx) req m :
  resolve host options (withMethod req m) = resolve host options req.
Proof. reflexivity. Qed.

(** X10.  For a target that resolves, the answer to HEAD or OPTIONS is the
    answer to the same request sent with another method and without a
    Range header, minus the body: the status and every header are the
    same. *)
Theorem head_is_get_without_body {Env Ctx : Type} (host : Host Ctx)
    (options : ServeStaticOptions Env Ctx) req env hdrs stats q :
  resolvesTo host options req hdrs stats q ->
  isHeadOrOptions req = false ->
  JS.truthy (get (req_headers req) "range") = false ->
  exists resp stream,
    serveStatic host options req env = Ok resp
    /\ body resp = StreamBody stream
    /\ forall m,
         m = "HEAD"%string \/ m = "OPTIONS"%string ->
         serveStatic host options (withMethod req m) env
         = Ok {| status := status resp; headers := headers resp;
                 body := NoBody |}.
Proof.
  intros Hres Hmethod Hrange.
  assert (Hq : hasNul q = false)
    by (eapply getStats_valid, resolvesTo_stats; exact Hres).
  assert (Hempty : String.eqb (default ""%string (get (req_headers req) "range"))
                     "" = true).
  { unfold JS.truthy in Hrange.
    destruct (get (req_headers req) "range") as [range|]; [|reflexivity].
    cbn [default from_option id]. now apply negb_false_iff. }
  eexists; eexists. split; [|split].
  - rewrite (handler_resolved _ _ _ _ _ _ _ Hres).
    unfold respond. rewrite Hmethod, Hempty.
    rewrite (createReadStream_whole _ Hq). cbn [mbind result_bind].
    reflexivity.
  - reflexivity.
  - intros m Hm.
    assert (Hres' : resolvesTo host options (withMethod req m) hdrs stats q)
      by exact Hres.
    rewrite (handler_resolved _ _ _ _ _ _ _ Hres').
    unfold respond.
    assert (isHeadOrOptions (withMethod req m) = true) as ->
      by (destruct Hm as [-> | ->]; reflexivity).
    reflexivity.
Qed.

Lemma head_is_get_without_body_witness :
  exists resp stream,
    serveStatic Fixture.host Fixture.options
      (Fixture.request "GET" "/a.txt" []) tt = Ok resp
    /\ body resp = StreamBody stream
    /\ forall m,
         m = "HEAD"%string \/ m = "OPTIONS"%string ->
         serveStatic Fixture.host Fixture.options
           (withMethod (Fixture.request "GET" "/a.txt" []) m) tt
         = Ok {| status := status resp; headers := headers resp;
                 body := NoBody |}.
Proof.
  apply (head_is_get_without_body Fixture.host Fixture.options
           (Fixture.request "GET" "/a.txt" []) tt
           [("content-type", "text/plain")]%string (Fixture.file 500)
           "public/a.txt"); reflexivity.
Defined.

(** ** The window of a Range request *)

Lemma split_pieces_without_separator sep s :
  List.Forall (fun piece => occurs sep piece = false) (JS.split sep s).
Proof.
  induction s as [|c s IH]; cbn [JS.split].
  - repeat constructor.
  - destruct (Ascii.eqb c sep) eqn:E.
    + constructor; [reflexivity|exact IH].
    + destruct (JS.split sep s) as [|h t].
      * repeat constructor. cbn [occurs]. now rewrite E.
      * apply List.Forall_cons_iff in IH as [Hh Ht].
        constructor; [|exact Ht]. cbn [occurs]. now rewrite E, Hh.
Qed.

Lemma split_limit_piece sep limit s i piece :
  nth_error (JS.split_limit sep limit s) i = Some piece ->
  occurs sep piece = false.
Proof.
  intros H. apply nth_error_In in H.
  unfold JS.split_limit in H.
  assert (Hin : In piece (JS.split sep s)).
  { rewrite <- (firstn_skipn limit (JS.split sep s)).
    apply in_or_app. now left. }
  pose proof (split_pieces_without_separator sep s) as Hall.
  rewrite List.Forall_forall in Hall. now apply Hall.
Qed.

Lemma occurs_trimStart c s :
  occurs c s = false -> occurs c (JS.trimStart s) = false.
Proof.
  induction s as [|x s IH]; [reflexivity|].
  cbn [JS.trimStart]. destruct (JS.isWhiteSpace x); [|tauto].
  cbn [occurs]. intros H. apply orb_false_iff in H as [_ H]. now apply IH.
Qed.

Lemma digit_bounds c d : JS.digit c = Some d -> 0 <= d <= 9.
Proof.
  unfold JS.digit.
  destruct ((48 <=? JS.code c) && (JS.code c <=? 57)) eqn:E; [|discriminate].
  intros [= <-]. apply andb_true_iff in E as [H1 H2].
  apply Z.leb_le in H1, H2. lia.
Qed.

Lemma digits_nonneg s : forall acc, 0 <= acc -> 0 <= JS.digits acc s.
Proof.
  induction s as [|c s IH]; intros acc Hacc; cbn [JS.digits]; [exact Hacc|].
  destruct (JS.digit c) as [d|] eqn:E; [|exact Hacc].
  apply IH. pose proof (digit_bounds _ _ E). lia.
Qed.

(** Without a minus sign in the text, [parseInt] gives no negative
    number. *)
Lemma parseInt_nonneg s z :
  occurs "-" s = false -> JS.parseInt s = Some z -> 0 <= z.
Proof.
  intros Hdash. unfold JS.parseInt.
  pose proof (occurs_trimStart "-" s Hdash) as Htrim.
  destruct (JS.trimStart s) as [|c r]; [discriminate|].
  cbn [occurs] in Htrim. apply orb_false_iff in Htrim as [Hc _].
  rewrite Hc.
  assert (Hread : forall t, JS.readNumber 1 t = Some z -> 0 <= z).
  { intros t. unfold JS.readNumber. destruct t as [|x t]; [discriminate|].
    destruct (JS.digit x); [|discriminate].
    intros Hz.
    assert (Heq : z = 1 * JS.digits 0 (String x t)) by congruence.
    rewrite Heq, Z.mul_1_l. now apply digits_nonneg. }
  destruct (Ascii.eqb c "+"); apply Hread.
Qed.

Lemma parseInt_arg_piece parts i z :
  (forall piece, nth_error parts i = Some piece -> occurs "-" piece = false) ->
  JS.parseInt_arg (nth_error parts i) = Some z -> 0 <= z.
Proof.
  intros Hpiece. unfold JS.parseInt_arg.
  destruct (nth_error parts i) as [piece|].
  - apply parseInt_nonneg. now apply Hpiece.
  - apply parseInt_nonneg. reflexivity.
Qed.

Lemma or_number_nonneg n d :
  (forall z, n = Some z -> 0 <= z) -> 0 <= d -> 0 <= JS.or_number n d.
Proof.
  intros Hn Hd. unfold JS.or_number. destruct n as [z|]; [|exact Hd].
  destruct (z =? 0); [exact Hd|now apply Hn].
Qed.

Lemma or_number_default_or_positive n d :
  (forall z, n = Some z -> 0 <= z) ->
  JS.or_number n d = d \/ 1 <= JS.or_number n d.
Proof.
  intros Hn. unfold JS.or_number. destruct n as [z|]; [|now left].
  destruct (z =? 0) eqn:Ez; [now left|right].
  apply Z.eqb_neq in Ez. specialize (Hn z eq_refl). lia.
Qed.

Lemma requestedRange_bounds range size start end_ :
  requestedRange range size = (start, end_) ->
  0 <= start /\ (end_ = size - 1 \/ 1 <= end_).
Proof.
  intros H.
  assert (Hs : start = fst (requestedRange range size)) by now rewrite H.
  assert (He : end_ = snd (requestedRange range size)) by now rewrite H.
  rewrite Hs, He. unfold requestedRange. cbn [fst snd]. split.
  - apply or_number_nonneg; [|lia].
    intros z. apply parseInt_arg_piece. intros piece. apply split_limit_piece.
  - apply or_number_default_or_positive.
    intros z. apply parseInt_arg_piece. intros piece. apply split_limit_piece.
Qed.

Lemma rangeWindow_bounds range size start end_ :
  rangeWindow range size = (start, end_) ->
  0 <= start
  /\ end_ - start + 1 <= size
  /\ (end_ = size - 1 \/ 1 <= end_).
Proof.
  unfold rangeWindow.
  destruct (requestedRange range size) as [s e] eqn:Hreq.
  intros [= <- <-].
  destruct (requestedRange_bounds _ _ _ _ Hreq) as [Hs He].
  unfold clampEnd. destruct (size <? e - s + 1) eqn:Hlt.
  - apply Z.ltb_lt in Hlt. repeat split; [lia..|now left].
  - apply Z.ltb_ge in Hlt. repeat split; [lia..|exact He].
Qed.


Lemma createReadStream_accepts p start end_ stream :
  createReadStream p (Some (start, end_)) = Ok stream ->
  acceptableWindow start end_
  /\ stream = {| rs_path := p; rs_window := Some (start, end_) |}.
Proof.
  unfold createReadStream, validatePath, validateInteger.
  destruct (hasNul p); [discriminate|]. cbn [mbind result_bind].
  destruct ((0 <=? start) && (start <=? MAX_SAFE_INTEGER)) eqn:Hs;
    cbn [mbind result_bind]; [|discriminate].
  destruct ((0 <=? end_) && (end_ <=? MAX_SAFE_INTEGER)) eqn:He;
    cbn [mbind result_bind]; [|discriminate].
  destruct (end_ <? start) eqn:Hlt; [discriminate|].
  intros [= <-].
  apply andb_true_iff in Hs as [Hs1 Hs2]. apply andb_true_iff in He as [He1 He2].
  apply Z.leb_le in Hs1, Hs2, He1, He2. apply Z.ltb_ge in Hlt.
  split; [|reflexivity]. unfold acceptableWindow. lia.
Qed.

(** X12.  A 206 response for a resolved target always describes a window
    inside the arithmetic of the file: the request was neither HEAD nor
    OPTIONS and had a Range value that is not empty, the window satisfies
    [0 <= start <= end], its length is at least one byte and at most the
    size of the target, that length is the Content-Length, and the body
    reads that window of the target. *)
Theorem partial_response_shape {Env Ctx : Type} (host : Host Ctx)
    (options : ServeStaticOptions Env Ctx) req env hdrs stats q resp :
  resolvesTo host options req hdrs stats q ->
  serveStatic host options req env = Ok resp ->
  status resp = 206 ->
  exists range start end_,
    isHeadOrOptions req = false
    /\ get (req_headers req) "range" = Some range
    /\ range <> EmptyString
    /\ rangeWindow range (size stats) = (start, end_)
    /\ 0 <= start <= end_
    /\ 1 <= end_ - start + 1 <= size stats
    /\ get (headers resp) "Content-Length"
       = Some (JS.toString (end_ - start + 1))
    /\ body resp
       = StreamBody
           (createStreamBody
              {| rs_path := q; rs_window := Some (start, end_) |}).
Proof.
  intros Hres Hresp Hstatus.
  rewrite (handler_resolved _ _ _ _ _ _ _ Hres) in Hresp.
  unfold respond in Hresp.
  destruct (isHeadOrOptions req) eqn:Hmethod.
  { injection Hresp as <-. discriminate Hstatus. }
  destruct (get (req_headers req) "range") as [range|] eqn:Hrange;
    cbn [default from_option id] in Hresp.
  2:{ cbn [String.eqb] in Hresp.
      destruct (createReadStream q None); cbn [mbind result_bind] in Hresp;
        [|discriminate].
      injection Hresp as <-. discriminate Hstatus. }
  destruct (String.eqb range "") eqn:Hempty.
  { destruct (createReadStream q None); cbn [mbind result_bind] in Hresp;
      [|discriminate].
    injection Hresp as <-. discriminate Hstatus. }
  destruct (rangeWindow range (size stats)) as [start end_] eqn:Hwindow.
  destruct (createReadStream q (Some (start, end_))) as [stream|e] eqn:Hstream;
    cbn [mbind result_bind] in Hresp; [|discriminate].
  apply createReadStream_accepts in Hstream as [[Hord Hmax] ->].
  destruct (rangeWindow_bounds _ _ _ _ Hwindow) as (H0 & Hlen & _).
  exists range, start, end_.
  split; [reflexivity|]. split; [reflexivity|].
  split; [now apply String.eqb_neq|]. split; [exact Hwindow|].
  split; [exact Hord|]. split; [lia|].
  injection Hresp as <-. cbn [headers body]. split; [|reflexivity].
  rewrite get_set_other by names_differ. apply get_set_same.
Qed.

Lemma partial_response_shape_witness :
  exists range start end_,
    isHeadOrOptions
      (Fixture.request "GET" "/a.txt" [("range", "bytes=400-999")]%string)
    = false
    /\ get
         (req_headers
            (Fixture.request "GET" "/a.txt"
               [("range", "bytes=400-999")]%string))
         "range"
       = Some range
    /\ range <> EmptyString
    /\ rangeWindow range (size (Fixture.file 500)) = (start, end_)
    /\ 0 <= start <= end_
    /\ 1 <= end_ - start + 1 <= size (Fixture.file 500)
    /\ get
         (headers
            {| status := 206;
               headers := [("content-type", "text/plain");
                           ("accept-ranges", "bytes");
                           ("date", "Sun, 09 Sep 2001 01:46:40 GMT");
                           ("content-length", "100");
                           ("content-range", "bytes 400-499/500")]%string;
               body :=
                 StreamBody
                   (createStreamBody
                      {| rs_path := "public/a.txt";
                         rs_window := Some (400, 499) |}) |})
         "Content-Length"
       = Some (JS.toString (end_ - start + 1))
    /\ body
         {| status := 206;
            headers := [("content-type", "text/plain");
                        ("accept-ranges", "bytes");
                        ("date", "Sun, 09 Sep 2001 01:46:40 GMT");
                        ("content-length", "100");
                        ("content-range", "bytes 400-499/500")]%string;
            body :=
              StreamBody
                (createStreamBody
                   {| rs_path := "public/a.txt";
                      rs_window := Some (400, 499) |}) |}
       = StreamBody
           (createStreamBody
              {| rs_path := "public/a.txt";
                 rs_window := Some (start, end_) |}).
Proof.
  apply (partial_response_shape Fixture.host Fixture.options
           (Fixture.request "GET" "/a.txt" [("range", "bytes=400-999")]%string)
           tt [("content-type", "text/plain")]%string (Fixture.file 500)
           "public/a.txt"); reflexivity.
Defined.

(** X13.  A request with a Range value that is not empty, other than HEAD
    and OPTIONS, against a resolved target has exactly two outcomes: a
    response when the window has [start <= end <= 2^53 - 1], and a
    RangeError thrown to the caller otherwise.  There is no 416 and no
    fallback to the whole file. *)
Theorem ranged_request_answers_or_throws {Env Ctx : Type} (host : Host Ctx)
    (options : ServeStaticOptions Env Ctx) req env hdrs stats q range
    start end_ :
  resolvesTo host options req hdrs stats q ->
  isHeadOrOptions req = false ->
  get (req_headers req) "range" = Some range ->
  range <> EmptyString ->
  rangeWindow range (size stats) = (start, end_) ->
  (start <= end_ <= MAX_SAFE_INTEGER ->
   exists resp,
     serveStatic host options req env = Ok resp /\ status resp = 206)
  /\ (~ start <= end_ <= MAX_SAFE_INTEGER ->
      exists argument,
        serveStatic host options req env = Throw (RangeError argument)).
Proof.
  intros Hres Hmethod Hrange Hne Hwindow.
  assert (Hq : hasNul q = false)
    by (eapply getStats_valid, resolvesTo_stats; exact Hres).
  destruct (rangeWindow_bounds _ _ _ _ Hwindow) as (H0 & _ & _).
  rewrite (handler_resolved _ _ _ _ _ _ _ Hres).
  rewrite (respond_range req hdrs stats q range start end_
             Hmethod Hrange Hne Hwindow).
  split.
  - intros [Hord Hmax].
    rewrite (createReadStream_window q start end_ Hq)
      by (unfold acceptableWindow; lia).
    cbn [mbind result_bind]. eexists. split; reflexivity.
  - intros Hnot.
    unfold createReadStream, validatePath, validateInteger.
    rewrite Hq. cbn [mbind result_bind].
    destruct ((0 <=? start) && (start <=? MAX_SAFE_INTEGER)) eqn:Hs;
      cbn [mbind result_bind]; [|now eexists].
    destruct ((0 <=? end_) && (end_ <=? MAX_SAFE_INTEGER)) eqn:He;
      cbn [mbind result_bind]; [|now eexists].
    destruct (end_ <? start) eqn:Hlt; [now eexists|].
    exfalso. apply Hnot.
    apply andb_true_iff in He as [_ He]. apply Z.leb_le in He.
    apply Z.ltb_ge in Hlt. lia.
Qed.

Lemma ranged_request_answers_or_throws_witness :
  (600 <= 499 <= MAX_SAFE_INTEGER ->
   exists resp,
     serveStatic Fixture.host Fixture.options
       (Fixture.request "GET" "/a.txt" [("range", "bytes=600-")]%string) tt
     = Ok resp
     /\ status resp = 206)
  /\ (~ 600 <= 499 <= MAX_SAFE_INTEGER ->
      exists argument,
        serveStatic Fixture.host Fixture.options
          (Fixture.request "GET" "/a.txt" [("range", "bytes=600-")]%string) tt
        = Throw (RangeError argument)).
Proof.
  apply (ranged_request_answers_or_throws Fixture.host Fixture.options
           (Fixture.request "GET" "/a.txt" [("range", "bytes=600-")]%string)
           tt [("content-type", "text/plain")]%string (Fixture.file 500)
           "public/a.txt" "bytes=600-" 600 499);
    [reflexivity..|discriminate|reflexivity].
Defined.

(** X14.  Against an empty file every Range value that is not empty makes
    the handler throw: the window never fits a file of zero bytes. *)
Theorem empty_file_range_throws {Env Ctx : Type} (host : Host Ctx)
    (options : ServeStaticOptions Env Ctx) req env hdrs stats q range :
  resolvesTo host options req hdrs stats q ->
  size stats = 0 ->
  isHeadOrOptions req = false ->
  get (req_headers req) "range" = Some range ->
  range <> EmptyString ->
  exists argument,
    serveStatic host options req env = Throw (RangeError argument).
Proof.
  intros Hres Hsize Hmethod Hrange Hne.
  assert (Hq : hasNul q = false)
    by (eapply getStats_valid, resolvesTo_stats; exact Hres).
  destruct (rangeWindow range (size stats)) as [start end_] eqn:Hwindow.
  destruct (rangeWindow_bounds _ _ _ _ Hwindow) as (H0 & Hlen & _).
  rewrite (handler_resolved _ _ _ _ _ _ _ Hres).
  rewrite (respond_range req hdrs stats q range start end_
             Hmethod Hrange Hne Hwindow).
  destruct (createReadStream_inverted q start end_ Hq) as (argument & ->);
    [lia|].
  now exists argument.
Qed.

Lemma empty_file_range_throws_witness :
  exists argument,
    serveStatic emptyFileHost Fixture.options
      (Fixture.request "GET" "/empty.txt" [("range", "bytes=0-")]%string) tt
    = Throw (RangeError argument).
Proof.
  apply (empty_file_range_throws emptyFileHost Fixture.options
           (Fixture.request "GET" "/empty.txt" [("range", "bytes=0-")]%string)
           tt [("content-type", "text/plain")]%string (Fixture.file 0)
           "public/empty.txt" "bytes=0-");
    [reflexivity..|discriminate].
Defined.

(** X15.  The suffix form [bytes=-N] is not read as the last [N] bytes.
    The text before the dash is empty, so the start is 0, and [N] is taken
    as the end: the window runs from the first byte to byte [N], or to the
    last byte of the file when [N] is zero or at or beyond the size. *)
Theorem suffix_range_reads_from_start b size :
  isNumeral b = true ->
  rangeWindow ("bytes=-" +:+ b) size
  = (0, if numeralValue b =? 0 then size - 1
        else Z.min (numeralValue b) (size - 1)).
Proof.
  intros Hb. unfold rangeWindow, requestedRange.
  change ("bytes=-" +:+ b) with ("bytes=" +:+ String "-" b).
  rewrite replace_bytes_prefix.
  assert (Hdb : occurs "-" b = false).
  { apply numeral_without_dash. unfold isNumeral in Hb.
    now apply andb_true_iff in Hb as [_ Hb]. }
  change (String "-" b) with (EmptyString +:+ String "-" b).
  destruct (split_limit_two EmptyString b eq_refl) as (piece & -> & Hpiece).
  rewrite (split_without_separator _ _ Hdb) in Hpiece.
  injection Hpiece as <-.
  cbn [nth_error]. unfold JS.parseInt_arg.
  rewrite (parseInt_numeral _ Hb).
  change (JS.parseInt "") with (@None Z).
  unfold JS.or_number, clampEnd. f_equal.
  destruct (numeralValue b =? 0) eqn:Ez.
  - destruct (size <? size - 1 - 0 + 1); reflexivity.
  - destruct (size <? numeralValue b - 0 + 1) eqn:Hlt.
    + apply Z.ltb_lt in Hlt. lia.
    + apply Z.ltb_ge in Hlt. lia.
Qed.

Lemma suffix_range_reads_from_start_witness :
  rangeWindow ("bytes=-" +:+ "100") 500
  = (0, if numeralValue "100" =? 0 then 500 - 1
        else Z.min (numeralValue "100") (500 - 1)).
Proof.
  apply (suffix_range_reads_from_start "100" 500). reflexivity.
Defined.

(** X16.  The end is moved only when the span asked for is longer than the
    whole file, not when it lies beyond it.  For [bytes=a-b] with
    [size <= a <= b <= 2^53 - 1] and [b - a + 1 <= size], against a
    resolved target of [size] bytes, the handler answers 206 with
    [Content-Range: bytes a-b/size] and a body that reads bytes [a] to [b],
    none of which the file has. *)
Theorem window_beyond_the_file_is_served {Env Ctx : Type} (host : Host Ctx)
    (options : ServeStaticOptions Env Ctx) req env hdrs stats q a b :
  resolvesTo host options req hdrs stats q ->
  isHeadOrOptions req = false ->
  isNumeral a = true -> isNumeral b = true ->
  get (req_headers req) "range" = Some ("bytes=" +:+ a +:+ "-" +:+ b) ->
  size stats <= numeralValue a <= numeralValue b ->
  numeralValue b - numeralValue a + 1 <= size stats ->
  numeralValue b <= MAX_SAFE_INTEGER ->
  exists resp,
    serveStatic host options req env = Ok resp
    /\ status resp = 206
    /\ get (headers resp) "Content-Range"
       = Some ("bytes " +:+ JS.toString (numeralValue a) +:+ "-"
                 +:+ JS.toString (numeralValue b)
                 +:+ "/" +:+ JS.toString (size stats))
    /\ body resp
       = StreamBody
           (createStreamBody
              {| rs_path := q;
                 rs_window := Some (numeralValue a, numeralValue b) |}).
Proof.
  intros Hres Hmethod Ha Hb Hrange Hbeyond Hspan Hmax.
  assert (Hq : hasNul q = false)
    by (eapply getStats_valid, resolvesTo_stats; exact Hres).
  assert (Hsize : 1 <= size stats) by lia.
  assert (Hwindow : rangeWindow ("bytes=" +:+ a +:+ "-" +:+ b) (size stats)
                    = (numeralValue a, numeralValue b)).
  { unfold rangeWindow. rewrite (requestedRange_numerals a b _ Ha Hb).
    assert ((numeralValue b =? 0) = false) as -> by (apply Z.eqb_neq; lia).
    now rewrite clampEnd_fits. }
  rewrite (handler_resolved _ _ _ _ _ _ _ Hres).
  rewrite (respond_partial req hdrs stats q _ (numeralValue a)
             (numeralValue b) Hq Hmethod Hrange);
    [|destruct a; discriminate|exact Hwindow|unfold acceptableWindow; lia].
  eexists. split; [reflexivity|]. cbn [status headers body].
  split; [reflexivity|]. split; [apply get_set_same|reflexivity].
Qed.

Lemma window_beyond_the_file_is_served_witness :
  exists resp,
    serveStatic Fixture.host Fixture.options
      (Fixture.request "GET" "/a.txt" [("range", "bytes=600-700")]%string) tt
    = Ok resp
    /\ status resp = 206
    /\ get (headers resp) "Content-Range" = Some "bytes 600-700/500"%string
    /\ body resp
       = StreamBody
           (createStreamBody
              {| rs_path := "public/a.txt";
                 rs_window := Some (600, 700) |}).
Proof.
  apply (window_beyond_the_file_is_served Fixture.host Fixture.options
           (Fixture.request "GET" "/a.txt"
              [("range", "bytes=600-700")]%string)
           tt [("content-type", "text/plain")]%string (Fixture.file 500)
           "public/a.txt" "600" "700");
    try reflexivity; vm_compute; try split; discriminate.
Defined.

(** ** Where the joined path lies *)

Lemma split_app sep a b :
  JS.split sep (a +:+ String sep b) = JS.split sep a ++ JS.split sep b.
Proof.
  induction a as [|c a IH].
  - rewrite append_nil_l. cbn [JS.split]. now rewrite Ascii.eqb_refl.
  - rewrite append_cons. cbn [JS.split]. rewrite IH.
    destruct (Ascii.eqb c sep); [reflexivity|].
    destruct (split_nonempty sep a) as (h & t & ->). reflexivity.
Qed.

(** Every piece of a split stands between separators or the ends of the
    string. *)
Lemma split_context sep s : forall h t,
  JS.split sep s = h :: t ->
  (exists post,
     s = h +:+ post /\ (post = EmptyString \/ exists r, post = String sep r))
  /\ forall seg,
       In seg t ->
       exists pre post,
         s = (pre +:+ String sep EmptyString) +:+ seg +:+ post
         /\ (post = EmptyString \/ exists r, post = String sep r).
Proof.
  induction s as [|c s IH]; intros h t; cbn [JS.split].
  - intros [= <- <-]. split; [|intros seg []].
    exists EmptyString. split; [reflexivity|now left].
  - destruct (Ascii.eqb c sep) eqn:E.
    + apply Ascii.eqb_eq in E. subst c. intros [= <- <-]. split.
      * exists (String sep s). split; [reflexivity|right; now exists s].
      * intros seg Hin.
        destruct (split_nonempty sep s) as (h' & t' & Hsplit).
        destruct (IH h' t' Hsplit) as [(post & Hs & Hpost) Htail].
        rewrite Hsplit in Hin. destruct Hin as [<-|Hin].
        -- exists EmptyString, post. split; [|exact Hpost].
           rewrite append_nil_l, append_cons, append_nil_l. now f_equal.
        -- destruct (Htail seg Hin) as (pre & post' & Hs' & Hpost').
           exists (String sep pre), post'. split; [|exact Hpost'].
           rewrite !append_cons. now f_equal.
    + destruct (split_nonempty sep s) as (h' & t' & Hsplit).
      rewrite Hsplit. intros [= <- <-].
      destruct (IH h' t' Hsplit) as [(post & Hs & Hpost) Htail]. split.
      * exists post. split; [|exact Hpost]. rewrite append_cons. now f_equal.
      * intros seg Hin.
        destruct (Htail seg Hin) as (pre & post' & Hs' & Hpost').
        exists (String c pre), post'. split; [|exact Hpost'].
        rewrite !append_cons. now f_equal.
Qed.

(** A path that passes the traversal check has no [..] among its
    segments. *)
Lemma segments_without_dotdot f :
  ~ hasDotDotSegment f ->
  List.Forall (fun seg => NodePath.isDotDot seg = false) (JS.split "/" f).
Proof.
  intros Hnot. apply List.Forall_forall. intros seg Hin.
  destruct (NodePath.isDotDot seg) eqn:E; [|reflexivity].
  exfalso. apply Hnot. apply String.eqb_eq in E. subst seg.
  destruct (split_nonempty "/" f) as (h & t & Hsplit).
  destruct (split_context "/" f h t Hsplit) as [(post & Hs & Hpost) Htail].
  assert (Hafter : forall post,
             post = EmptyString \/ (exists r, post = String "/" r) ->
             post = EmptyString \/ startsWithSeparator post).
  { intros x [->|(r & ->)]; [now left|right]. now exists "/"%char, r. }
  rewrite Hsplit in Hin. destruct Hin as [->|Hin].
  - exists EmptyString, post. rewrite append_nil_l.
    split; [exact Hs|]. split; [now left|now apply Hafter].
  - destruct (Htail _ Hin) as (pre & post' & Hs' & Hpost').
    exists (pre +:+ "/"), post'. split; [exact Hs'|].
    split; [right; now exists pre, "/"%char|now apply Hafter].
Qed.

Lemma step_other allow stack seg :
  NodePath.isDotDot seg = false ->
  NodePath.step allow stack seg
  = if String.eqb seg "" || NodePath.isDot seg then stack else seg :: stack.
Proof.
  intros H. unfold NodePath.step. now rewrite H.
Qed.

(** Without [..], normalisation only drops the empty segments and the
    single dots. *)
Lemma fold_step_without_dotdot allow segs :
  List.Forall (fun seg => NodePath.isDotDot seg = false) segs ->
  forall stack,
    fold_left (NodePath.step allow) segs stack
    = rev (List.filter
             (fun seg => negb (String.eqb seg "" || NodePath.isDot seg)) segs)
        ++ stack.
Proof.
  induction 1 as [|seg segs Hseg _ IH]; intros stack; [reflexivity|].
  cbn [fold_left List.filter]. rewrite (step_other _ _ _ Hseg), IH.
  destruct (String.eqb seg "" || NodePath.isDot seg); cbn [negb];
    [reflexivity|].
  cbn [rev]. now rewrite <- app_assoc.
Qed.

Lemma normalizeString_without_dotdot allow p :
  List.Forall (fun seg => NodePath.isDotDot seg = false) (JS.split "/" p) ->
  NodePath.normalizeString p allow = String.concat "/" (keptSegments p).
Proof.
  intros H. unfold NodePath.normalizeString, keptSegments.
  now rewrite (fold_step_without_dotdot allow _ H), app_nil_r, rev_involutive.
Qed.

Lemma concat_cons sep x y ys :
  String.concat sep (x :: y :: ys) = x +:+ sep +:+ String.concat sep (y :: ys).
Proof. reflexivity. Qed.

Lemma split_concat_plain rs :
  rs <> [] -> List.Forall plainSegment rs ->
  JS.split "/" (String.concat "/" rs) = rs.
Proof.
  intros Hne Hall. induction Hall as [|r rest (_ & Hslash & _) _ IH];
    [contradiction|].
  destruct rest as [|r' rest].
  - cbn [String.concat]. now apply split_without_separator.
  - rewrite concat_cons.
    change ("/" +:+ String.concat "/" (r' :: rest))
      with (String "/" (String.concat "/" (r' :: rest))).
    rewrite (split_at_separator _ _ _ Hslash). f_equal.
    apply IH. discriminate.
Qed.

Lemma endsWithSlash_app a b :
  b <> EmptyString ->
  NodePath.endsWithSlash (a +:+ b) = NodePath.endsWithSlash b.
Proof.
  intros Hb. induction a as [|c a IH]; [now rewrite append_nil_l|].
  rewrite append_cons. cbn [NodePath.endsWithSlash]. rewrite IH.
  destruct (a +:+ b) eqn:E; [|reflexivity].
  destruct a; [rewrite append_nil_l in E; contradiction|].
  rewrite append_cons in E. discriminate.
Qed.

Lemma concat_not_empty sep x xs :
  x <> EmptyString -> String.concat sep (x :: xs) <> EmptyString.
Proof.
  intros Hx. destruct xs as [|y ys]; [exact Hx|].
  rewrite concat_cons. destruct x as [|c x]; [contradiction|].
  rewrite append_cons. discriminate.
Qed.

Lemma filter_kept_plain rs :
  List.Forall plainSegment rs ->
  List.filter (fun seg => negb (String.eqb seg "" || NodePath.isDot seg)) rs
  = rs.
Proof.
  induction 1 as [|r rs (Hne & _ & Hdot & _) _ IH]; [reflexivity|].
  cbn [List.filter]. rewrite Hdot, IH.
  now assert (String.eqb r "" = false) as -> by now apply String.eqb_neq.
Qed.

Lemma keptSegments_plain f :
  ~ hasDotDotSegment f -> List.Forall plainSegment (keptSegments f).
Proof.
  intros Hnot. apply List.Forall_forall. intros seg Hin.
  unfold keptSegments in Hin. apply List.filter_In in Hin as [Hin Hkeep].
  apply negb_true_iff, orb_false_iff in Hkeep as [Hempty Hdot].
  pose proof (split_pieces_without_separator "/" f) as Hslash.
  pose proof (segments_without_dotdot f Hnot) as Hdd.
  rewrite List.Forall_forall in Hslash, Hdd.
  repeat split; [now apply String.eqb_neq|now apply Hslash|exact Hdot
                |now apply Hdd].
Qed.

Lemma normalize_relative p c rest :
  p = String c rest -> Ascii.eqb c "/" = false ->
  NodePath.normalize p
  = if String.eqb (NodePath.normalizeString p true) ""
    then (if NodePath.endsWithSlash p then "./" else ".")
    else if NodePath.endsWithSlash p
         then NodePath.normalizeString p true +:+ "/"
         else NodePath.normalizeString p true.
Proof.
  intros -> Hc. unfold NodePath.normalize. rewrite Hc. reflexivity.
Qed.

(** The joined path for a root made of plain directory names. *)
Lemma join_under_root rs f :
  rs <> [] -> List.Forall plainSegment rs ->
  f <> EmptyString -> ~ hasDotDotSegment f ->
  NodePath.join [String.concat "/" rs; f]
  = String.concat "/" (rs ++ keptSegments f)
      +:+ (if NodePath.endsWithSlash f then "/" else "").
Proof.
  intros Hrs Hplain Hf Hnot.
  destruct rs as [|r0 rs']; [contradiction|].
  pose proof Hplain as Hfirst. apply List.Forall_cons_iff in Hfirst as [Hr0 _].
  destruct Hr0 as (Hr0 & Hslash0 & _).
  assert (Hroot : String.concat "/" (r0 :: rs') <> EmptyString)
    by now apply concat_not_empty.
  set (root := String.concat "/" (r0 :: rs')) in *.
  unfold NodePath.join. cbn [List.filter].
  assert (String.eqb root "" = false) as -> by now apply String.eqb_neq.
  assert (String.eqb f "" = false) as -> by now apply String.eqb_neq.
  cbn [negb].
  change (String.concat "/" [root; f]) with (root +:+ String "/" f).
  assert (Hsegs : JS.split "/" (root +:+ String "/" f)
                  = (r0 :: rs') ++ JS.split "/" f).
  { rewrite split_app. unfold root. now rewrite split_concat_plain. }
  assert (Hnorm : forall allow,
             NodePath.normalizeString (root +:+ String "/" f) allow
             = String.concat "/" ((r0 :: rs') ++ keptSegments f)).
  { intros allow. rewrite normalizeString_without_dotdot.
    - unfold keptSegments. rewrite Hsegs, List.filter_app.
      now rewrite (filter_kept_plain _ Hplain).
    - rewrite Hsegs. apply List.Forall_app. split.
      + eapply List.Forall_impl; [|exact Hplain]. now intros seg (_ & _ & _ & H).
      + now apply segments_without_dotdot. }
  assert (Hslash : NodePath.endsWithSlash (root +:+ String "/" f)
                   = NodePath.endsWithSlash f).
  { change (String "/" f) with ("/" +:+ f). rewrite <- append_assoc.
    now apply endsWithSlash_app. }
  assert (Hhead : exists c rest,
             root +:+ String "/" f = String c rest /\ Ascii.eqb c "/" = false).
  { unfold root. destruct r0 as [|c r0]; [contradiction|].
    cbn [occurs] in Hslash0. apply orb_false_iff in Hslash0 as [Hc _].
    destruct rs' as [|r1 rs'].
    - cbn [String.concat]. rewrite append_cons. now eexists; eexists.
    - rewrite concat_cons, !append_cons. now eexists; eexists. }
  destruct Hhead as (c & rest & Heq & Hc).
  rewrite (normalize_relative _ c rest Heq Hc), Hnorm, Hslash.
  assert (String.eqb (String.concat "/" ((r0 :: rs') ++ keptSegments f)) ""
          = false) as ->.
  { apply String.eqb_neq. cbn [app]. now apply concat_not_empty. }
  destruct (NodePath.endsWithSlash f); [reflexivity|].
  clear. generalize (String.concat "/" ((r0 :: rs') ++ keptSegments f)).
  intros s. induction s as [|x s IH]; [reflexivity|].
  now rewrite append_cons, <- IH.
Qed.

(** X17.  Without a fixed path and without a rewrite function, and for a
    root made of plain directory names, the path the handler looks up for
    a request that passes the traversal check is the root followed by the
    segments of the decoded request path, in order, without the empty
    ones and the single dots, with a trailing slash exactly when the
    request path has one.  Each of those segments is a plain name: none is
    [..], so the path lies below the root. *)
Theorem joined_path_stays_under_root {Env Ctx : Type} (host : Host Ctx)
    (options : ServeStaticOptions Env Ctx) req filename rs :
  JS.truthy (path options) = false ->
  rewriteRequestPath options = None ->
  root options = Some (String.concat "/" rs) ->
  rs <> [] ->
  List.Forall plainSegment rs ->
  requestFilename options req = Some filename ->
  filename <> EmptyString ->
  joinedName host options filename = Ok filename
  /\ NodePath.join [default ""%string (root options); filename]
     = String.concat "/" (rs ++ keptSegments filename)
         +:+ (if NodePath.endsWithSlash filename then "/" else "")
  /\ List.Forall plainSegment (keptSegments filename).
Proof.
  intros Hpath Hrewrite Hroot Hrs Hplain Hname Hne.
  assert (Hnot : ~ hasDotDotSegment filename).
  { unfold requestFilename in Hname. rewrite Hpath in Hname.
    destruct (JS.decodeURIComponent (pathname req)) as [decoded|];
      [|discriminate].
    destruct (Regex.test TRAVERSAL_REGEX decoded) eqn:Htest; [discriminate|].
    injection Hname as <-. intros H. apply traversal_test_spec in H.
    congruence. }
  split; [|split].
  - unfold joinedName. now rewrite Hpath, Hrewrite.
  - rewrite Hroot. cbn [default from_option id].
    now apply join_under_root.
  - now apply keptSegments_plain.
Qed.

Lemma joined_path_stays_under_root_witness :
  joinedName Fixture.host Fixture.options "/site/./x//a.txt"
  = Ok "/site/./x//a.txt"%string
  /\ NodePath.join
       [default ""%string (root Fixture.options); "/site/./x//a.txt"%string]
     = String.concat "/" (["public"%string] ++ keptSegments "/site/./x//a.txt")
         +:+ (if NodePath.endsWithSlash "/site/./x//a.txt" then "/" else "")
  /\ List.Forall plainSegment (keptSegments "/site/./x//a.txt").
Proof.
  apply (joined_path_stays_under_root Fixture.host Fixture.options
           (Fixture.request "GET" "/site/%2E/x//a.txt" [])
           "/site/./x//a.txt" ["public"%string]);
    try reflexivity; try discriminate.
  repeat constructor; discriminate.
Defined.

(** X18.  With an empty root, which is the default, a request path that
    passes the check is looked up as an absolute path of the file system:
    the joined path is a slash followed by the kept segments of the
    request path, not a path under the working directory.  A file that
    exists there is the resolved target whenever no precompressed sibling
    takes its place (precompression off, a known content type that is not
    compressible, or no accepted encoding with a sibling on disk). *)
Theorem empty_root_reads_absolute_paths {Env Ctx : Type} (host : Host Ctx)
    (options : ServeStaticOptions Env Ctx) req rest :
  JS.truthy (path options) = false ->
  rewriteRequestPath options = None ->
  JS.truthy (root options) = false ->
  requestFilename options req = Some (String "/" rest) ->
  NodePath.join [default ""%string (root options); String "/" rest]
  = "/" +:+ String.concat "/" (keptSegments (String "/" rest))
      +:+ (if String.eqb (String.concat "/" (keptSegments (String "/" rest))) ""
           then ""
           else if NodePath.endsWithSlash (String "/" rest) then "/" else "")
  /\ forall st,
       getStats (files host)
         (NodePath.join [default ""%string (root options); String "/" rest])
       = Some st ->
       isDirectory st = false ->
       precompressed options = false
       \/ (JS.truthy
             (getMimeType host
                (NodePath.join
                   [default ""%string (root options); String "/" rest]))
           = true
           /\ Regex.test COMPRESSIBLE_CONTENT_TYPE_REGEX
                (default ""%string
                   (getMimeType host
                      (NodePath.join
                         [default ""%string (root options);
                          String "/" rest])))
              = false)
       \/ noneServable (files host) (acceptEncodingSet req)
            (NodePath.join
               [default ""%string (root options); String "/" rest]) ->
       resolvesTo host options req
         (set [] "Content-Type"
            (contentTypeOf host
               (NodePath.join
                  [default ""%string (root options); String "/" rest])))
         st
         (NodePath.join [default ""%string (root options); String "/" rest]).
Proof.
  intros Hpath Hrewrite Hroot Hname.
  assert (Hnot : ~ hasDotDotSegment (String "/" rest)).
  { unfold requestFilename in Hname. rewrite Hpath in Hname.
    destruct (JS.decodeURIComponent (pathname req)) as [decoded|];
      [|discriminate].
    destruct (Regex.test TRAVERSAL_REGEX decoded) eqn:Htest; [discriminate|].
    injection Hname as ->. intros H. apply traversal_test_spec in H.
    congruence. }
  assert (Hdefault : default ""%string (root options) = EmptyString).
  { unfold JS.truthy in Hroot. destruct (root options) as [r|]; [|reflexivity].
    cbn [default from_option id]. apply negb_false_iff in Hroot.
    now apply String.eqb_eq. }
  split.
  - rewrite Hdefault. unfold NodePath.join. cbn [List.filter String.eqb negb].
    cbn [String.concat]. unfold NodePath.normalize.
    rewrite Ascii.eqb_refl. cbn [negb].
    rewrite (normalizeString_without_dotdot false _
               (segments_without_dotdot _ Hnot)).
    destruct (String.eqb (String.concat "/" (keptSegments (String "/" rest))) "")
      eqn:E.
    + apply String.eqb_eq in E. rewrite E. reflexivity.
    + destruct (NodePath.endsWithSlash (String "/" rest)); [reflexivity|].
      f_equal. generalize (String.concat "/" (keptSegments (String "/" rest))).
      clear. intros s. induction s as [|x s IH]; [reflexivity|].
      now rewrite append_cons, <- IH.
  - intros st Hst Hfile Hpre. unfold resolvesTo, resolve.
    rewrite Hname. unfold joinedName. rewrite Hpath, Hrewrite.
    cbn [negb mbind result_bind]. unfold target. rewrite Hst, Hfile.
    fold (contentTypeOf host
            (NodePath.join
               [default ""%string (root options); String "/" rest])).
    now rewrite (negotiate_unchanged _ _ _ _ _ _ _ Hpre).
Qed.

Lemma empty_root_reads_absolute_paths_witness :
  NodePath.join
    [default ""%string (root defaultOptions); "/etc/passwd"%string]
  = "/" +:+ String.concat "/" (keptSegments "/etc/passwd")
      +:+ (if String.eqb (String.concat "/" (keptSegments "/etc/passwd")) ""
           then ""
           else if NodePath.endsWithSlash "/etc/passwd" then "/" else "")
  /\ forall st,
       getStats (files systemHost)
         (NodePath.join
            [default ""%string (root defaultOptions); "/etc/passwd"%string])
       = Some st ->
       isDirectory st = false ->
       precompressed defaultOptions = false
       \/ (JS.truthy
             (getMimeType systemHost
                (NodePath.join
                   [default ""%string (root defaultOptions);
                    "/etc/passwd"%string]))
           = true
           /\ Regex.test COMPRESSIBLE_CONTENT_TYPE_REGEX
                (default ""%string
                   (getMimeType systemHost
                      (NodePath.join
                         [default ""%string (root defaultOptions);
                          "/etc/passwd"%string])))
              = false)
       \/ noneServable (files systemHost)
            (acceptEncodingSet (Fixture.request "GET" "/etc/passwd" []))
            (NodePath.join
               [default ""%string (root defaultOptions);
                "/etc/passwd"%string]) ->
       resolvesTo systemHost defaultOptions
         (Fixture.request "GET" "/etc/passwd" [])
         (set [] "Content-Type"
            (contentTypeOf systemHost
               (NodePath.join
                  [default ""%string (root defaultOptions);
                   "/etc/passwd"%string])))
         st
         (NodePath.join
            [default ""%string (root defaultOptions); "/etc/passwd"%string]).
Proof.
  apply (empty_root_reads_absolute_paths systemHost defaultOptions
           (Fixture.request "GET" "/etc/passwd" []) "etc/passwd");
    reflexivity.
Defined.

(** ** The body stream *)

(** Reads that come after a failure are rejected with its error. *)
Lemma reads_after_failure stream err n : forall st,
  errored st = Some err ->
  deliver (createStreamBody stream) st (repeat reads n) = repeat (rejected err) n.
Proof.
  induction n as [|n IH]; intros st Herr; [reflexivity|].
  cbn [repeat deliver]. unfold readFrom. rewrite Herr. cbn [app].
  now rewrite (IH st Herr).
Qed.

(** Chunks that were queued when the source fails are never read. *)
Lemma queued_chunks_are_dropped stream err n chunks : forall st,
  errored st = None ->
  closeRequested st = false ->
  waiting st = O ->
  deliver (createStreamBody stream) st
    (map emits (map data chunks ++ [error err]) ++ repeat reads n)
  = repeat (rejected err) n.
Proof.
  induction chunks as [|chunk chunks IH]; intros st Herr Hclose Hwait.
  - cbn [map app deliver createStreamBody onEvent]. unfold control.
    rewrite Herr, Hclose, Hwait. cbn [andb repeat app].
    now apply reads_after_failure.
  - cbn [map app deliver createStreamBody onEvent]. unfold control.
    rewrite Herr, Hclose, Hwait. cbn [app].
    now apply IH.
Qed.

(** X19.  What a reader of the body built by [createStreamBody] receives,
    whatever the order of its reads and the events of the read stream: only
    chunks that the stream emitted before it ended or failed, in the order
    of their emission and unchanged, with none left out in between.  When
    the stream ends, a reader that reads more often than there are chunks
    receives all of them and is then told that the stream is finished.
    When the stream fails, the chunks still queued are thrown away: a
    reader that starts reading after the failure receives the error and no
    chunk. *)
Theorem stream_body_relays_chunks stream steps :
  (exists later,
     emittedChunks (sourceEvents steps)
     = values (delivered (createStreamBody stream) steps) ++ later)
  /\ (forall chunks,
        sourceEvents steps = map data chunks ++ [end_of_stream] ->
        (length chunks < readCount steps)%nat ->
        delivered (createStreamBody stream) steps
        = map value chunks
            ++ repeat finished (readCount steps - length chunks))
  /\ (forall chunks err n,
        delivered (createStreamBody stream)
          (map emits (map data chunks ++ [error err]) ++ repeat reads n)
        = repeat (rejected err) n).
Proof.
  split; [|split].
  - destruct (deliver_prefix stream steps initialState eq_refl
                (or_introl eq_refl)) as (later & Hlater).
    now exists later.
  - intros chunks Hsource Hreads.
    now apply delivered_whole.
  - intros chunks err n. unfold delivered.
    now apply queued_chunks_are_dropped.
Qed.

(** ** When the handler returns a response *)

(** X20.  The function returned by [serveStatic], [console.log(env)]
    included, returns a response and throws nothing whenever five things
    hold: the inspection of [env] by [console.log] returns; the not-found
    collaborator returns for this request; neither the undeclared [c] nor
    the rewrite function is evaluated, which is the case with a fixed path
    or without a rewrite function; every content type the MIME lookup
    gives is a value the header list stores as given; and the request is
    HEAD or OPTIONS, or has no Range value or an empty one. *)
Theorem handler_returns_a_response {Env Ctx : Type}
    (inspect : Env -> result unit) (host : Host Ctx)
    (options : ServeStaticOptions Env Ctx) req env :
  inspect env = Ok tt ->
  (exists fallback, notFound options req env = Ok fallback) ->
  JS.truthy (path options) = true \/ rewriteRequestPath options = None ->
  (forall p, storedAsGiven (contentTypeOf host p) = true) ->
  isHeadOrOptions req = true
  \/ JS.truthy (get (req_headers req) "range") = false ->
  exists resp, loggedHandler inspect host options req env = Ok resp.
Proof.
  intros Hlog (fallback & Hfallback) Hc _ Hrange.
  unfold loggedHandler. rewrite Hlog. cbn [mbind result_bind].
  destruct (serveStatic host options req env) as [resp|e] eqn:Hserve;
    [now exists resp|].
  exfalso.
  destruct (throw_sources host options req env e Hserve)
    as [(_ & Hnone & Hrewrite & Hpath)
       |[Hthrow
        |[(Hmethod & (range & Hget & Hne) & _)
         |(rewrite & c & filename & Hrewrite & _ & Hpath & _)]]].
  - destruct Hc as [Hc|Hc]; congruence.
  - congruence.
  - destruct Hrange as [Hrange|Hrange]; [congruence|].
    rewrite Hget in Hrange. unfold JS.truthy in Hrange.
    apply negb_false_iff, String.eqb_eq in Hrange. contradiction.
  - destruct Hc as [Hc|Hc]; congruence.
Qed.

Lemma handler_returns_a_response_witness :
  exists resp,
    loggedHandler (fun _ : unit => Ok tt) Fixture.host Fixture.options
      (Fixture.request "GET" "/%E0%A4%A" []) tt = Ok resp.
Proof.
  apply (handler_returns_a_response (fun _ : unit => Ok tt)
           Fixture.host Fixture.options
           (Fixture.request "GET" "/%E0%A4%A" []) tt).
  - reflexivity.
  - eexists. reflexivity.
  - right. reflexivity.
  - intros p. unfold contentTypeOf, Fixture.host, getMimeType, Fixture.mime.
    destruct (Fixture.endsWith ".txt" p); [reflexivity|].
    destruct (Fixture.endsWith ".html" p); reflexivity.
  - right. reflexivity.
Defined.

(** ** Content types that are compressible *)

Lemma append_nil_r (s : string) : s +:+ EmptyString = s.
Proof.
  induction s as [|c s IH]; [reflexivity|]. now rewrite append_cons, IH.
Qed.

Lemma plus_class_matches class s rest b :
  s <> EmptyString -> allIn class s = true ->
  Regex.matches (Regex.Plus (Regex.Chr class)) (b, s +:+ rest) (false, rest).
Proof.
  intros Hne Hall. destruct s as [|c s]; [contradiction|].
  cbn [allIn] in Hall. apply andb_true_iff in Hall as [Hc Hs].
  rewrite append_cons. unfold Regex.Plus.
  eapply Regex.m_seq; [now constructor|].
  exact (star_class_matches class s false rest Hs).
Qed.

(** The end of the pattern: a semicolon, white space, or the end of the
    text. *)
Lemma type_end_matches tail b :
  tail = EmptyString
  \/ (exists c r, tail = String c r /\ semicolonOrSpace c = true) ->
  exists q,
    Regex.matches
      (Regex.Alt (Regex.Chr semicolonOrSpace) Regex.Eol) (b, tail) q.
Proof.
  intros [->|(c & r & -> & Hc)].
  - eexists. apply Regex.m_alt_r. constructor.
  - eexists. apply Regex.m_alt_l. now constructor.
Qed.

(** X21.  Two families of content types are compressible for the pattern
    of line 19, with or without parameters after them: every [text/...]
    type, and every type whose name ends in [+json], [+text], [+xml] or
    [+yaml]. *)
Theorem text_and_structured_types_are_compressible subtype name tail :
  subtype <> EmptyString ->
  allIn notSemicolonOrSpace subtype = true ->
  name <> EmptyString ->
  allIn notSemicolonOrSpace name = true ->
  tail = EmptyString
  \/ (exists c r, tail = String c r /\ semicolonOrSpace c = true) ->
  Regex.test COMPRESSIBLE_CONTENT_TYPE_REGEX ("text/" +:+ subtype +:+ tail)
  = true
  /\ forall suffix,
       In suffix ["json"; "text"; "xml"; "yaml"]%string ->
       Regex.test COMPRESSIBLE_CONTENT_TYPE_REGEX
         (name +:+ "+" +:+ suffix +:+ tail) = true.
Proof.
  intros Hsub Hsubclass Hne Hclass Htail. split.
  - apply test_spec.
    destruct (type_end_matches tail false Htail) as (q & Hq).
    exists EmptyString, ("text/" +:+ subtype +:+ tail), q.
    split; [reflexivity|]. cbn [String.eqb].
    unfold COMPRESSIBLE_CONTENT_TYPE_REGEX.
    eapply Regex.m_seq; [apply Regex.m_bol|].
    eapply Regex.m_seq; [apply Regex.m_star_nil|].
    eapply Regex.m_seq; [|exact Hq].
    cbn [Regex.anyOf]. apply Regex.m_alt_l.
    eapply Regex.m_seq.
    + exact (lit_i_matches "text/" true (subtype +:+ tail)).
    + now apply plus_class_matches.
  - intros suffix Hin. apply test_spec.
    destruct (type_end_matches tail false Htail) as (q & Hq).
    exists EmptyString, (name +:+ "+" +:+ suffix +:+ tail), q.
    split; [reflexivity|]. cbn [String.eqb].
    unfold COMPRESSIBLE_CONTENT_TYPE_REGEX.
    eapply Regex.m_seq; [apply Regex.m_bol|].
    eapply Regex.m_seq; [apply Regex.m_star_nil|].
    eapply Regex.m_seq; [|exact Hq].
    cbn [Regex.anyOf]. do 8 apply Regex.m_alt_r.
    eapply Regex.m_seq; [now apply plus_class_matches|].
    eapply Regex.m_seq.
    + exact (lit_i_matches "+" false (suffix +:+ tail)).
    + cbn [andb map Regex.anyOf].
      assert (Hword : forall w b,
                 w <> EmptyString ->
                 Regex.matches (Regex.lit_i w) (b, w +:+ tail) (false, tail)).
      { intros w b Hw. pose proof (lit_i_matches w b tail) as H.
        assert (String.eqb w "" = false) as E by now apply String.eqb_neq.
        now rewrite E, andb_false_r in H. }
      cbn [In] in Hin.
      destruct Hin as [<-|[<-|[<-|[<-|[]]]]].
      * apply Regex.m_alt_l. now apply Hword.
      * apply Regex.m_alt_r, Regex.m_alt_l. now apply Hword.
      * do 2 apply Regex.m_alt_r. apply Regex.m_alt_l. now apply Hword.
      * do 3 apply Regex.m_alt_r. now apply Hword.
Qed.

Lemma text_and_structured_types_are_compressible_witness :
  Regex.test COMPRESSIBLE_CONTENT_TYPE_REGEX
    ("text/" +:+ "html" +:+ "; charset=utf-8") = true
  /\ forall suffix,
       In suffix ["json"; "text"; "xml"; "yaml"]%string ->
       Regex.test COMPRESSIBLE_CONTENT_TYPE_REGEX
         ("image/svg" +:+ "+" +:+ suffix +:+ "; charset=utf-8") = true.
Proof.
  apply (text_and_structured_types_are_compressible
           "html" "image/svg" "; charset=utf-8").
  - discriminate.
  - reflexivity.
  - discriminate.
  - reflexivity.
  - right. exists ";"%char, " charset=utf-8"%string. split; reflexivity.
Defined.

(** ** A Range request against a precompressed sibling *)

Lemma resolves_to_sibling {Env Ctx : Type} (host : Host Ctx)
    (options : ServeStaticOptions Env Ctx) req filename name p stats
    encoding suffix stats' :
  requestFilename options req = Some filename ->
  joinedName host options filename = Ok name ->
  target host options name = (p, Some stats) ->
  precompressed options = true ->
  (JS.truthy (getMimeType host p) = false
   \/ Regex.test COMPRESSIBLE_CONTENT_TYPE_REGEX
        (default ""%string (getMimeType host p)) = true) ->
  firstServable (files host) (acceptEncodingSet req) p encoding suffix stats' ->
  resolvesTo host options req
    (append
       (set (set [] "Content-Type" (contentTypeOf host p))
          "Content-Encoding" encoding)
       "Vary" "Accept-Encoding")
    stats' (p +:+ suffix).
Proof.
  intros Hname Hjoined Htarget Hpre Hmime Hfirst.
  unfold resolvesTo, resolve. rewrite Hname, Hjoined.
  cbn [mbind result_bind]. rewrite Htarget, Hpre.
  fold (contentTypeOf host p). unfold negotiate.
  assert ((true && (negb (JS.truthy (getMimeType host p))
                    || Regex.test COMPRESSIBLE_CONTENT_TYPE_REGEX
                         (default ""%string (getMimeType host p)))) = true)
    as ->.
  { cbn [andb]. destruct Hmime as [-> | ->]; [reflexivity|apply orb_true_r]. }
  now rewrite (scanEncodings_first _ _ _ _ _ _ Hfirst).
Qed.

(** X22.  When a precompressed sibling is served, a Range request is
    answered from the sibling, not from the file asked for: the window is
    computed against the size of the sibling, Content-Range gives that
    size as the total, the body reads the window of the sibling's bytes,
    and the response still carries Content-Encoding and the content type
    of the original. *)
Theorem range_is_taken_from_the_sibling {Env Ctx : Type} (host : Host Ctx)
    (options : ServeStaticOptions Env Ctx) req env filename name p stats
    encoding suffix stats' range start end_ :
  requestFilename options req = Some filename ->
  joinedName host options filename = Ok name ->
  target host options name = (p, Some stats) ->
  precompressed options = true ->
  (JS.truthy (getMimeType host p) = false
   \/ Regex.test COMPRESSIBLE_CONTENT_TYPE_REGEX
        (default ""%string (getMimeType host p)) = true) ->
  firstServable (files host) (acceptEncodingSet req) p encoding suffix stats' ->
  isHeadOrOptions req = false ->
  get (req_headers req) "range" = Some range ->
  range <> EmptyString ->
  rangeWindow range (size stats') = (start, end_) ->
  acceptableWindow start end_ ->
  exists resp,
    serveStatic host options req env = Ok resp
    /\ status resp = 206
    /\ get (headers resp) "Content-Encoding" = Some encoding
    /\ get (headers resp) "Content-Type" = Some (contentTypeOf host p)
    /\ get (headers resp) "Content-Range"
       = Some ("bytes " +:+ JS.toString start +:+ "-" +:+ JS.toString end_
                 +:+ "/" +:+ JS.toString (size stats'))
    /\ get (headers resp) "Content-Length"
       = Some (JS.toString (end_ - start + 1))
    /\ body resp
       = StreamBody
           (createStreamBody
              {| rs_path := p +:+ suffix;
                 rs_window := Some (start, end_) |}).
Proof.
  intros Hname Hjoined Htarget Hpre Hmime Hfirst Hmethod Hrange Hne Hwindow Hok.
  pose proof (resolves_to_sibling host options req filename name p stats
                encoding suffix stats' Hname Hjoined Htarget Hpre Hmime Hfirst)
    as Hres.
  assert (Hq : hasNul (p +:+ suffix) = false)
    by (eapply getStats_valid, resolvesTo_stats; exact Hres).
  rewrite (handler_resolved _ _ _ _ _ _ _ Hres).
  rewrite (respond_partial req _ stats' (p +:+ suffix) range start end_
             Hq Hmethod Hrange Hne Hwindow Hok).
  eexists. split; [reflexivity|]. cbn [status headers body].
  split; [reflexivity|].
  split.
  { rewrite !get_set_other by names_differ.
    rewrite get_append_other by names_differ. apply get_set_same. }
  split.
  { rewrite !get_set_other by names_differ.
    rewrite get_append_other by names_differ.
    rewrite get_set_other by names_differ. apply get_set_same. }
  split; [apply get_set_same|].
  split; [|reflexivity].
  rewrite get_set_other by names_differ. apply get_set_same.
Qed.

Lemma range_is_taken_from_the_sibling_witness :
  exists resp,
    serveStatic Fixture.host Fixture.precompressing
      (Fixture.request "GET" "/a.txt"
         [("accept-encoding", "gzip, br"); ("range", "bytes=0-99")]%string) tt
    = Ok resp
    /\ status resp = 206
    /\ get (headers resp) "Content-Encoding" = Some "br"%string
    /\ get (headers resp) "Content-Type"
       = Some (contentTypeOf Fixture.host "public/a.txt")
    /\ get (headers resp) "Content-Range"
       = Some ("bytes " +:+ JS.toString 0 +:+ "-" +:+ JS.toString 99
                 +:+ "/" +:+ JS.toString (size (Fixture.file 120)))
    /\ get (headers resp) "Content-Length"
       = Some (JS.toString (99 - 0 + 1))
    /\ body resp
       = StreamBody
           (createStreamBody
              {| rs_path := "public/a.txt" +:+ ".br";
                 rs_window := Some (0, 99) |}).
Proof.
  apply (range_is_taken_from_the_sibling Fixture.host Fixture.precompressing
           (Fixture.request "GET" "/a.txt"
              [("accept-encoding", "gzip, br");
               ("range", "bytes=0-99")]%string)
           tt "/a.txt" "/a.txt" "public/a.txt" (Fixture.file 500)
           "br" ".br" (Fixture.file 120) "bytes=0-99" 0 99);
    try reflexivity.
  - right. reflexivity.
  - exists [], [("zstd", ".zst"); ("gzip", ".gz")]%string.
    split; [reflexivity|]. split; [|split; [reflexivity|constructor]].
    vm_compute. tauto.
  - discriminate.
  - vm_compute. repeat split; discriminate.
Defined.

(** ** A NUL character in the request path *)

Lemma hasNul_app a b : hasNul (a +:+ b) = hasNul a || hasNul b.
Proof.
  induction a as [|c a IH]; [now rewrite append_nil_l|].
  rewrite append_cons. cbn [hasNul]. now rewrite IH, orb_assoc.
Qed.

Lemma hasNul_concat sep l seg :
  In seg l -> hasNul seg = true -> hasNul (String.concat sep l) = true.
Proof.
  intros Hin Hseg. induction l as [|x l IH]; [destruct Hin|].
  destruct l as [|y l].
  - destruct Hin as [->|[]]. exact Hseg.
  - rewrite concat_cons, !hasNul_app. destruct Hin as [->|Hin].
    + now rewrite Hseg.
    + rewrite (IH Hin). now rewrite !orb_true_r.
Qed.

Lemma hasNul_split sep s :
  (JS.code sep =? 0) = false ->
  hasNul s = true ->
  exists seg, In seg (JS.split sep s) /\ hasNul seg = true.
Proof.
  intros Hsep. induction s as [|c s IH]; [discriminate|].
  cbn [hasNul JS.split]. intros H.
  destruct (Ascii.eqb c sep) eqn:E.
  - apply Ascii.eqb_eq in E. subst c. rewrite Hsep in H.
    destruct (IH H) as (seg & Hin & Hseg). exists seg. split; [now right|exact Hseg].
  - destruct (split_nonempty sep s) as (h & t & Hsplit). rewrite Hsplit.
    apply orb_true_iff in H as [H|H].
    + exists (String c h). split; [now left|]. cbn [hasNul]. now rewrite H.
    + destruct (IH H) as (seg & Hin & Hseg). rewrite Hsplit in Hin.
      destruct Hin as [<-|Hin].
      * exists (String c h). split; [now left|].
        cbn [hasNul]. rewrite Hseg. apply orb_true_r.
      * exists seg. split; [now right|exact Hseg].
Qed.

(** X23.  A request path with a NUL character, such as one with [%00],
    passes the traversal check but never reaches the file system and never
    makes the handler throw: [lstatSync] refuses the path, [getStats]
    swallows the error, and the request goes to the not-found
    collaborator.  Stated for a root made of plain directory names,
    without a fixed path and without a rewrite function. *)
Theorem nul_in_path_is_not_found {Env Ctx : Type} (host : Host Ctx)
    (options : ServeStaticOptions Env Ctx) req env filename rs :
  JS.truthy (path options) = false ->
  rewriteRequestPath options = None ->
  root options = Some (String.concat "/" rs) ->
  rs <> [] ->
  List.Forall plainSegment rs ->
  requestFilename options req = Some filename ->
  hasNul filename = true ->
  lstatSync (files host)
    (NodePath.join [default ""%string (root options); filename])
  = Throw (OtherError "ERR_INVALID_ARG_VALUE")
  /\ resolve host options req = Ok None
  /\ serveStatic host options req env = notFound options req env.
Proof.
  intros Hpath Hrewrite Hroot Hrs Hplain Hname Hnul.
  assert (Hne : filename <> EmptyString) by (intros ->; discriminate).
  assert (Hnot : ~ hasDotDotSegment filename).
  { unfold requestFilename in Hname. rewrite Hpath in Hname.
    destruct (JS.decodeURIComponent (pathname req)) as [decoded|];
      [|discriminate].
    destruct (Regex.test TRAVERSAL_REGEX decoded) eqn:Htest; [discriminate|].
    injection Hname as <-. intros H. apply traversal_test_spec in H.
    congruence. }
  assert (Hjoin : hasNul
                    (NodePath.join [default ""%string (root options); filename])
                  = true).
  { rewrite Hroot. cbn [default from_option id].
    rewrite (join_under_root rs filename Hrs Hplain Hne Hnot), hasNul_app.
    apply orb_true_iff. left.
    destruct (hasNul_split "/" filename eq_refl Hnul) as (seg & Hin & Hseg).
    apply (hasNul_concat "/" _ seg); [|exact Hseg].
    apply in_or_app. right. unfold keptSegments.
    apply List.filter_In. split; [exact Hin|].
    destruct seg as [|c seg]; [discriminate|].
    unfold NodePath.isDot. cbn [String.eqb orb].
    destruct (Ascii.eqb c ".") eqn:E; [|reflexivity].
    destruct seg as [|c' seg]; [|reflexivity].
    apply Ascii.eqb_eq in E. subst c. discriminate Hseg. }
  assert (Hlstat : lstatSync (files host)
                     (NodePath.join
                        [default ""%string (root options); filename])
                   = Throw (OtherError "ERR_INVALID_ARG_VALUE")).
  { unfold lstatSync, validatePath. now rewrite Hjoin. }
  assert (Hres : resolve host options req = Ok None).
  { unfold resolve. rewrite Hname. unfold joinedName.
    rewrite Hpath, Hrewrite. cbn [negb mbind result_bind].
    unfold target, getStats. now rewrite Hlstat. }
  split; [exact Hlstat|]. split; [exact Hres|].
  rewrite handler_resolve. now rewrite Hres.
Qed.

Lemma nul_in_path_is_not_found_witness :
  lstatSync (files Fixture.host)
    (NodePath.join
       [default ""%string (root Fixture.options);
        String "/" (String "a" (String Ascii.zero ".txt"))])
  = Throw (OtherError "ERR_INVALID_ARG_VALUE")
  /\ resolve Fixture.host Fixture.options
       (Fixture.request "GET" "/a%00.txt" []) = Ok None
  /\ serveStatic Fixture.host Fixture.options
       (Fixture.request "GET" "/a%00.txt" []) tt
     = notFound Fixture.options (Fixture.request "GET" "/a%00.txt" []) tt.
Proof.
  apply (nul_in_path_is_not_found Fixture.host Fixture.options
           (Fixture.request "GET" "/a%00.txt" []) tt
           (String "/" (String "a" (String Ascii.zero ".txt")))
           ["public"%string]);
    try reflexivity; try discriminate.
  repeat constructor; discriminate.
Defined.
